(** * Verification of the users admin panel (admin_users9.py)

    A shallow embedding of the location codec [parse_location_data], of the
    listing endpoint [get_users] (predicate composition, count query, page
    query, pagination metadata) and of [update_user].

    Conventions of the model.
    - A Python [str] is a [string]; each character stands for one code point
      in the range U+0000..U+00FF.
    - Python integers are unbounded: they are [Z].
    - A Python exception is a value of [exn]; code that may raise returns an
      [outcome].
    - A dictionary literal is an association list in insertion order.
    - A timestamp is a [Z]: microseconds of server-local wall-clock time.
    - The database compares letter case with its locale, which the program
      does not set: the locale is a parameter ([Sql.Locale]). *)

From Stdlib Require Import List String Ascii ZArith NArith Bool Lia Arith.
From Stdlib Require Import QArith Qround.
From Stdlib Require Import Permutation Sorted.
Import ListNotations.

Local Open Scope string_scope.
Local Open Scope Z_scope.

(** ** Exceptions *)

Inductive exn : Type :=
| ValueError
| IndexError
| KeyError
| TypeError
| ZeroDivisionError
| ProgrammingError
| DataError
| DatabaseError.

Inductive outcome (A : Type) : Type :=
| Ret (a : A)
| Raise (e : exn).
Arguments Ret {A} a.
Arguments Raise {A} e.

Definition bind {A B : Type} (m : outcome A) (k : A -> outcome B) : outcome B :=
  match m with
  | Ret a => k a
  | Raise e => Raise e
  end.

Declare Scope outcome_scope.
Delimit Scope outcome_scope with outcome.
Notation "x <- m ;; k" := (bind m (fun x => k))
  (at level 61, m at next level, right associativity) : outcome_scope.
Local Open Scope outcome_scope.

(** [try: m except e => h]: the handler runs only for the named exception. *)
Definition try_except {A : Type} (m : outcome A) (e : exn -> bool) (h : outcome A)
  : outcome A :=
  match m with
  | Ret a => Ret a
  | Raise x => if e x then h else Raise x
  end.

Definition is_ValueError (e : exn) : bool :=
  match e with ValueError => true | _ => false end.

(** ** Characters and strings *)

Definition code (c : ascii) : nat := nat_of_ascii c.

Definition is_digit (c : ascii) : bool :=
  (48 <=? code c)%nat && (code c <=? 57)%nat.

Definition digit_value (c : ascii) : N := N.of_nat (code c - 48).

(** Whitespace skipped by [float]: the ASCII characters of [Py_ISSPACE], and
    the two space characters above U+007F, which CPython first rewrites to
    an ASCII space. *)
Definition is_space (c : ascii) : bool :=
  ((9 <=? code c)%nat && (code c <=? 13)%nat)
  || (code c =? 32)%nat || (code c =? 133)%nat || (code c =? 160)%nat.

Definition is_upper (c : ascii) : bool :=
  (65 <=? code c)%nat && (code c <=? 90)%nat.

Definition to_lower (c : ascii) : ascii :=
  if is_upper c then ascii_of_nat (code c + 32) else c.

Fixpoint lower (s : string) : string :=
  match s with
  | EmptyString => EmptyString
  | String c r => String (to_lower c) (lower r)
  end.

Fixpoint is_prefix (p s : string) : bool :=
  match p, s with
  | EmptyString, _ => true
  | String a p', String b s' => Ascii.eqb a b && is_prefix p' s'
  | String _ _, EmptyString => false
  end.

(** [sub in s] *)
Fixpoint contains (sub s : string) : bool :=
  is_prefix sub s ||
  match s with
  | EmptyString => false
  | String _ s' => contains sub s'
  end.

(** [s.split(sep)] scans left to right for non-overlapping occurrences of
    [sep].  [skip] counts the characters of an occurrence still to be
    passed over. *)
Fixpoint split_from (sep : string) (skip : nat) (s : string) : list string :=
  match s with
  | EmptyString => [EmptyString]
  | String c s' =>
      match skip with
      | S k => split_from sep k s'
      | O =>
          if is_prefix sep s
          then EmptyString :: split_from sep (String.length sep - 1) s'
          else match split_from sep 0 s' with
               | h :: t => String c h :: t
               | [] => [String c EmptyString]
               end
      end
  end.

Definition split (s sep : string) : outcome (list string) :=
  match sep with
  | EmptyString => Raise ValueError
  | _ => Ret (split_from sep 0 s)
  end.

(** [parts[i]] *)
Definition getitem {A : Type} (l : list A) (i : nat) : outcome A :=
  match nth_error l i with
  | Some a => Ret a
  | None => Raise IndexError
  end.

(** The [p]-th block of [size] elements of [l], counting from 1. *)
Definition slice {A : Type} (size : nat) (l : list A) (p : nat) : list A :=
  firstn size (skipn ((p - 1) * size) l).

(** [s[k:]] *)
Fixpoint drop (k : nat) (s : string) : string :=
  match k, s with
  | O, _ => s
  | S _, EmptyString => EmptyString
  | S k', String _ r => drop k' r
  end.

(** Number of segments of [s.split(sep)], and the characters of an
    occurrence of [sep] after its first. *)
Definition segment_count (sep s : string) : nat :=
  List.length (split_from sep 0 s).

Definition reach (sep : string) : nat := (String.length sep - 1)%nat.

(** Truth value of a [str]: the empty string is false. *)
Definition str_truthy (s : string) : bool :=
  match s with EmptyString => false | _ => true end.

(** ** [float(str)]

    The value keeps the exact decimal that was read (sign, digits, power of
    ten); the rounding to a binary double is not modelled. *)

Inductive pyfloat : Type :=
| FInf (negative : bool)
| FNan
| FDec (negative : bool) (mantissa : N) (exp10 : Z).

Fixpoint lstrip (s : string) : string :=
  match s with
  | String c r => if is_space c then lstrip r else s
  | EmptyString => EmptyString
  end.

Fixpoint rstrip (s : string) : string :=
  match s with
  | EmptyString => EmptyString
  | String c r =>
      match rstrip r with
      | EmptyString => if is_space c then EmptyString else String c EmptyString
      | r' => String c r'
      end
  end.

(** Underscores may only stand between two digits; they are removed before
    the number is read.  [prev] is the previous character, if any. *)
Fixpoint strip_underscores (prev : option ascii) (s : string) : option string :=
  match s with
  | EmptyString =>
      match prev with
      | Some "_"%char => None
      | _ => Some EmptyString
      end
  | String c r =>
      if Ascii.eqb c "_" then
        match prev with
        | Some p => if is_digit p then strip_underscores (Some c) r else None
        | None => None
        end
      else
        match prev with
        | Some "_"%char =>
            if is_digit c
            then option_map (String c) (strip_underscores (Some c) r)
            else None
        | _ => option_map (String c) (strip_underscores (Some c) r)
        end
  end.

(** Leading sign. *)
Definition read_sign (s : string) : bool * string :=
  match s with
  | String "-" r => (true, r)
  | String "+" r => (false, r)
  | _ => (false, s)
  end.

(** A run of decimal digits: accumulated value, number of digits read, rest. *)
Fixpoint read_digits (acc : N) (n : nat) (s : string) : N * nat * string :=
  match s with
  | String c r =>
      if is_digit c
      then read_digits (10 * acc + digit_value c)%N (S n) r
      else (acc, n, s)
  | EmptyString => (acc, n, s)
  end.

Definition parse_inf_or_nan (s : string) : option pyfloat :=
  let '(neg, r) := read_sign s in
  let l := lower r in
  if String.eqb l "inf" || String.eqb l "infinity" then Some (FInf neg)
  else if String.eqb l "nan" then Some FNan
  else None.

Definition read_exponent (s : string) : option Z :=
  match s with
  | EmptyString => Some 0
  | String c r =>
      if Ascii.eqb c "e" || Ascii.eqb c "E" then
        let '(eneg, r1) := read_sign r in
        match read_digits 0 0 r1 with
        | (_, O, _) => None
        | (e, S _, EmptyString) =>
            Some (if eneg then - Z.of_N e else Z.of_N e)
        | (_, S _, String _ _) => None
        end
      else None
  end.

Definition parse_decimal (s : string) : option pyfloat :=
  let '(neg, s1) := read_sign s in
  let '(i, ni, s2) := read_digits 0 0 s1 in
  let '(m, nf, s3) :=
    match s2 with
    | String "." r => read_digits i 0 r
    | _ => (i, O, s2)
    end in
  match (ni + nf)%nat with
  | O => None
  | S _ =>
      match read_exponent s3 with
      | Some e => Some (FDec neg m (e - Z.of_nat nf))
      | None => None
      end
  end.

(** [float(s)] for a [str] argument. *)
Definition float (s : string) : outcome pyfloat :=
  match rstrip (lstrip s) with
  | EmptyString => Raise ValueError
  | t =>
      match strip_underscores None t with
      | None => Raise ValueError
      | Some u =>
          match parse_inf_or_nan u with
          | Some f => Ret f
          | None =>
              match parse_decimal u with
              | Some f => Ret f
              | None => Raise ValueError
              end
          end
      end
  end.

Definition float_parses (s : string) : bool :=
  match float s with Ret _ => true | Raise _ => false end.

(** ** Dictionaries *)

Inductive value : Type :=
| VNone
| VBool (b : bool)
| VStr (s : string)
| VFloat (f : pyfloat).

Definition dict : Type := list (string * value).

Fixpoint dict_get (d : dict) (k : string) : option value :=
  match d with
  | [] => None
  | (k', v) :: r => if String.eqb k' k then Some v else dict_get r k
  end.

Definition has_key (d : dict) (k : string) : bool :=
  match dict_get d k with Some _ => true | None => false end.

(** ** parse_location_data *)

Module LocationCodec.

(** The record returned for an empty or absent location. *)
Definition empty_location : dict :=
  [ ("address", VStr EmptyString);
    ("latitude", VNone);
    ("longitude", VNone);
    ("map_link", VNone);
    ("is_auto_detected", VBool false) ].

(** The record returned for a plain (manually typed) address. *)
Definition plain_location (location_string : string) : dict :=
  [ ("address", VStr location_string);
    ("latitude", VNone);
    ("longitude", VNone);
    ("map_link", VNone);
    ("is_auto_detected", VBool false);
    ("full_string", VStr location_string) ].

(** [float(p) if p else None], with [p] standing for [parts[i]]. *)
Definition coordinate (parts : list string) (i : nat) : outcome value :=
  c <- getitem parts i ;;
  if str_truthy c
  then (a <- getitem parts i ;; f <- float a ;; Ret (VFloat f))
  else Ret VNone.

(** The dictionary display inside the [try] block. *)
Definition auto_location (parts : list string) (location_string : string)
  : outcome dict :=
  address <- getitem parts 0 ;;
  latitude <- coordinate parts 1 ;;
  longitude <- coordinate parts 2 ;;
  map_link <- getitem parts 3 ;;
  Ret [ ("address", VStr address);
        ("latitude", latitude);
        ("longitude", longitude);
        ("map_link", VStr map_link);
        ("is_auto_detected", VBool true);
        ("full_string", VStr location_string) ].

(** The two nested [if]s with the [try]: [Some d] when the function returns
    [d] from inside them, [None] when control falls through to the final
    [return]. *)
Definition structured (location_string : string) : outcome (option dict) :=
  if contains " | " location_string then
    parts <- split location_string " | " ;;
    if (4 <=? List.length parts)%nat then
      try_except
        (d <- auto_location parts location_string ;; Ret (Some d))
        is_ValueError
        (Ret None)
    else Ret None
  else Ret None.

(** [None] is Python's [None] (an absent location). *)
Definition parse_location_data (location_string : option string) : outcome dict :=
  match location_string with
  | None => Ret empty_location
  | Some s =>
      if negb (str_truthy s) then Ret empty_location
      else
        r <- structured s ;;
        match r with
        | Some d => Ret d
        | None => Ret (plain_location s)
        end
  end.

(** Reading a key of the returned record. *)
Definition field (k : string) (o : outcome dict) : option value :=
  match o with
  | Ret d => dict_get d k
  | Raise _ => None
  end.

Definition is_auto_detected (o : outcome dict) : bool :=
  match field "is_auto_detected" o with
  | Some (VBool true) => true
  | _ => false
  end.

(** The segments of [raw] and the two coordinate segments. *)
Definition segments (raw : string) : list string := split_from " | " 0 raw.
Definition segment (raw : string) (i : nat) : string := nth i (segments raw) EmptyString.

(** A coordinate segment that the codec accepts: empty, or read by [float]. *)
Definition coordinate_ok (seg : string) : bool :=
  negb (str_truthy seg) || float_parses seg.

(** What the codec stores for an accepted coordinate segment. *)
Definition coordinate_value (seg : string) : value :=
  match float seg with
  | Ret f => if str_truthy seg then VFloat f else VNone
  | Raise _ => VNone
  end.

(** The reading of the invariant in which a coordinate segment must be read
    by [float] (an empty one is not). *)
Definition auto_iff_both_parse (raw : string) : Prop :=
  is_auto_detected (parse_location_data (Some raw)) = true <->
  ((4 <= List.length (segments raw))%nat
   /\ float_parses (segment raw 1) = true
   /\ float_parses (segment raw 2) = true).

End LocationCodec.

(** ** PostgreSQL pattern matching *)

Module Sql.

Inductive like_token : Type :=
| AnySeq               (* % *)
| AnyChar              (* _ *)
| Lit (c : ascii).     (* an ordinary or an escaped character *)

(** The pattern language of LIKE with the default escape character, the
    backslash.  A pattern that ends in a lone backslash is in error. *)
Fixpoint like_tokens (p : string) : option (list like_token) :=
  match p with
  | EmptyString => Some []
  | String c r =>
      if Ascii.eqb c "\" then
        match r with
        | EmptyString => None
        | String e r' => option_map (cons (Lit e)) (like_tokens r')
        end
      else if Ascii.eqb c "%" then option_map (cons AnySeq) (like_tokens r)
      else if Ascii.eqb c "_" then option_map (cons AnyChar) (like_tokens r)
      else option_map (cons (Lit c)) (like_tokens r)
  end.

Fixpoint like_match (p : list like_token) : string -> bool :=
  match p with
  | [] => fun t => match t with EmptyString => true | _ => false end
  | AnySeq :: p' =>
      fix star (t : string) : bool :=
        like_match p' t
        || match t with
           | EmptyString => false
           | String _ t' => star t'
           end
  | AnyChar :: p' =>
      fun t => match t with
               | EmptyString => false
               | String _ t' => like_match p' t'
               end
  | Lit c :: p' =>
      fun t => match t with
               | EmptyString => false
               | String a t' => Ascii.eqb a c && like_match p' t'
               end
  end.

(** The tokens of a text that is to be matched letter by letter. *)
Fixpoint literals (s : string) : list like_token :=
  match s with
  | EmptyString => []
  | String c r => Lit c :: literals r
  end.

(** The pattern [%sep%sep...%] with [k] separators. *)
Fixpoint occurrences (sep : string) (k : nat) : list like_token :=
  match k with
  | O => [AnySeq]
  | S k' => AnySeq :: (literals sep ++ occurrences sep k')%list
  end.

(** [t LIKE p] *)
Definition like (t p : string) : outcome bool :=
  match like_tokens p with
  | Some toks => Ret (like_match toks t)
  | None => Raise DatabaseError
  end.

(** A character with a meaning of its own in a LIKE pattern. *)
Definition is_meta (c : ascii) : bool :=
  Ascii.eqb c "%" || Ascii.eqb c "_" || Ascii.eqb c "\".

Fixpoint has_meta (s : string) : bool :=
  match s with
  | EmptyString => false
  | String c r => is_meta c || has_meta r
  end.

(** The lower-casing of the database: ILIKE folds the case of both
    operands with the locale of the database, which the program does not
    choose.  A locale is taken to lower-case the modelled code points one
    by one, to send A to Z where it sends a to z (it may fold more letters,
    as the accented capitals), and to leave the three characters of the
    pattern language alone, making no other character into one of them.
    (The Turkic locales, which send I to the dotless i, are outside this
    class.) *)
Class Locale : Type := {
  fold_case : ascii -> ascii;
  fold_ascii : forall c, fold_case (to_lower c) = fold_case c;
  fold_meta : forall c, is_meta c = true -> fold_case c = c;
  fold_plain : forall c, is_meta c = false -> is_meta (fold_case c) = false
}.

Fixpoint fold_text `{Locale} (s : string) : string :=
  match s with
  | EmptyString => EmptyString
  | String c r => String (fold_case c) (fold_text r)
  end.

(** The locale C: the letters A to Z only. *)
Definition c_locale : Locale.
Proof.
  refine {| fold_case := to_lower |}.
  - intro c. destruct c as [[] [] [] [] [] [] [] []]; reflexivity.
  - intro c. destruct c as [[] [] [] [] [] [] [] []];
      intro Hm; try discriminate Hm; reflexivity.
  - intro c. destruct c as [[] [] [] [] [] [] [] []];
      intro Hm; try discriminate Hm; reflexivity.
Defined.

(** A locale that also folds the accented capitals U+00C0 to U+00DE (the
    multiplication sign U+00D7 apart). *)
Definition latin1_lower (c : ascii) : ascii :=
  if is_upper c
     || ((192 <=? code c)%nat && (code c <=? 222)%nat
         && negb (code c =? 215)%nat)
  then ascii_of_nat (code c + 32) else c.

Definition latin1_locale : Locale.
Proof.
  refine {| fold_case := latin1_lower |}.
  - intro c. destruct c as [[] [] [] [] [] [] [] []]; reflexivity.
  - intro c. destruct c as [[] [] [] [] [] [] [] []];
      intro Hm; try discriminate Hm; reflexivity.
  - intro c. destruct c as [[] [] [] [] [] [] [] []];
      intro Hm; try discriminate Hm; reflexivity.
Defined.

(** [t ILIKE p]: LIKE on the operands lower-cased by the locale. *)
Definition ilike `{Locale} (t p : string) : outcome bool :=
  like (fold_text t) (fold_text p).

(** [sub] occurs in [t], letter case aside. *)
Definition icontains `{Locale} (sub t : string) : bool :=
  contains (fold_text sub) (fold_text t).

End Sql.

(** ** The users table *)

(** Modelled from the spec: the users table is created outside this
    program; its columns and their nullability are those of the UserRecord
    of the data model ([updated_at] and [profile_pic] may be NULL, the other
    columns hold a value). *)
Record UserRecord : Type := {
  id : Z;
  full_name : string;
  phone : string;
  email : string;
  location : string;
  status : string;
  created_at : Z;
  updated_at : option Z;
  password : string;
  profile_pic : option string
}.

(** The table: its rows, each at a place of its own in the list.  The
    list is a naming of the rows, not the order in which the engine hands
    them out: the statements of the program that return several rows name
    an order, which the engine completes as it likes (see
    [Engine.Ordering]), and the others are counted, or asked for the row of
    one [id]. *)
Definition table : Type := list UserRecord.

(** A value bound to a [%s] placeholder. *)
Inductive param : Type :=
| PText (s : string)
| PInt (z : Z).

Definition usecs_per_day : Z := 86400000000.

(** [CURRENT_DATE], as a day number. *)
Definition current_date (now : Z) : Z := now / usecs_per_day.

(** ** Statements built by the endpoints

    A statement is kept with its structure, from which the engine's
    answer is computed, and rendered to the text that is handed to the
    driver ([sql]). *)

Inductive condition : Type :=
| SearchCondition     (* the four ILIKE tests joined by OR *)
| LocationLike        (* location LIKE '% | % | % | %' *)
| LocationNotLike     (* location NOT LIKE '% | % | % | %' *)
| StatusEquals        (* status = %s *)
| CreatedToday        (* DATE(created_at) = CURRENT_DATE *)
| CreatedLastWeek      (* created_at >= CURRENT_DATE - INTERVAL '7 days' *)
| CreatedLastMonth.    (* created_at >= CURRENT_DATE - INTERVAL '30 days' *)

Inductive assignment : Type :=
| SetFullName | SetEmail | SetPhone | SetLocation | SetStatus | SetPassword
| SetUpdatedAtNow.    (* updated_at = CURRENT_TIMESTAMP *)

Definition nl : string := String (ascii_of_nat 10) EmptyString.

Definition shape_pattern : string := "% | % | % | %".

(** The tokens of [shape_pattern]. *)
Definition shape_tokens : list Sql.like_token :=
  Eval vm_compute in
    match Sql.like_tokens shape_pattern with Some l => l | None => [] end.

Fixpoint join (sep : string) (l : list string) : string :=
  match l with
  | [] => EmptyString
  | [a] => a
  | a :: r => a ++ sep ++ join sep r
  end.

(** The SQL fragments appended to [conditions] (line breaks of the source
    literals are kept, their indentation is not). *)
Definition condition_sql (c : condition) : string :=
  match c with
  | SearchCondition =>
      nl ++ "(full_name ILIKE %s OR " ++ nl ++ "phone ILIKE %s OR " ++ nl
         ++ "email ILIKE %s OR " ++ nl ++ "location ILIKE %s)" ++ nl
  | LocationLike => "location LIKE '" ++ shape_pattern ++ "'"
  | LocationNotLike => "location NOT LIKE '" ++ shape_pattern ++ "'"
  | StatusEquals => "status = %s"
  | CreatedToday => "DATE(created_at) = CURRENT_DATE"
  | CreatedLastWeek => "created_at >= CURRENT_DATE - INTERVAL '7 days'"
  | CreatedLastMonth => "created_at >= CURRENT_DATE - INTERVAL '30 days'"
  end.

Definition assignment_sql (a : assignment) : string :=
  match a with
  | SetFullName => "full_name = %s"
  | SetEmail => "email = %s"
  | SetPhone => "phone = %s"
  | SetLocation => "location = %s"
  | SetStatus => "status = %s"
  | SetPassword => "password = %s"
  | SetUpdatedAtNow => "updated_at = CURRENT_TIMESTAMP"
  end.

(** [" AND ".join(conditions) if conditions else "1=1"] *)
Definition where_clause (conditions : list condition) : string :=
  match conditions with
  | [] => "1=1"
  | _ => join " AND " (map condition_sql conditions)
  end.

Inductive statement : Type :=
| SelectCount (conditions : list condition)
| SelectPage (conditions : list condition)
| SelectIdById                    (* SELECT id FROM users WHERE id = %s *)
| SelectIdByEmailOther            (* ... WHERE email = %s AND id != %s *)
| SelectIdByPhoneOther            (* ... WHERE phone = %s AND id != %s *)
| UpdateUser (update_fields : list assignment).

Definition sql (st : statement) : string :=
  match st with
  | SelectCount conds =>
      "SELECT COUNT(*) as total FROM users WHERE " ++ where_clause conds
  | SelectPage conds =>
      nl ++ "SELECT id, profile_pic, full_name, phone, email, location, " ++ nl
         ++ "status, created_at, " ++ nl
         ++ "COALESCE(updated_at, created_at) as last_updated" ++ nl
         ++ "FROM users " ++ nl
         ++ "WHERE " ++ where_clause conds ++ nl
         ++ "ORDER BY created_at DESC" ++ nl
         ++ "LIMIT %s OFFSET %s" ++ nl
  | SelectIdById => "SELECT id FROM users WHERE id = %s"
  | SelectIdByEmailOther =>
      nl ++ "SELECT id FROM users WHERE email = %s AND id != %s" ++ nl
  | SelectIdByPhoneOther =>
      nl ++ "SELECT id FROM users WHERE phone = %s AND id != %s" ++ nl
  | UpdateUser fields =>
      nl ++ "UPDATE users " ++ nl
         ++ "SET " ++ join ", " (map assignment_sql fields) ++ nl
         ++ "WHERE id = %s" ++ nl
  end.

(** ** The driver: [cursor.execute(query, params)]

    Whenever a parameter sequence is passed (an empty one included), the
    driver scans the query text for placeholders: [%%] is a literal percent
    sign, [%s], [%b] and [%t] are placeholders, a percent sign followed by
    any other character except a line feed is rejected, and the number of
    placeholders must be the number of parameters. *)

Module Driver.

Definition is_format (c : ascii) : bool :=
  Ascii.eqb c "s" || Ascii.eqb c "b" || Ascii.eqb c "t".

(** Number of placeholders of a query text. *)
Fixpoint placeholders (q : string) : outcome nat :=
  match q with
  | EmptyString => Ret O
  | String c r =>
      if Ascii.eqb c "%" then
        match r with
        | EmptyString => Ret O
        | String d r' =>
            if Ascii.eqb d (ascii_of_nat 10) then placeholders r'
            else if Ascii.eqb d "%" then placeholders r'
            else if is_format d then n <- placeholders r' ;; Ret (S n)
            else Raise ProgrammingError
        end
      else placeholders r
  end.

Definition convert (q : string) (params : list param) : outcome unit :=
  n <- placeholders q ;;
  if (n =? List.length params)%nat then Ret tt else Raise ProgrammingError.

(** The character U+0000 occurs in the text. *)
Fixpoint has_nul (s : string) : bool :=
  match s with
  | EmptyString => false
  | String c r => (code c =? 0)%nat || has_nul r
  end.

(** After the statement text is converted the parameters are dumped: a
    [str] that holds U+0000 is refused. *)
Definition dump (params : list param) : outcome unit :=
  if existsb (fun p => match p with
                       | PText s => has_nul s
                       | PInt _ => false
                       end) params
  then Raise DataError else Ret tt.

End Driver.

(** ** The storage engine *)

Module Engine.

Definition arity (c : condition) : nat :=
  match c with
  | SearchCondition => 4
  | StatusEquals => 1
  | _ => 0
  end.

Section Conditions.

Context `{Sql.Locale}.

(** One condition on one row, with the parameters bound to its
    placeholders. *)
Definition holds (now : Z) (c : condition) (args : list param) (u : UserRecord)
  : outcome bool :=
  match c, args with
  | SearchCondition, [PText a; PText b; PText c; PText d] =>
      r1 <- Sql.ilike (full_name u) a ;;
      r2 <- Sql.ilike (phone u) b ;;
      r3 <- Sql.ilike (email u) c ;;
      r4 <- Sql.ilike (location u) d ;;
      Ret (r1 || r2 || r3 || r4)
  | LocationLike, [] => Sql.like (location u) shape_pattern
  | LocationNotLike, [] =>
      b <- Sql.like (location u) shape_pattern ;; Ret (negb b)
  | StatusEquals, [PText s] => Ret (String.eqb (status u) s)
  | CreatedToday, [] =>
      Ret (created_at u / usecs_per_day =? current_date now)
  | CreatedLastWeek, [] =>
      Ret ((current_date now - 7) * usecs_per_day <=? created_at u)
  | CreatedLastMonth, [] =>
      Ret ((current_date now - 30) * usecs_per_day <=? created_at u)
  | _, _ => Raise DatabaseError
  end.

(** The conjunction of the conditions; no condition is [1=1]. *)
Fixpoint where_holds (now : Z) (conds : list condition) (params : list param)
  (u : UserRecord) : outcome bool :=
  match conds with
  | [] => Ret true
  | c :: r =>
      b <- holds now c (firstn (arity c) params) u ;;
      b' <- where_holds now r (skipn (arity c) params) u ;;
      Ret (b && b')
  end.

Fixpoint select_where (now : Z) (conds : list condition) (params : list param)
  (t : table) : outcome (list UserRecord) :=
  match t with
  | [] => Ret []
  | u :: r =>
      b <- where_holds now conds params u ;;
      rest <- select_where now conds params r ;;
      Ret (if b then u :: rest else rest)
  end.

End Conditions.

Definition newest_first (a b : UserRecord) : Prop := created_at b <= created_at a.

(** ORDER BY created_at DESC.  The statement names no further sort key:
    the engine may return rows of equal [created_at] in any order, and the
    order it picks may depend on the LIMIT and OFFSET of the statement. *)
Class Ordering : Type := {
  order_by_created_at_desc : Z -> Z -> list UserRecord -> list UserRecord;
  order_permutation : forall limit offset rows,
    Permutation (order_by_created_at_desc limit offset rows) rows;
  order_sorted : forall limit offset rows,
    StronglySorted newest_first (order_by_created_at_desc limit offset rows)
}.

(** An engine that sorts by insertion and so keeps rows of equal
    [created_at] in the order of the list. *)
Fixpoint insert (u : UserRecord) (l : list UserRecord) : list UserRecord :=
  match l with
  | [] => [u]
  | v :: r => if created_at v <=? created_at u then u :: l else v :: insert u r
  end.

Fixpoint insertion_sort (l : list UserRecord) : list UserRecord :=
  match l with
  | [] => []
  | u :: r => insert u (insertion_sort r)
  end.

(** The insertion sort is an ordering the engine may use. *)
Definition scan_order : Ordering.
Proof.
  assert (Hins : forall u l, Permutation (insert u l) (u :: l)).
  { intros u l. induction l as [|v r IH]; cbn [insert]; [reflexivity|].
    destruct (_ <=? _); [reflexivity|].
    rewrite IH. apply perm_swap. }
  assert (Hperm : forall l, Permutation (insertion_sort l) l).
  { induction l as [|u l IH]; cbn [insertion_sort]; [reflexivity|].
    rewrite Hins. now apply perm_skip. }
  assert (Hsort : forall l, StronglySorted newest_first (insertion_sort l)).
  { induction l as [|u l IH]; cbn [insertion_sort]; [constructor|].
    induction IH as [|v r Hs IH Hf]; cbn [insert].
    - repeat constructor.
    - destruct (created_at v <=? created_at u) eqn:E.
      + apply Z.leb_le in E. constructor; [now constructor|].
        constructor; [exact E|].
        eapply Forall_impl; [|exact Hf]. unfold newest_first. intros; lia.
      + apply Z.leb_gt in E. constructor; [exact IH|].
        eapply Permutation_Forall; [apply Permutation_sym, Hins|].
        constructor; [unfold newest_first; lia|exact Hf]. }
  exact {| order_by_created_at_desc := fun _ _ => insertion_sort;
           order_permutation := fun _ _ => Hperm;
           order_sorted := fun _ _ => Hsort |}.
Defined.

(** An engine that orders rows of equal [created_at] one way for an even
    OFFSET and the other way for an odd one. *)
Definition offset_order : Ordering.
Proof.
  refine {| order_by_created_at_desc := fun _ offset rows =>
              if Z.even offset then insertion_sort rows
              else insertion_sort (rev rows) |}.
  - intros limit offset rows. destruct (Z.even offset).
    + exact (@order_permutation scan_order 0 0 rows).
    + etransitivity;
        [ exact (@order_permutation scan_order 0 0 (rev rows))
        | apply Permutation_sym, Permutation_rev ].
  - intros limit offset rows. destruct (Z.even offset).
    + exact (@order_sorted scan_order 0 0 rows).
    + exact (@order_sorted scan_order 0 0 (rev rows)).
Defined.

(** The largest [bigint]: LIMIT and OFFSET take no larger number. *)
Definition bigint_max : Z := 9223372036854775807.

Section Queries.

Context `{Sql.Locale}.

(** [cur.execute(count_query, params)] and [cur.fetchone()['total']] *)
Definition fetch_total (now : Z) (conds : list condition) (params : list param)
  (t : table) : outcome Z :=
  _ <- Driver.convert (sql (SelectCount conds)) params ;;
  _ <- Driver.dump params ;;
  rows <- select_where now conds params t ;;
  Ret (Z.of_nat (List.length rows)).

(** [cur.execute(query, params)] and [cur.fetchall()]; the last two
    parameters are bound to LIMIT and OFFSET.  The engine refuses a
    negative LIMIT or OFFSET, and one that is no [bigint]. *)
Definition fetch_page `{Ordering} (now : Z) (conds : list condition)
  (params : list param) (t : table) : outcome (list UserRecord) :=
  _ <- Driver.convert (sql (SelectPage conds)) params ;;
  _ <- Driver.dump params ;;
  let n := (List.length params - 2)%nat in
  match skipn n params with
  | [PInt limit; PInt offset] =>
      if (limit <? 0) || (offset <? 0)
         || (bigint_max <? limit) || (bigint_max <? offset)
      then Raise DataError
      else
        rows <- select_where now conds (firstn n params) t ;;
        Ret (firstn (Z.to_nat limit)
               (skipn (Z.to_nat offset)
                  (order_by_created_at_desc limit offset rows)))
  | _ => Raise DatabaseError
  end.

End Queries.

(** The three lookups of [update_user]; the answer is the list of [id]s. *)
Definition fetch_ids (st : statement) (params : list param) (t : table)
  : outcome (list Z) :=
  _ <- Driver.convert (sql st) params ;;
  match st, params with
  | SelectIdById, [PInt i] =>
      Ret (map id (filter (fun u => id u =? i) t))
  | SelectIdByEmailOther, [PText e; PInt i] =>
      Ret (map id (filter (fun u => String.eqb (email u) e && negb (id u =? i)) t))
  | SelectIdByPhoneOther, [PText p; PInt i] =>
      Ret (map id (filter (fun u => String.eqb (phone u) p && negb (id u =? i)) t))
  | _, _ => Raise DatabaseError
  end.

Definition set_full_name (s : string) (u : UserRecord) : UserRecord :=
  {| id := id u; full_name := s; phone := phone u; email := email u;
     location := location u; status := status u; created_at := created_at u;
     updated_at := updated_at u; password := password u;
     profile_pic := profile_pic u |}.

Definition set_email (s : string) (u : UserRecord) : UserRecord :=
  {| id := id u; full_name := full_name u; phone := phone u; email := s;
     location := location u; status := status u; created_at := created_at u;
     updated_at := updated_at u; password := password u;
     profile_pic := profile_pic u |}.

Definition set_phone (s : string) (u : UserRecord) : UserRecord :=
  {| id := id u; full_name := full_name u; phone := s; email := email u;
     location := location u; status := status u; created_at := created_at u;
     updated_at := updated_at u; password := password u;
     profile_pic := profile_pic u |}.

Definition set_location (s : string) (u : UserRecord) : UserRecord :=
  {| id := id u; full_name := full_name u; phone := phone u; email := email u;
     location := s; status := status u; created_at := created_at u;
     updated_at := updated_at u; password := password u;
     profile_pic := profile_pic u |}.

Definition set_status (s : string) (u : UserRecord) : UserRecord :=
  {| id := id u; full_name := full_name u; phone := phone u; email := email u;
     location := location u; status := s; created_at := created_at u;
     updated_at := updated_at u; password := password u;
     profile_pic := profile_pic u |}.

Definition set_password (s : string) (u : UserRecord) : UserRecord :=
  {| id := id u; full_name := full_name u; phone := phone u; email := email u;
     location := location u; status := status u; created_at := created_at u;
     updated_at := updated_at u; password := s;
     profile_pic := profile_pic u |}.

Definition set_updated_at (ts : Z) (u : UserRecord) : UserRecord :=
  {| id := id u; full_name := full_name u; phone := phone u; email := email u;
     location := location u; status := status u; created_at := created_at u;
     updated_at := Some ts; password := password u;
     profile_pic := profile_pic u |}.

(** The SET list applied to one row, left to right. *)
Fixpoint assign (now : Z) (fields : list assignment) (values : list param)
  (u : UserRecord) : outcome UserRecord :=
  match fields with
  | [] =>
      match values with
      | [] => Ret u
      | _ :: _ => Raise DatabaseError
      end
  | SetUpdatedAtNow :: r => assign now r values (set_updated_at now u)
  | f :: r =>
      match values with
      | PText s :: vs =>
          assign now r vs
            (match f with
             | SetFullName => set_full_name s u
             | SetEmail => set_email s u
             | SetPhone => set_phone s u
             | SetLocation => set_location s u
             | SetStatus => set_status s u
             | SetPassword => set_password s u
             | SetUpdatedAtNow => u
             end)
      | _ => Raise DatabaseError
      end
  end.

Fixpoint update_where_id (now : Z) (fields : list assignment)
  (values : list param) (i : Z) (t : table) : outcome table :=
  match t with
  | [] => Ret []
  | u :: r =>
      u' <- (if id u =? i then assign now fields values u else Ret u) ;;
      r' <- update_where_id now fields values i r ;;
      Ret (u' :: r')
  end.

(** [cur.execute(update_query, update_values)]; the last parameter is the
    [id] of the WHERE clause.  An empty SET list is a syntax error. *)
Definition execute_update (now : Z) (fields : list assignment)
  (params : list param) (t : table) : outcome table :=
  _ <- Driver.convert (sql (UpdateUser fields)) params ;;
  match fields with
  | [] => Raise DatabaseError
  | _ :: _ =>
      let n := (List.length params - 1)%nat in
      match skipn n params with
      | [PInt i] => update_where_id now fields (firstn n params) i t
      | _ => Raise DatabaseError
      end
  end.

End Engine.

(** ** get_users_stats: the count of auto-detected locations *)

Module Stats.

(** The [auto_users] count: [cur.execute] is called with the statement
    text alone, whose WHERE clause is [location LIKE '% | % | % | %'];
    with no parameters the driver hands the text to the engine as it
    is. *)
Definition auto_users `{Sql.Locale} (t : table) : outcome Z :=
  rows <- Engine.select_where 0 [LocationLike] [] t ;;
  Ret (Z.of_nat (List.length rows)).

End Stats.

(** ** get_users *)

(** The request arguments after [int(...)] and the defaults. *)
Record FilterCriteria : Type := {
  page : Z;
  per_page : Z;
  search : string;
  location_filter : string;
  status_filter : string;
  date_filter : string
}.

(** A row of the page, with the keys added by the loop over [users]
    (the two display strings [formatted_created] and [formatted_updated]
    are left out). *)
Record ListedUser : Type := {
  row_id : Z;
  row_profile_pic : option string;
  row_full_name : string;
  row_phone : string;
  row_email : string;
  row_location : string;
  row_status : string;
  row_created_at : Z;
  last_updated : Z;
  parsed_location : dict;
  user_is_auto_detected : value
}.

Record Pagination : Type := {
  pagination_page : Z;
  pagination_per_page : Z;
  total : Z;
  total_pages : Z
}.

Inductive response : Type :=
| Success (users : list ListedUser) (pagination : Pagination)
| Failure (error : exn).

(** [a // b] *)
Definition floordiv (a b : Z) : outcome Z :=
  if b =? 0 then Raise ZeroDivisionError else Ret (a / b).

(** [(total + per_page - 1) // per_page] *)
Definition page_count (total per_page : Z) : outcome Z :=
  floordiv (total + per_page - 1) per_page.

Module Listing.

Definition query_state : Type := (list condition * list param)%type.

Definition append_condition (c : condition) (ps : list param) (st : query_state)
  : query_state :=
  (fst st ++ [c], snd st ++ ps)%list.

Definition search_term (search : string) : string := "%" ++ search ++ "%".

(** [if search: ...] *)
Definition add_search (c : FilterCriteria) (st : query_state) : query_state :=
  if str_truthy (search c) then
    let t := PText (search_term (search c)) in
    append_condition SearchCondition [t; t; t; t] st
  else st.

(** [if location_filter == 'auto': ... elif location_filter == 'manual': ...] *)
Definition add_location (c : FilterCriteria) (st : query_state) : query_state :=
  if String.eqb (location_filter c) "auto" then
    append_condition LocationLike [] st
  else if String.eqb (location_filter c) "manual" then
    append_condition LocationNotLike [] st
  else st.

(** [if status_filter != 'all': ...] *)
Definition add_status (c : FilterCriteria) (st : query_state) : query_state :=
  if negb (String.eqb (status_filter c) "all") then
    append_condition StatusEquals [PText (status_filter c)] st
  else st.

(** [if date_filter != 'all': ...] *)
Definition add_date (c : FilterCriteria) (st : query_state) : query_state :=
  if negb (String.eqb (date_filter c) "all") then
    if String.eqb (date_filter c) "today" then
      append_condition CreatedToday [] st
    else if String.eqb (date_filter c) "week" then
      append_condition CreatedLastWeek [] st
    else if String.eqb (date_filter c) "month" then
      append_condition CreatedLastMonth [] st
    else st
  else st.

(** [conditions] and [params] when the WHERE clause is assembled. *)
Definition build (c : FilterCriteria) : query_state :=
  add_date c (add_status c (add_location c (add_search c ([], [])))).

(** [parsed_loc['is_auto_detected']] *)
Definition subscript (d : dict) (k : string) : outcome value :=
  match dict_get d k with
  | Some v => Ret v
  | None => Raise KeyError
  end.

(** The body of [for user in users]. *)
Definition enrich (u : UserRecord) : outcome ListedUser :=
  parsed_loc <- LocationCodec.parse_location_data (Some (location u)) ;;
  auto <- subscript parsed_loc "is_auto_detected" ;;
  Ret {| row_id := id u;
         row_profile_pic := profile_pic u;
         row_full_name := full_name u;
         row_phone := phone u;
         row_email := email u;
         row_location := location u;
         row_status := status u;
         row_created_at := created_at u;
         last_updated := match updated_at u with
                         | Some ts => ts
                         | None => created_at u
                         end;
         parsed_location := parsed_loc;
         user_is_auto_detected := auto |}.

Fixpoint enrich_all (users : list UserRecord) : outcome (list ListedUser) :=
  match users with
  | [] => Ret []
  | u :: r => u' <- enrich u ;; r' <- enrich_all r ;; Ret (u' :: r')
  end.

Section GetUsers.

Context `{Sql.Locale} `{Engine.Ordering}.

(** The [try] block. *)
Definition get_users_body (t : table) (now : Z) (c : FilterCriteria)
  : outcome (list ListedUser * Pagination) :=
  let offset := (page c - 1) * per_page c in
  let '(conditions, params) := build c in
  total <- Engine.fetch_total now conditions params t ;;
  let params := (params ++ [PInt (per_page c); PInt offset])%list in
  users <- Engine.fetch_page now conditions params t ;;
  users <- enrich_all users ;;
  pages <- page_count total (per_page c) ;;
  Ret (users,
       {| pagination_page := page c;
          pagination_per_page := per_page c;
          total := total;
          total_pages := pages |}).

(** [except Exception as e: return jsonify({'success': False, ...})] *)
Definition get_users (t : table) (now : Z) (c : FilterCriteria) : response :=
  match get_users_body t now c with
  | Ret (users, pagination) => Success users pagination
  | Raise e => Failure e
  end.

End GetUsers.

(** The rows of the table that satisfy the criteria: what the count query
    counts and the page query orders. *)
Definition matching `{Sql.Locale} (t : table) (now : Z) (c : FilterCriteria)
  : outcome (list UserRecord) :=
  Engine.select_where now (fst (build c)) (snd (build c)) t.

(** The criteria of page [p], all else unchanged. *)
Definition at_page (c : FilterCriteria) (p : Z) : FilterCriteria :=
  {| page := p; per_page := per_page c; search := search c;
     location_filter := location_filter c; status_filter := status_filter c;
     date_filter := date_filter c |}.

Definition users_of (r : response) : list ListedUser :=
  match r with
  | Success users _ => users
  | Failure _ => []
  end.

(** A location filter is set. *)
Definition filters_location (c : FilterCriteria) : bool :=
  String.eqb (location_filter c) "auto" || String.eqb (location_filter c) "manual".

(** The effective predicate of the criteria on one row. *)
Definition satisfies `{Sql.Locale} (now : Z) (c : FilterCriteria)
  (u : UserRecord) : bool :=
  match Engine.where_holds now (fst (build c)) (snd (build c)) u with
  | Ret b => b
  | Raise _ => false
  end.

(** The row of the page made from a stored row. *)
Definition listed (u : UserRecord) : ListedUser :=
  let parsed := LocationCodec.parse_location_data (Some (location u)) in
  {| row_id := id u;
     row_profile_pic := profile_pic u;
     row_full_name := full_name u;
     row_phone := phone u;
     row_email := email u;
     row_location := location u;
     row_status := status u;
     row_created_at := created_at u;
     last_updated := match updated_at u with
                     | Some ts => ts
                     | None => created_at u
                     end;
     parsed_location := match parsed with Ret d => d | Raise _ => [] end;
     user_is_auto_detected := VBool (LocationCodec.is_auto_detected parsed) |}.

(** The stored rows behind the page of the criteria. *)
Definition page_rows `{Sql.Locale} `{Engine.Ordering} (t : table) (now : Z)
  (c : FilterCriteria) : list UserRecord :=
  let offset := (page c - 1) * per_page c in
  firstn (Z.to_nat (per_page c))
    (skipn (Z.to_nat offset)
       (Engine.order_by_created_at_desc (per_page c) offset
          (filter (satisfies now c) t))).

(** Newest first. *)
Definition created_descending (a b : ListedUser) : Prop :=
  row_created_at b <= row_created_at a.

(** Newest first, and by ascending [id] among rows of equal [created_at]. *)
Definition identity_breaks_ties (a b : ListedUser) : Prop :=
  row_created_at b < row_created_at a
  \/ (row_created_at a = row_created_at b /\ row_id a < row_id b).

(** The search test read as a plain substring test. *)
Definition search_is_substring_test `{Sql.Locale} (s : string)
  (u : UserRecord) : Prop :=
  Engine.holds 0 SearchCondition
    [PText (search_term s); PText (search_term s);
     PText (search_term s); PText (search_term s)] u
  = Ret (Sql.icontains s (full_name u) || Sql.icontains s (phone u)
         || Sql.icontains s (email u) || Sql.icontains s (location u)).

(** The pages 1 to [total_pages] of the criteria, one after the other,
    hold every row that satisfies the criteria once. *)
Definition pages_partition `{Sql.Locale} `{Engine.Ordering} (t : table)
  (now : Z) (c : FilterCriteria) : Prop :=
  let rows := filter (satisfies now c) t in
  let pages := (Z.of_nat (List.length rows) + per_page c - 1) / per_page c in
  Permutation
    (List.concat
       (map (fun p => users_of (get_users t now (at_page c (Z.of_nat p))))
          (seq 1 (Z.to_nat pages))))
    (map listed rows).

End Listing.

(** ** update_user *)

Module Update.

(** The JSON body, for the bodies that are objects with string values: for
    each key the endpoint reads, its string value, or [None] when the key
    is absent.  (A body that is no object, or that gives one of the keys a
    number, a boolean, a null, an array or an object, is outside this
    model; so is a text that holds U+0000, which the driver refuses to
    dump.) *)
Record UpdateData : Type := {
  data_full_name : option string;
  data_email : option string;
  data_phone : option string;
  data_location : option string;
  data_status : option string;
  data_password : option string
}.

Inductive update_response : Type :=
| Updated                          (* 'User updated successfully' *)
| Rejected (error : string)
| Failed (error : exn).

Definition update_state : Type := (list assignment * list param)%type.

(** [if key in data: update_fields.append(...); update_values.append(...)] *)
Definition add_field (a : assignment) (v : option string) (st : update_state)
  : update_state :=
  match v with
  | Some s => (fst st ++ [a], snd st ++ [PText s])%list
  | None => st
  end.

Section UpdateUser.

(** [generate_password_hash] of werkzeug. *)
Variable generate_password_hash : string -> string.

(** [if 'password' in data and data['password']: ...] *)
Definition add_password (v : option string) (st : update_state) : update_state :=
  match v with
  | Some s =>
      if str_truthy s
      then (fst st ++ [SetPassword],
            snd st ++ [PText (generate_password_hash s)])%list
      else st
  | None => st
  end.

(** [update_fields] and [update_values] when [if update_fields:] is
    reached. *)
Definition build_update (data : UpdateData) : update_state :=
  let st := add_field SetFullName (data_full_name data) ([], []) in
  let st := add_field SetEmail (data_email data) st in
  let st := add_field SetPhone (data_phone data) st in
  let st := add_field SetLocation (data_location data) st in
  let st := add_field SetStatus (data_status data) st in
  let st := add_password (data_password data) st in
  (fst st ++ [SetUpdatedAtNow], snd st)%list.

(** A uniqueness pre-check: [Some message] when another user holds the
    value. *)
Definition taken (st : statement) (v : option string) (user_id : Z)
  (message : string) (t : table) : outcome (option string) :=
  match v with
  | Some s =>
      ids <- Engine.fetch_ids st [PText s; PInt user_id] t ;;
      match ids with
      | [] => Ret None
      | _ :: _ => Ret (Some message)
      end
  | None => Ret None
  end.

(** The [try] block: the response and the table after the request. *)
Definition update_user_body (t : table) (now : Z) (user_id : Z)
  (data : UpdateData) : outcome (update_response * table) :=
  ids <- Engine.fetch_ids SelectIdById [PInt user_id] t ;;
  match ids with
  | [] => Ret (Rejected "User not found", t)
  | _ :: _ =>
      e <- taken SelectIdByEmailOther (data_email data) user_id
             "Email already registered to another user" t ;;
      match e with
      | Some m => Ret (Rejected m, t)
      | None =>
          p <- taken SelectIdByPhoneOther (data_phone data) user_id
                 "Phone number already registered to another user" t ;;
          match p with
          | Some m => Ret (Rejected m, t)
          | None =>
              let '(update_fields, update_values) := build_update data in
              match update_fields with
              | _ :: _ =>
                  let update_values := (update_values ++ [PInt user_id])%list in
                  t' <- Engine.execute_update now update_fields update_values t ;;
                  Ret (Updated, t')
              | [] => Ret (Rejected "No fields to update", t)
              end
          end
      end
  end.

Definition update_user (t : table) (now : Z) (user_id : Z) (data : UpdateData)
  : update_response * table :=
  match update_user_body t now user_id data with
  | Ret r => r
  | Raise e => (Failed e, t)
  end.

End UpdateUser.

Definition no_fields : UpdateData :=
  {| data_full_name := None; data_email := None; data_phone := None;
     data_location := None; data_status := None; data_password := None |}.

End Update.

(** ** Sample data *)

Module Sample.

Definition user (i : Z) (name loc : string) (created : Z) : UserRecord :=
  {| id := i; full_name := name; phone := "555-010" ++ name;
     email := name ++ "@example.org"; location := loc; status := "active";
     created_at := created; updated_at := None; password := EmptyString;
     profile_pic := None |}.

(** Two rows created at the same instant, the younger [id] listed first. *)
Definition users : table :=
  [ user 2 "bob" "12 Main St | abc | -74.0060 | http://maps/x" 5;
    user 1 "al" "Plain Address, No Delimiter" 5;
    user 3 "cy" "12 Main St | 40.7128 | -74.0060 | http://maps/x" 9 ].

Definition criteria (p size : Z) (s loc : string) : FilterCriteria :=
  {| page := p; per_page := size; search := s; location_filter := loc;
     status_filter := "all"; date_filter := "all" |}.

End Sample.


(** * Further endpoints *)

(** ** More of [str] *)

Module Str.

(** [s.replace(old, new, 1)]: the first occurrence only. *)
Fixpoint replace_first (old new s : string) : string :=
  if is_prefix old s then new ++ drop (String.length old) s
  else match s with
       | EmptyString => EmptyString
       | String c r => String c (replace_first old new r)
       end.

(** [new] before every character and at the end: what [replace] does
    for an empty [old]. *)
Fixpoint intersperse (new s : string) : string :=
  match s with
  | EmptyString => new
  | String c r => new ++ String c (intersperse new r)
  end.

Fixpoint replace_from (old new : string) (skip : nat) (s : string) : string :=
  match s with
  | EmptyString => EmptyString
  | String c s' =>
      match skip with
      | S k => replace_from old new k s'
      | O =>
          if is_prefix old s
          then new ++ replace_from old new (String.length old - 1) s'
          else String c (replace_from old new 0 s')
      end
  end.

(** [s.replace(old, new)]: every occurrence, left to right, without
    overlap. *)
Definition replace (old new s : string) : string :=
  match old with
  | EmptyString => intersperse new s
  | _ => replace_from old new 0 s
  end.

(** Upper-case letters of the code points below U+0100: A to Z, and the
    accented capitals U+00C0 to U+00DE without the multiplication sign. *)
Definition is_upper_latin (c : ascii) : bool :=
  is_upper c
  || ((192 <=? code c)%nat && (code c <=? 222)%nat && negb (code c =? 215)%nat).

(** [s.lower()] *)
Fixpoint py_lower (s : string) : string :=
  match s with
  | EmptyString => EmptyString
  | String c r =>
      String (if is_upper_latin c then ascii_of_nat (code c + 32) else c)
        (py_lower r)
  end.

(** The character occurs in the string. *)
Fixpoint has_char (c : ascii) (s : string) : bool :=
  match s with
  | EmptyString => false
  | String a r => Ascii.eqb a c || has_char c r
  end.

End Str.

(** ** The encoding read by the codec *)

Module Encoding.

(** The format named in the docstring of [parse_location_data]:
    [Address | Latitude | Longitude | MapLink]. *)
Definition encoded (address latitude longitude map_link : string) : string :=
  address ++ " | " ++ latitude ++ " | " ++ longitude ++ " | " ++ map_link.

(** A text without the pipe character. *)
Definition pipe_free (s : string) : bool := negb (Str.has_char "|" s).

End Encoding.

(** ** The filters of the listing, one by one *)

Module Filters.

(** [t ILIKE p] as a truth value. *)
Definition ilike_test `{Sql.Locale} (t p : string) : bool :=
  match Sql.ilike t p with
  | Ret b => b
  | Raise _ => false
  end.

Definition search_ok `{Sql.Locale} (c : FilterCriteria) (u : UserRecord)
  : bool :=
  if str_truthy (search c) then
    let p := Listing.search_term (search c) in
    ilike_test (full_name u) p || ilike_test (phone u) p
    || ilike_test (email u) p || ilike_test (location u) p
  else true.

Definition location_ok (c : FilterCriteria) (u : UserRecord) : bool :=
  if String.eqb (location_filter c) "auto" then
    (4 <=? List.length (LocationCodec.segments (location u)))%nat
  else if String.eqb (location_filter c) "manual" then
    negb (4 <=? List.length (LocationCodec.segments (location u)))%nat
  else true.

Definition status_ok (c : FilterCriteria) (u : UserRecord) : bool :=
  if String.eqb (status_filter c) "all" then true
  else String.eqb (status u) (status_filter c).

Definition date_ok (now : Z) (c : FilterCriteria) (u : UserRecord) : bool :=
  if String.eqb (date_filter c) "all" then true
  else if String.eqb (date_filter c) "today" then
    created_at u / usecs_per_day =? current_date now
  else if String.eqb (date_filter c) "week" then
    (current_date now - 7) * usecs_per_day <=? created_at u
  else if String.eqb (date_filter c) "month" then
    (current_date now - 30) * usecs_per_day <=? created_at u
  else true.

(** The criteria with another date filter, another search text, another
    location filter. *)
Definition with_date (c : FilterCriteria) (d : string) : FilterCriteria :=
  {| page := page c; per_page := per_page c; search := search c;
     location_filter := location_filter c; status_filter := status_filter c;
     date_filter := d |}.

Definition with_search (c : FilterCriteria) (s : string) : FilterCriteria :=
  {| page := page c; per_page := per_page c; search := s;
     location_filter := location_filter c; status_filter := status_filter c;
     date_filter := date_filter c |}.

Definition with_location (c : FilterCriteria) (l : string) : FilterCriteria :=
  {| page := page c; per_page := per_page c; search := search c;
     location_filter := l; status_filter := status_filter c;
     date_filter := date_filter c |}.

(** The texts that the criteria bind to placeholders hold no U+0000: the
    search text, and the status unless it is [all]. *)
Definition texts_ok (c : FilterCriteria) : bool :=
  negb (Driver.has_nul (search c))
  && (String.eqb (status_filter c) "all"
      || negb (Driver.has_nul (status_filter c))).

(** LIMIT and OFFSET of the page query are numbers the engine takes. *)
Definition range_ok (c : FilterCriteria) : bool :=
  (0 <=? per_page c) && (per_page c <=? Engine.bigint_max)
  && (0 <=? (page c - 1) * per_page c)
  && ((page c - 1) * per_page c <=? Engine.bigint_max).

(** The requests that [get_users] answers with a page. *)
Definition serves (c : FilterCriteria) : bool :=
  negb (Listing.filters_location c) && texts_ok c && range_ok c
  && negb (per_page c =? 0).

End Filters.

(** ** What [update_user] writes *)

Module Effects.

Definition or_keep (v : option string) (old : string) : string :=
  match v with
  | Some s => s
  | None => old
  end.

(** The row of the user after an accepted request: the named fields take
    the values of the body, a non-empty password is stored hashed, and
    [updated_at] is the time of the request. *)
Definition updated_row (generate_password_hash : string -> string) (now : Z)
  (data : Update.UpdateData) (u : UserRecord) : UserRecord :=
  {| id := id u;
     full_name := or_keep (Update.data_full_name data) (full_name u);
     phone := or_keep (Update.data_phone data) (phone u);
     email := or_keep (Update.data_email data) (email u);
     location := or_keep (Update.data_location data) (location u);
     status := or_keep (Update.data_status data) (status u);
     created_at := created_at u;
     updated_at := Some now;
     password := match Update.data_password data with
                 | Some p => if str_truthy p then generate_password_hash p
                             else password u
                 | None => password u
                 end;
     profile_pic := profile_pic u |}.

(** Some row has the [id]. *)
Definition known (user_id : Z) (t : table) : bool :=
  existsb (fun u => id u =? user_id) t.

(** Another user holds the value in the column. *)
Definition held_by_other (column : UserRecord -> string) (v : option string)
  (user_id : Z) (t : table) : bool :=
  match v with
  | Some s =>
      existsb (fun u => String.eqb (column u) s && negb (id u =? user_id)) t
  | None => false
  end.

(** The table after an accepted request. *)
Definition updated_table (generate_password_hash : string -> string) (now : Z)
  (user_id : Z) (data : Update.UpdateData) (t : table) : table :=
  map (fun u => if id u =? user_id
                then updated_row generate_password_hash now data u
                else u) t.

End Effects.

(** ** The endpoints on one user *)

Module Accounts.

Inductive reply (A : Type) : Type :=
| Ok (a : A)              (* success: True *)
| Error (error : string)  (* success: False, with the message *)
| Crashed (e : exn).      (* the [except] branch *)
Arguments Ok {A} a.
Arguments Error {A} error.
Arguments Crashed {A} e.

(** [cur.fetchone()] after a lookup by [id]: the first row the engine
    finds. *)
Definition fetch_by_id (q : string) (user_id : Z) (t : table)
  : outcome (option UserRecord) :=
  _ <- Driver.convert q [PInt user_id] ;;
  Ret (find (fun u => id u =? user_id) t).

Definition status_sql : string :=
  nl ++ "UPDATE users " ++ nl
     ++ "SET status = %s, updated_at = CURRENT_TIMESTAMP" ++ nl
     ++ "WHERE id = %s" ++ nl
     ++ "RETURNING id" ++ nl.

(** [new_status not in ['active', 'blocked']] *)
Definition valid_status (new_status : option string) : bool :=
  match new_status with
  | Some s => String.eqb s "active" || String.eqb s "blocked"
  | None => false
  end.

(** The [try] block of [update_user_status]; [new_status] is
    [data.get('status')]. *)
Definition update_user_status_body (t : table) (now user_id : Z)
  (new_status : option string) : outcome (reply string * table) :=
  match new_status with
  | Some s =>
      if negb (valid_status new_status) then Ret (Error "Invalid status", t)
      else
        _ <- Driver.convert status_sql [PText s; PInt user_id] ;;
        let rowcount := List.length (filter (fun u => id u =? user_id) t) in
        if (rowcount =? 0)%nat then Ret (Error "User not found", t)
        else
          let t' := map (fun u => if id u =? user_id
                                  then Engine.set_updated_at now
                                         (Engine.set_status s u)
                                  else u) t in
          let status_text :=
            if String.eqb s "active" then "activated" else "blocked" in
          Ret (Ok ("User " ++ status_text ++ " successfully"), t')
  | None => Ret (Error "Invalid status", t)
  end.

Definition update_user_status (t : table) (now user_id : Z)
  (new_status : option string) : reply string * table :=
  match update_user_status_body t now user_id new_status with
  | Ret r => r
  | Raise e => (Crashed e, t)
  end.

(** The [try] block of [delete_user]. *)
Definition delete_user_body (t : table) (user_id : Z)
  : outcome (reply string * table) :=
  user <- fetch_by_id "SELECT full_name, email FROM users WHERE id = %s"
            user_id t ;;
  match user with
  | None => Ret (Error "User not found", t)
  | Some u =>
      _ <- Driver.convert "DELETE FROM users WHERE id = %s" [PInt user_id] ;;
      Ret (Ok ("User " ++ full_name u ++ " deleted successfully"),
           filter (fun v => negb (id v =? user_id)) t)
  end.

Definition delete_user (t : table) (user_id : Z) : reply string * table :=
  match delete_user_body t user_id with
  | Ret r => r
  | Raise e => (Crashed e, t)
  end.

(** The [try] block of [get_user_details]: the row with all its columns and
    its parsed location (the display strings are left out). *)
Definition get_user_details_body (t : table) (user_id : Z)
  : outcome (reply (UserRecord * dict)) :=
  user <- fetch_by_id (nl ++ "SELECT * FROM users WHERE id = %s" ++ nl)
            user_id t ;;
  match user with
  | None => Ret (Error "User not found")
  | Some u =>
      parsed_loc <- LocationCodec.parse_location_data (Some (location u)) ;;
      Ret (Ok (u, parsed_loc))
  end.

Definition get_user_details (t : table) (user_id : Z)
  : reply (UserRecord * dict) :=
  match get_user_details_body t user_id with
  | Ret r => r
  | Raise e => Crashed e
  end.

(** The answer of [download_user_photo]. *)
Record PhotoInfo : Type := {
  photo_url : string;
  user_name : string;
  file_name : string
}.

(** The [try] block of [download_user_photo]. *)
Definition download_user_photo_body (t : table) (user_id : Z)
  : outcome (reply PhotoInfo) :=
  user <- fetch_by_id "SELECT profile_pic, full_name FROM users WHERE id = %s"
            user_id t ;;
  match user with
  | None => Ret (Error "User not found")
  | Some u =>
      match profile_pic u with
      | Some url =>
          if negb (str_truthy url) || negb (contains "cloudinary" (Str.py_lower url))
          then Ret (Error "No Cloudinary profile photo found for this user")
          else Ret (Ok {| photo_url := url;
                          user_name := full_name u;
                          file_name := Str.replace " " "_" (full_name u)
                                       ++ "_profile.jpg" |})
      | None => Ret (Error "No Cloudinary profile photo found for this user")
      end
  end.

Definition download_user_photo (t : table) (user_id : Z) : reply PhotoInfo :=
  match download_user_photo_body t user_id with
  | Ret r => r
  | Raise e => Crashed e
  end.

(** The [try] block of [get_user_photo]. *)
Definition get_user_photo_body (t : table) (user_id : Z)
  : outcome (reply string) :=
  user <- fetch_by_id "SELECT profile_pic FROM users WHERE id = %s"
            user_id t ;;
  match user with
  | None => Ret (Error "No photo available")
  | Some u =>
      match profile_pic u with
      | Some url =>
          if str_truthy url then Ret (Ok url)
          else Ret (Error "No photo available")
      | None => Ret (Error "No photo available")
      end
  end.

Definition get_user_photo (t : table) (user_id : Z) : reply string :=
  match get_user_photo_body t user_id with
  | Ret r => r
  | Raise e => Crashed e
  end.

End Accounts.

(** ** A body that names the status only *)

Module Bodies.

Definition status_only (s : string) : Update.UpdateData :=
  {| Update.data_full_name := None; Update.data_email := None;
     Update.data_phone := None; Update.data_location := None;
     Update.data_status := Some s; Update.data_password := None |}.

(** No text of the body that reaches the driver holds U+0000 (the
    password reaches it hashed). *)
Definition nul_free (data : Update.UpdateData) : bool :=
  let ok (v : option string) :=
    match v with
    | Some s => negb (Driver.has_nul s)
    | None => true
    end in
  ok (Update.data_full_name data) && ok (Update.data_email data)
  && ok (Update.data_phone data) && ok (Update.data_location data)
  && ok (Update.data_status data).

(** A row whose status is one of the two the panel offers. *)
Definition status_in_enum (u : UserRecord) : Prop :=
  status u = "active" \/ status u = "blocked".

(** The rows of the user get the status and the time of the request. *)
Definition with_status (now user_id : Z) (s : string) (t : table) : table :=
  map (fun u => if id u =? user_id
                then Engine.set_updated_at now (Engine.set_status s u)
                else u) t.

End Bodies.

(** ** get_users_stats *)

Module Statistics.

Record StatsRecord : Type := {
  total_users : Z;
  auto_users : Z;
  today_users : Z;
  week_users : Z;
  active_users : Z;
  blocked_users : Z
}.

Definition today_sql : string :=
  nl ++ "SELECT COUNT(*) as today_users " ++ nl
     ++ "FROM users " ++ nl
     ++ "WHERE DATE(created_at) = %s" ++ nl.

Definition week_sql : string :=
  nl ++ "SELECT COUNT(*) as week_users " ++ nl
     ++ "FROM users " ++ nl
     ++ "WHERE DATE(created_at) >= %s" ++ nl.

(** [cur.execute(query, (date,))]: the driver checks the placeholders
    against the one parameter. *)
Definition with_date_bound (q : string) : outcome unit :=
  n <- Driver.placeholders q ;;
  if (n =? 1)%nat then Ret tt else Raise ProgrammingError.

(** [COUNT] over the rows that pass a test. *)
Definition count (p : UserRecord -> bool) (t : table) : Z :=
  Z.of_nat (List.length (filter p t)).

(** [n or 0] *)
Definition or_zero (n : Z) : Z := if n =? 0 then 0 else n.

(** The [try] block; [now] is the clock that both [datetime.now()] and
    the engine read. *)
Definition get_users_stats_body `{Sql.Locale} (t : table) (now : Z)
  : outcome StatsRecord :=
  let total := Z.of_nat (List.length t) in
  auto <- Stats.auto_users t ;;
  let today := current_date now in
  _ <- with_date_bound today_sql ;;
  let today_n := count (fun u => created_at u / usecs_per_day =? today) t in
  let week_ago := today - 7 in
  _ <- with_date_bound week_sql ;;
  let week_n := count (fun u => week_ago <=? created_at u / usecs_per_day) t in
  let active := or_zero (count (fun u => String.eqb (status u) "active") t) in
  let blocked := or_zero (count (fun u => String.eqb (status u) "blocked") t) in
  Ret {| total_users := total; auto_users := auto; today_users := today_n;
         week_users := week_n; active_users := active;
         blocked_users := blocked |}.

Definition get_users_stats `{Sql.Locale} (t : table) (now : Z)
  : Accounts.reply StatsRecord :=
  match get_users_stats_body t now with
  | Ret s => Accounts.Ok s
  | Raise e => Accounts.Crashed e
  end.

(** The listing asked with the default arguments of the request but for
    the status and date filters. *)
Definition listing (status date : string) : FilterCriteria :=
  {| page := 1; per_page := 10; search := EmptyString;
     location_filter := "all"; status_filter := status;
     date_filter := date |}.

(** The total of a response, when it has one. *)
Definition reported_total (r : response) : option Z :=
  match r with
  | Success _ pg => Some (total pg)
  | Failure _ => None
  end.

End Statistics.

(** ** The session of the administrator *)

Module Session.

(** The keys the program keeps in the session: the two of the login, each
    present or not, and the messages queued by [flash] (message and
    category). *)
Record session : Type := {
  admin_logged_in : option bool;
  admin_username : option string;
  flashes : list (string * string)
}.

Record credentials : Type := {
  username : string;
  password : string
}.

(** [ADMIN_CREDENTIALS] when the environment sets neither variable. *)
Definition default_credentials : credentials :=
  {| username := "admin"; password := "admin123" |}.

Inductive page : Type :=
| Redirect (endpoint : string)
| Render (template : string).

Definition flash (message category : string) (s : session) : session :=
  {| admin_logged_in := admin_logged_in s;
     admin_username := admin_username s;
     flashes := (flashes s ++ [(message, category)])%list |}.

(** [session.clear()] *)
Definition cleared : session :=
  {| admin_logged_in := None; admin_username := None; flashes := [] |}.

(** [value == text] for a form value, [None] when the field is missing. *)
Definition equals (v : option string) (text : string) : bool :=
  match v with
  | Some s => String.eqb s text
  | None => false
  end.

(** ['admin_logged_in' in session] *)
Definition logged_in (s : session) : bool :=
  match admin_logged_in s with
  | Some _ => true
  | None => false
  end.

(** [admin_login]; [post] tells a POST from a GET, the two options are
    [request.form.get(...)]. *)
Definition admin_login (creds : credentials) (post : bool)
  (form_username form_password : option string) (s : session)
  : page * session :=
  if post then
    if equals form_username (username creds)
       && equals form_password (password creds)
    then
      (Redirect "admin_dashboard",
       flash "Login successful!" "success"
         {| admin_logged_in := Some true;
            admin_username := form_username;
            flashes := flashes s |})
    else
      (Render "login.html", flash "Invalid username or password" "error" s)
  else (Render "login.html", s).

(** [admin_logout] *)
Definition admin_logout (s : session) : page * session :=
  (Redirect "admin_login", flash "Logged out successfully" "success" cleared).

Inductive guarded (A : Type) : Type :=
| Denied                (* redirect to [admin_login] *)
| Served (a : A).       (* the answer of the endpoint *)
Arguments Denied {A}.
Arguments Served {A} a.

(** [admin_login_required]: [f] is what the endpoint answers. *)
Definition admin_login_required {A : Type} (f : A) (s : session)
  : guarded A * session :=
  if logged_in s then (Served f, s)
  else (Denied, flash "Please login to access admin panel" "error" s).

End Session.

(** ** get_db_connection *)

Module Connection.

Section Connect.

Variable connection : Type.

(** [psycopg.connect(database_url, row_factory=dict_row)] *)
Variable connect : string -> outcome connection.

(** [env] is [os.environ.get('DATABASE_URL')]. *)
Definition get_db_connection (env : option string) : outcome connection :=
  match env with
  | None => Raise ValueError
  | Some database_url =>
      if negb (str_truthy database_url) then Raise ValueError
      else
        let database_url :=
          if is_prefix "postgres://" database_url
          then Str.replace_first "postgres://" "postgresql://" database_url
          else database_url in
        connect database_url
  end.

End Connect.

End Connection.

(** ** The location table of the report *)

Module Report.

Section LocationTable.

(** [str] of a float, and whether the float is zero. *)
Variable str_float : pyfloat -> string.
Variable float_is_zero : pyfloat -> bool.

(** [str(v)] *)
Definition str (v : value) : string :=
  match v with
  | VNone => "None"
  | VBool true => "True"
  | VBool false => "False"
  | VStr s => s
  | VFloat f => str_float f
  end.

(** Truth value. *)
Definition truthy (v : value) : bool :=
  match v with
  | VNone => false
  | VBool b => b
  | VStr s => str_truthy s
  | VFloat f => negb (float_is_zero f)
  end.

(** [location_data] as [generate_user_pdf] builds it from
    [user_data['parsed_location']]. *)
Definition location_data (location : dict) : outcome (list (string * value)) :=
  address <- Listing.subscript location "address" ;;
  auto <- Listing.subscript location "is_auto_detected" ;;
  let rows :=
    [ ("Address", address);
      ("Location Type",
       VStr (if truthy auto then "Auto-detected" else "Manual Entry")) ] in
  auto' <- Listing.subscript location "is_auto_detected" ;;
  if truthy auto' then
    latitude <- Listing.subscript location "latitude" ;;
    longitude <- Listing.subscript location "longitude" ;;
    map_link <- Listing.subscript location "map_link" ;;
    Ret (rows ++ [ ("Latitude", VStr (str latitude));
                   ("Longitude", VStr (str longitude));
                   ("Google Maps Link",
                    if truthy map_link then map_link
                    else VStr "Not available") ])%list
  else Ret rows.

End LocationTable.

End Report.

(** ** More sample data *)

Module Gallery.

(** A row with a profile picture. *)
Definition dee : UserRecord :=
  {| id := 4; full_name := "Dee Dee Lane"; phone := "555-0104";
     email := "dee@example.org"; location := "5 High St"; status := "blocked";
     created_at := 7; updated_at := None; password := "pbkdf2:x";
     profile_pic := Some "https://res.Cloudinary.com/demo/dee.jpg" |}.

Definition users : table := (Sample.users ++ [dee])%list.

(** A body that sends the email and phone of [dee] again, with a new name
    and location. *)
Definition resubmission : Update.UpdateData :=
  {| Update.data_full_name := Some "Dee Lane";
     Update.data_email := Some "dee@example.org";
     Update.data_phone := Some "555-0104";
     Update.data_location := Some "5 High St | 51.5 | -0.12 | http://maps/d";
     Update.data_status := None;
     Update.data_password := None |}.

Definition hash (p : string) : string := "hashed:" ++ p.

End Gallery.
(** * Properties *)

Import LocationCodec Listing.

(** ** The location codec *)

Lemma split_from_without_separator (sep s : string) :
  contains sep s = false -> split_from sep 0 s = [s].
Proof.
  induction s as [|c s IH]; intro Hc.
  - reflexivity.
  - cbn [contains] in Hc. apply orb_false_iff in Hc as [Hp Hs].
    cbn [split_from]. rewrite Hp, (IH Hs). reflexivity.
Qed.

Lemma split_from_nonempty (sep : string) (k : nat) (s : string) :
  split_from sep k s <> [].
Proof.
  revert k; induction s as [|c s IH]; intros k; cbn [split_from].
  - discriminate.
  - destruct k as [|k]; [|apply IH].
    destruct (is_prefix sep (String c s)); [discriminate|].
    destruct (split_from sep 0 s); discriminate.
Qed.

Lemma coordinate_spec (parts : list string) (i : nat) (seg : string) :
  nth_error parts i = Some seg ->
  coordinate parts i =
    (if str_truthy seg then (f <- float seg ;; Ret (VFloat f))%outcome else Ret VNone).
Proof.
  intro H. unfold coordinate, getitem. rewrite H. cbn [bind].
  destruct (str_truthy seg); reflexivity.
Qed.

Lemma float_raises_ValueError (s : string) (e : exn) :
  float s = Raise e -> e = ValueError.
Proof.
  unfold float.
  destruct (rstrip (lstrip s)); [congruence|].
  destruct (strip_underscores None _); [|congruence].
  destruct (parse_inf_or_nan _); [discriminate|].
  destruct (parse_decimal _); [discriminate|congruence].
Qed.

(** [float] either returns or raises ValueError. *)
Lemma float_cases (s : string) :
  (exists f, float s = Ret f) \/ float s = Raise ValueError.
Proof.
  destruct (float s) as [f|e] eqn:E; [left; eauto|right].
  now rewrite (float_raises_ValueError _ _ E).
Qed.

(** The outcome of the structured branch, by cases on the segments. *)
Lemma structured_spec (raw : string) :
  structured raw =
    if (4 <=? List.length (segments raw))%nat then
      if coordinate_ok (segment raw 1) && coordinate_ok (segment raw 2) then
        Ret (Some [ ("address", VStr (segment raw 0));
                    ("latitude", coordinate_value (segment raw 1));
                    ("longitude", coordinate_value (segment raw 2));
                    ("map_link", VStr (segment raw 3));
                    ("is_auto_detected", VBool true);
                    ("full_string", VStr raw) ])
      else Ret None
    else Ret None.
Proof.
  unfold structured, segment, segments.
  destruct (contains " | " raw) eqn:Hc.
  - cbn [split bind].
    destruct (split_from " | " 0 raw) as [|p0 [|p1 [|p2 [|p3 rest]]]]; try reflexivity.
    cbn [List.length Nat.leb nth].
    unfold auto_location.
    rewrite (coordinate_spec _ 1 p1), (coordinate_spec _ 2 p2) by reflexivity.
    unfold getitem; cbn [nth_error bind].
    unfold coordinate_ok, coordinate_value, float_parses.
    destruct (str_truthy p1), (str_truthy p2);
      cbn [negb orb andb bind try_except];
      repeat (match goal with
              | |- context [float ?s] =>
                  destruct (float_cases s) as [[? ->] | ->]
              end; cbn [negb orb andb bind try_except is_ValueError]);
      reflexivity.
  - rewrite (split_from_without_separator _ _ Hc). reflexivity.
Qed.

Lemma parse_location_data_spec (raw : string) :
  parse_location_data (Some raw) =
    match raw with
    | EmptyString => Ret empty_location
    | _ =>
        if (4 <=? List.length (segments raw))%nat
           && coordinate_ok (segment raw 1) && coordinate_ok (segment raw 2)
        then Ret [ ("address", VStr (segment raw 0));
                   ("latitude", coordinate_value (segment raw 1));
                   ("longitude", coordinate_value (segment raw 2));
                   ("map_link", VStr (segment raw 3));
                   ("is_auto_detected", VBool true);
                   ("full_string", VStr raw) ]
        else Ret (plain_location raw)
    end.
Proof.
  destruct raw as [|c s]; [reflexivity|].
  unfold parse_location_data. cbn [str_truthy negb].
  rewrite structured_spec.
  destruct (4 <=? _)%nat; [|reflexivity].
  cbn [andb]. destruct (_ && _); reflexivity.
Qed.

(** C1 (as amended): a location is auto-detected exactly when it has at least
    four segments and each coordinate segment is empty or read by [float];
    then the first four segments fill the record (an empty coordinate gives
    a null), otherwise the whole string is the address and the other
    fields are null. *)
Theorem auto_detected_iff_segments (raw : string) :
  let r := parse_location_data (Some raw) in
  (is_auto_detected r = true <->
     (4 <= List.length (segments raw))%nat
     /\ coordinate_ok (segment raw 1) = true
     /\ coordinate_ok (segment raw 2) = true)
  /\ (is_auto_detected r = true ->
        r = Ret [ ("address", VStr (segment raw 0));
                  ("latitude", coordinate_value (segment raw 1));
                  ("longitude", coordinate_value (segment raw 2));
                  ("map_link", VStr (segment raw 3));
                  ("is_auto_detected", VBool true);
                  ("full_string", VStr raw) ])
  /\ (is_auto_detected r = false ->
        field "address" r = Some (VStr raw)
        /\ field "latitude" r = Some VNone
        /\ field "longitude" r = Some VNone
        /\ field "map_link" r = Some VNone
        /\ field "is_auto_detected" r = Some (VBool false)).
Proof.
  cbv zeta. rewrite parse_location_data_spec.
  destruct raw as [|c s].
  - repeat split; try discriminate; try reflexivity.
    intros (H & _). cbn in H. lia.
  - destruct (4 <=? _)%nat eqn:E4; cbn [andb].
    + apply Nat.leb_le in E4.
      destruct (coordinate_ok (segment _ 1)); cbn [andb];
        [destruct (coordinate_ok (segment _ 2))|];
        repeat split; try discriminate; try reflexivity; try assumption;
        try (intros (_ & ? & ?); discriminate).
    + apply Nat.leb_gt in E4.
      repeat split; try discriminate; try reflexivity.
      intros (? & _). lia.
Qed.

(** C1 (as stated) fails: with two empty coordinate segments the record is
    auto-detected although [float] rejects the empty string. *)
Lemma empty_coordinates_are_auto_detected :
  ~ auto_iff_both_parse "12 Main St |  |  | http://maps/x".
Proof.
  unfold auto_iff_both_parse. intros [H _].
  assert (E : is_auto_detected
                (parse_location_data (Some "12 Main St |  |  | http://maps/x"))
              = true) by (vm_compute; reflexivity).
  destruct (H E) as (_ & Hf & _). vm_compute in Hf. discriminate.
Qed.

Lemma auto_detected_iff_segments_sample :
  parse_location_data (Some "12 Main St | 40.7128 | -74.0060 | http://maps/x")
  = Ret [ ("address", VStr "12 Main St");
          ("latitude", VFloat (FDec false 407128 (-4)));
          ("longitude", VFloat (FDec true 740060 (-4)));
          ("map_link", VStr "http://maps/x");
          ("is_auto_detected", VBool true);
          ("full_string",
           VStr "12 Main St | 40.7128 | -74.0060 | http://maps/x") ].
Proof.
  exact (proj1 (proj2 (auto_detected_iff_segments
                         "12 Main St | 40.7128 | -74.0060 | http://maps/x"))
           eq_refl).
Defined.

(** C8: [parse_location_data] returns a record for every input, the absent
    and the empty one included; no exception escapes it.  A record that is
    not auto-detected is the empty record or the plain-address record of
    the input.  (The function reads and writes no state: it is a function of
    its argument alone.) *)
Theorem parse_location_data_total (location_string : option string) :
  exists d,
    parse_location_data location_string = Ret d
    /\ (is_auto_detected (Ret d) = true
        \/ d = empty_location
        \/ exists s, location_string = Some s /\ d = plain_location s).
Proof.
  destruct location_string as [raw|].
  - rewrite parse_location_data_spec. destruct raw as [|c s].
    + eexists; split; [reflexivity|]. right; left; reflexivity.
    + destruct (_ && _).
      * eexists; split; [reflexivity|]. left; reflexivity.
      * eexists; split; [reflexivity|]. right; right; eauto.
  - eexists; split; [reflexivity|]. right; left; reflexivity.
Qed.

(** C10: the record for an absent or empty location has no [full_string]
    key; the record for a non-empty location has one, and it holds the
    input. *)
Theorem full_string_only_for_nonempty :
  (exists d, parse_location_data None = Ret d /\ has_key d "full_string" = false)
  /\ (exists d, parse_location_data (Some EmptyString) = Ret d
                /\ has_key d "full_string" = false)
  /\ (forall (c : ascii) (s : string),
        field "full_string" (parse_location_data (Some (String c s)))
        = Some (VStr (String c s))).
Proof.
  split; [|split].
  - eexists; split; reflexivity.
  - eexists; split; reflexivity.
  - intros c s. rewrite parse_location_data_spec.
    destruct (_ && _); reflexivity.
Qed.

(** ** Page count *)

Lemma ceiling_quotient (a b : Z) :
  0 < b -> Qceiling (inject_Z a / inject_Z b) = (a + b - 1) / b.
Proof.
  intro Hb.
  assert (E : (inject_Z a / inject_Z b == a # Z.to_pos b)%Q).
  { unfold Qeq, Qdiv, Qmult, Qinv, inject_Z; cbn.
    destruct b as [|p|p]; try lia. cbn. lia. }
  rewrite E. unfold Qceiling, Qfloor, Qopp; cbn [Qnum Qden].
  rewrite Z2Pos.id by exact Hb.
  (* - ((-a) / b) = (a + b - 1) / b *)
  apply Z.div_unique with (r := (a + b - 1) - b * - (- a / b)).
  2: lia.
  left.
  pose proof (Z.div_mod (- a) b ltac:(lia)) as Hd.
  pose proof (Z.mod_pos_bound (- a) b Hb) as Hm.
  lia.
Qed.

Lemma page_count_value (total per_page : Z) :
  0 < per_page -> page_count total per_page = Ret ((total + per_page - 1) / per_page).
Proof.
  intro H. unfold page_count, floordiv.
  destruct (per_page =? 0) eqn:E; [lia|reflexivity].
Qed.

(** ** The statements of [get_users] *)

Lemma lower_app (a b : string) : lower (a ++ b) = lower a ++ lower b.
Proof. induction a as [|c a IH]; cbn; [reflexivity|now rewrite IH]. Qed.

Lemma like_tokens_percent_end (p : string) :
  (exists l, Sql.like_tokens (p ++ "%") = Some l)
  /\ (forall c, exists l, Sql.like_tokens (String c p ++ "%") = Some l).
Proof.
  induction p as [|d p [IH1 IH2]].
  - split; [eexists; reflexivity|].
    intro c. cbn.
    destruct (Ascii.eqb c "\"); [eexists; reflexivity|].
    destruct (Ascii.eqb c "%"); [eexists; reflexivity|].
    destruct (Ascii.eqb c "_"); eexists; reflexivity.
  - split; [apply IH2|].
    intro c. destruct IH1 as [l1 H1]. destruct (IH2 d) as [l2 H2].
    cbn [append] in *. cbn [Sql.like_tokens].
    destruct (Ascii.eqb c "\").
    + rewrite H1. eexists; reflexivity.
    + cbn [Sql.like_tokens] in H2. rewrite H2.
      destruct (Ascii.eqb c "%"); [eexists; reflexivity|].
      destruct (Ascii.eqb c "_"); eexists; reflexivity.
Qed.

Section Folding.

Context `{Sql.Locale}.

Lemma fold_text_app (a b : string) :
  Sql.fold_text (a ++ b) = Sql.fold_text a ++ Sql.fold_text b.
Proof. induction a as [|c a IH]; cbn; [reflexivity|now rewrite IH]. Qed.

Lemma fold_case_percent : Sql.fold_case "%" = "%"%char.
Proof. now apply Sql.fold_meta. Qed.

Lemma fold_text_lower (s : string) : Sql.fold_text (lower s) = Sql.fold_text s.
Proof.
  induction s as [|c s IH]; [reflexivity|].
  cbn [lower Sql.fold_text]. now rewrite Sql.fold_ascii, IH.
Qed.

(** The pattern of the search, in the lower case of the locale. *)
Lemma fold_search_term (s : string) :
  Sql.fold_text (search_term s) = String "%" (Sql.fold_text s ++ "%").
Proof.
  unfold search_term.
  change ("%" ++ s ++ "%") with (String "%" (s ++ "%")).
  cbn [Sql.fold_text]. rewrite fold_text_app. cbn [Sql.fold_text].
  now rewrite fold_case_percent.
Qed.

(** The search pattern is always well formed. *)
Lemma ilike_search_term_returns (t s : string) :
  exists b, Sql.ilike t (search_term s) = Ret b.
Proof.
  unfold Sql.ilike, Sql.like. rewrite fold_search_term.
  destruct (proj2 (like_tokens_percent_end (Sql.fold_text s)) "%"%char)
    as [l Hl].
  cbn [append] in Hl. rewrite Hl.
  eexists; reflexivity.
Qed.

End Folding.

Lemma like_shape_pattern (t : string) :
  Sql.like t shape_pattern = Ret (Sql.like_match shape_tokens t).
Proof. reflexivity. Qed.

(** Case analysis on the filters that [build] inspects. *)
Ltac filter_cases :=
  unfold build, add_date, add_status, add_location, add_search,
    append_condition;
  repeat (match goal with
          | |- context [str_truthy (search ?c)] =>
              destruct (str_truthy (search c))
          | |- context [String.eqb (?f ?c) ?k] =>
              destruct (String.eqb (f c) k)
          end; cbn [negb fst snd app orb]).

Ltac run_conditions :=
  cbn [Engine.where_holds Engine.arity firstn skipn Engine.holds bind];
  repeat (match goal with
          | |- context [Sql.ilike ?t (search_term ?s)] =>
              destruct (ilike_search_term_returns t s) as [? ->]
          | |- context [Sql.like ?t shape_pattern] =>
              rewrite (like_shape_pattern t)
          end; cbn [bind]).

Section Conditions.

Context `{Sql.Locale}.

Lemma where_holds_returns (now : Z) (c : FilterCriteria) (u : UserRecord) :
  exists b,
    Engine.where_holds now (fst (build c)) (snd (build c)) u = Ret b.
Proof.
  filter_cases; run_conditions; eexists; reflexivity.
Qed.

(** The driver accepts both statements when no location filter is set. *)
Lemma driver_accepts (c : FilterCriteria) (limit offset : param) :
  filters_location c = false ->
  Driver.convert (sql (SelectCount (fst (build c)))) (snd (build c)) = Ret tt
  /\ Driver.convert (sql (SelectPage (fst (build c))))
       (snd (build c) ++ [limit; offset]) = Ret tt.
Proof.
  unfold filters_location.
  filter_cases; intro Hf; try discriminate Hf; split; reflexivity.
Qed.

(** The driver rejects the count statement when a location filter is set:
    the pattern of the LIKE test holds a percent sign followed by a space. *)
Lemma driver_rejects (c : FilterCriteria) :
  filters_location c = true ->
  Driver.convert (sql (SelectCount (fst (build c)))) (snd (build c))
  = Raise ProgrammingError.
Proof.
  unfold filters_location.
  filter_cases; intro Hf; try discriminate Hf; reflexivity.
Qed.

Lemma select_where_filter (now : Z) (c : FilterCriteria) (t : table) :
  Engine.select_where now (fst (build c)) (snd (build c)) t
  = Ret (filter (satisfies now c) t).
Proof.
  induction t as [|u t IH]; [reflexivity|].
  cbn [Engine.select_where filter]. unfold satisfies at 1.
  destruct (where_holds_returns now c u) as [b ->].
  rewrite IH. reflexivity.
Qed.

Lemma matching_filter (t : table) (now : Z) (c : FilterCriteria) :
  matching t now c = Ret (filter (satisfies now c) t).
Proof. apply select_where_filter. Qed.

End Conditions.

(** ** What the dumper refuses *)

Lemma has_nul_app (a b : string) :
  Driver.has_nul (a ++ b) = Driver.has_nul a || Driver.has_nul b.
Proof.
  induction a as [|c a IH]; [reflexivity|].
  cbn [append Driver.has_nul]. now rewrite IH, orb_assoc.
Qed.

Lemma has_nul_search_term (s : string) :
  Driver.has_nul (search_term s) = Driver.has_nul s.
Proof.
  unfold search_term. rewrite !has_nul_app.
  change (Driver.has_nul "%") with false. now rewrite orb_false_r.
Qed.

(** The parameters of the criteria are dumped when neither the search text
    nor the status holds U+0000. *)
Lemma dump_build (c : FilterCriteria) :
  Driver.dump (snd (build c))
  = if Filters.texts_ok c then Ret tt else Raise DataError.
Proof.
  unfold build, add_date, add_status, add_location, add_search,
    append_condition, Filters.texts_ok.
  assert (Hs : Driver.has_nul (search c) = true -> str_truthy (search c) = true)
    by (destruct (search c); [discriminate|reflexivity]).
  destruct (str_truthy (search c));
    destruct (String.eqb (location_filter c) "auto");
    destruct (String.eqb (location_filter c) "manual");
    destruct (String.eqb (status_filter c) "all");
    destruct (String.eqb (date_filter c) "today");
    destruct (String.eqb (date_filter c) "week");
    destruct (String.eqb (date_filter c) "month");
    destruct (String.eqb (date_filter c) "all");
    cbn [negb fst snd app orb andb]; unfold Driver.dump;
    cbn [existsb]; rewrite ?has_nul_search_term;
    destruct (Driver.has_nul (search c));
    try discriminate (Hs eq_refl);
    destruct (Driver.has_nul (status_filter c)); reflexivity.
Qed.

Lemma dump_page (params : list param) (limit offset : Z) :
  Driver.dump (params ++ [PInt limit; PInt offset]) = Driver.dump params.
Proof.
  unfold Driver.dump. rewrite existsb_app. cbn [existsb].
  now rewrite !orb_false_r.
Qed.

Lemma has_nul_lower (s : string) : Driver.has_nul (lower s) = Driver.has_nul s.
Proof.
  induction s as [|c s IH]; [reflexivity|].
  cbn [lower Driver.has_nul]. rewrite IH. f_equal.
  destruct c as [[] [] [] [] [] [] [] []]; reflexivity.
Qed.


Lemma enrich_listed (u : UserRecord) : enrich u = Ret (listed u).
Proof.
  unfold enrich, listed. rewrite parse_location_data_spec.
  destruct (location u) as [|a s]; [reflexivity|].
  destruct (_ && _); reflexivity.
Qed.

Lemma enrich_all_map (l : list UserRecord) : enrich_all l = Ret (map listed l).
Proof.
  induction l as [|u l IH]; [reflexivity|].
  cbn [enrich_all map]. rewrite enrich_listed, IH. reflexivity.
Qed.

Lemma skipn_last_two {A : Type} (l : list A) (a b : A) :
  skipn (List.length (l ++ [a; b]) - 2) (l ++ [a; b]) = [a; b]
  /\ firstn (List.length (l ++ [a; b]) - 2) (l ++ [a; b]) = l.
Proof.
  rewrite length_app. cbn [List.length].
  replace (List.length l + 2 - 2)%nat with (List.length l + 0)%nat by lia.
  split.
  - rewrite skipn_app, Nat.add_0_r, skipn_all.
    replace (List.length l - List.length l)%nat with 0%nat by lia. reflexivity.
  - rewrite firstn_app_2. cbn. apply app_nil_r.
Qed.

(** ** Lists *)

Lemma sum_page_sizes (n size k : nat) :
  list_sum (map (fun p => Nat.min size (n - (p - 1) * size)) (seq 1 k))
  = Nat.min n (k * size).
Proof.
  induction k as [|k IH]; [cbn; lia|].
  rewrite seq_S, map_app, list_sum_app, IH. cbn [map list_sum].
  replace (1 + k - 1)%nat with k by lia.
  rewrite Nat.mul_succ_l. unfold list_sum; cbn [fold_right]. lia.
Qed.

Lemma length_slice {A : Type} (size : nat) (l : list A) (p : nat) :
  List.length (slice size l p) = Nat.min size (List.length l - (p - 1) * size).
Proof. unfold slice. now rewrite length_firstn, length_skipn. Qed.

Lemma concat_slices {A : Type} (size k : nat) (l : list A) :
  (0 < size)%nat -> (List.length l <= k * size)%nat ->
  List.concat (map (slice size l) (seq 1 k)) = l.
Proof.
  intros Hs. revert l. induction k as [|k IH]; intros l Hl.
  - destruct l; [reflexivity|cbn in Hl; lia].
  - cbn [seq map List.concat]. rewrite <- seq_shift, map_map.
    transitivity (firstn size l ++ skipn size l)%list; [|apply firstn_skipn].
    change (slice size l 1) with (firstn size l). f_equal.
    rewrite <- (IH (skipn size l)).
    + f_equal. apply map_ext_in. intros p Hp. apply in_seq in Hp.
      unfold slice. rewrite skipn_skipn. do 2 f_equal.
      replace (S p - 1)%nat with (S (p - 1)) by lia.
      rewrite Nat.mul_succ_l. lia.
    + rewrite length_skipn. rewrite Nat.mul_succ_l in Hl. lia.
Qed.

(** *** Sorted lists *)

Lemma StronglySorted_skipn {A : Type} (R : A -> A -> Prop) (n : nat) (l : list A) :
  StronglySorted R l -> StronglySorted R (skipn n l).
Proof.
  revert l; induction n as [|n IH]; intros l Hl; [exact Hl|].
  destruct l as [|a l]; [constructor|].
  apply IH. now apply StronglySorted_inv in Hl.
Qed.

Lemma StronglySorted_firstn {A : Type} (R : A -> A -> Prop) (n : nat) (l : list A) :
  StronglySorted R l -> StronglySorted R (firstn n l).
Proof.
  revert l; induction n as [|n IH]; intros l Hl; [constructor|].
  destruct l as [|a l]; [constructor|].
  apply StronglySorted_inv in Hl as [Hs Hf]. cbn [firstn].
  constructor; [now apply IH|].
  rewrite Forall_forall in *. intros x Hx. apply Hf.
  rewrite <- (firstn_skipn n l). apply in_or_app. now left.
Qed.

Lemma StronglySorted_map {A B : Type} (R : B -> B -> Prop) (f : A -> B) (l : list A) :
  StronglySorted (fun a b => R (f a) (f b)) l -> StronglySorted R (map f l).
Proof.
  induction 1 as [|a l Hs IH Hf]; cbn [map]; constructor; [exact IH|].
  rewrite Forall_forall in *. intros y Hy.
  apply in_map_iff in Hy as (x & <- & Hx). now apply Hf.
Qed.

(** Two orderings of the same rows agree when no two rows share a
    [created_at]. *)
Lemma newest_first_unique (l1 l2 : list UserRecord) :
  StronglySorted Engine.newest_first l1 ->
  StronglySorted Engine.newest_first l2 ->
  Permutation l1 l2 ->
  NoDup (map created_at l1) ->
  l1 = l2.
Proof.
  intros H1; revert l2. induction H1 as [|a l1 Hs1 IH Hf1]; intros l2 H2 Hp Hn.
  - apply Permutation_nil in Hp. now subst.
  - destruct l2 as [|b l2].
    { apply Permutation_sym, Permutation_nil in Hp. discriminate. }
    apply StronglySorted_inv in H2 as [Hs2 Hf2].
    cbn [map] in Hn. apply NoDup_cons_iff in Hn as [Hna Hn].
    assert (Hab : a = b).
    { assert (Ha : In a (b :: l2)) by (eapply Permutation_in; [exact Hp|now left]).
      assert (Hb : In b (a :: l1))
        by (eapply Permutation_in; [apply Permutation_sym, Hp|now left]).
      destruct Ha as [Ha|Ha]; [now symmetry|].
      destruct Hb as [Hb|Hb]; [exact Hb|].
      exfalso. apply Hna.
      rewrite Forall_forall in Hf1, Hf2.
      pose proof (Hf1 _ Hb) as Hle1. pose proof (Hf2 _ Ha) as Hle2.
      unfold Engine.newest_first in *.
      replace (created_at a) with (created_at b) by lia.
      now apply in_map. }
    subst b. f_equal. apply IH; try assumption.
    now apply Permutation_cons_inv in Hp.
Qed.

Lemma NoDup_map_filter {A B : Type} (f : A -> B) (p : A -> bool) (l : list A) :
  NoDup (map f l) -> NoDup (map f (filter p l)).
Proof.
  induction l as [|a l IH]; cbn [map filter]; intro Hn; [constructor|].
  apply NoDup_cons_iff in Hn as [Ha Hn].
  destruct (p a); cbn [map]; [|now apply IH].
  constructor; [|now apply IH].
  intro Hin. apply Ha. apply in_map_iff in Hin as (x & <- & Hx).
  apply filter_In in Hx as [Hx _]. now apply in_map.
Qed.

(** ** The listing *)

Lemma build_at_page (c : FilterCriteria) (p : Z) : build (at_page c p) = build c.
Proof. reflexivity. Qed.

Lemma satisfies_at_page `{Sql.Locale} (now : Z) (c : FilterCriteria) (p : Z)
  (u : UserRecord) :
  satisfies now (at_page c p) u = satisfies now c u.
Proof. reflexivity. Qed.

(** The requests that are served, in numbers. *)
Lemma serves_spec (c : FilterCriteria) :
  Filters.serves c = true <->
  filters_location c = false /\ Filters.texts_ok c = true
  /\ 0 < page c /\ 0 < per_page c <= Engine.bigint_max
  /\ (page c - 1) * per_page c <= Engine.bigint_max.
Proof.
  unfold Filters.serves, Filters.range_ok.
  rewrite !andb_true_iff, !negb_true_iff, !Z.leb_le, Z.eqb_neq. split.
  - intros (((Hf & Ht) & ((Hp0 & Hpm) & Ho0) & Hom) & Hne).
    repeat split; try assumption; nia.
  - intros (Hf & Ht & Hp & (Hpp & Hpm) & Hom).
    repeat split; try assumption; try lia.
    apply Z.mul_nonneg_nonneg; lia.
Qed.

Section Pages.

Context `{Sql.Locale} `{Engine.Ordering}.

(** The response when no location filter is set. *)
Lemma get_users_unfold (t : table) (now : Z) (c : FilterCriteria) :
  filters_location c = false ->
  get_users t now c =
    if negb (Filters.texts_ok c) || negb (Filters.range_ok c)
    then Failure DataError
    else if per_page c =? 0 then Failure ZeroDivisionError
    else Success (map listed (page_rows t now c))
           {| pagination_page := page c;
              pagination_per_page := per_page c;
              total := Z.of_nat (List.length (filter (satisfies now c) t));
              total_pages :=
                (Z.of_nat (List.length (filter (satisfies now c) t))
                 + per_page c - 1) / per_page c |}.
Proof.
  intros Hf.
  unfold get_users, get_users_body, Engine.fetch_total, Engine.fetch_page.
  destruct (driver_accepts c (PInt (per_page c))
              (PInt ((page c - 1) * per_page c)) Hf) as [Hc Hq].
  pose proof (select_where_filter now c t) as Hs.
  pose proof (dump_build c) as Hd.
  destruct (build c) as [conds params]. cbn [fst snd] in *.
  rewrite Hc, Hq. cbn [bind]. rewrite dump_page, Hd.
  destruct (Filters.texts_ok c); cbn [negb orb bind]; [|reflexivity].
  rewrite Hs. cbn [bind].
  destruct (skipn_last_two params (PInt (per_page c))
              (PInt ((page c - 1) * per_page c))) as [-> ->].
  unfold Filters.range_ok.
  destruct (per_page c <? 0) eqn:E1.
  { replace (0 <=? per_page c) with false by lia. reflexivity. }
  replace (0 <=? per_page c) with true by lia.
  destruct ((page c - 1) * per_page c <? 0) eqn:E2.
  { replace (0 <=? (page c - 1) * per_page c) with false by lia.
    cbn [orb andb negb]. now rewrite andb_false_r. }
  replace (0 <=? (page c - 1) * per_page c) with true by lia.
  destruct (Engine.bigint_max <? per_page c) eqn:E3.
  { replace (per_page c <=? Engine.bigint_max) with false by lia. reflexivity. }
  replace (per_page c <=? Engine.bigint_max) with true by lia.
  destruct (Engine.bigint_max <? (page c - 1) * per_page c) eqn:E4.
  { replace ((page c - 1) * per_page c <=? Engine.bigint_max) with false by lia.
    reflexivity. }
  replace ((page c - 1) * per_page c <=? Engine.bigint_max) with true by lia.
  cbn [orb andb negb].
  rewrite Hs. cbn [bind]. rewrite enrich_all_map. cbn [bind].
  unfold page_count, floordiv.
  destruct (per_page c =? 0); reflexivity.
Qed.

Lemma get_users_returns (t : table) (now : Z) (c : FilterCriteria) :
  Filters.serves c = true ->
  get_users t now c =
    Success (map listed (page_rows t now c))
      {| pagination_page := page c;
         pagination_per_page := per_page c;
         total := Z.of_nat (List.length (filter (satisfies now c) t));
         total_pages :=
           (Z.of_nat (List.length (filter (satisfies now c) t))
            + per_page c - 1) / per_page c |}.
Proof.
  unfold Filters.serves. rewrite !andb_true_iff, !negb_true_iff.
  intros (((Hf & Ht) & Hr) & Hne).
  rewrite (get_users_unfold _ _ _ Hf), Ht, Hr, Hne. reflexivity.
Qed.

(** With a location filter the count statement is rejected. *)
Lemma get_users_rejected (t : table) (now : Z) (c : FilterCriteria) :
  filters_location c = true -> get_users t now c = Failure ProgrammingError.
Proof.
  intro Hf. unfold get_users, get_users_body, Engine.fetch_total.
  pose proof (driver_rejects c Hf) as Hc.
  destruct (build c) as [conds params]. cbn [fst snd] in *.
  rewrite Hc. reflexivity.
Qed.

(** A response with rows comes from a request that is served. *)
Lemma get_users_success_inv (t : table) (now : Z) (c : FilterCriteria)
  (us : list ListedUser) (pg : Pagination) :
  get_users t now c = Success us pg -> Filters.serves c = true.
Proof.
  intro Hg. unfold Filters.serves. destruct (filters_location c) eqn:Hf.
  - rewrite (get_users_rejected _ _ _ Hf) in Hg. discriminate.
  - rewrite (get_users_unfold _ _ _ Hf) in Hg.
    destruct (Filters.texts_ok c); [|discriminate].
    destruct (Filters.range_ok c); [|discriminate].
    destruct (per_page c =? 0); [discriminate|reflexivity].
Qed.

(** The count query reports a total only when no location filter is set,
    and the total is the number of rows that satisfy the criteria. *)
Lemma fetch_total_returns (t : table) (now : Z) (c : FilterCriteria) :
  filters_location c = false -> Filters.texts_ok c = true ->
  Engine.fetch_total now (fst (build c)) (snd (build c)) t
  = Ret (Z.of_nat (List.length (filter (satisfies now c) t))).
Proof.
  intros Hf Ht. unfold Engine.fetch_total.
  destruct (driver_accepts c (PInt 0) (PInt 0) Hf) as [-> _].
  rewrite dump_build, Ht, select_where_filter. reflexivity.
Qed.

Lemma length_ordered (limit offset : Z) (rows : list UserRecord) :
  List.length (Engine.order_by_created_at_desc limit offset rows)
  = List.length rows.
Proof. apply Permutation_length, Engine.order_permutation. Qed.

(** The rows behind page [p] are a slice of the ordering the engine chose
    for that page. *)
Lemma page_rows_slice (t : table) (now : Z) (c : FilterCriteria) (p : nat) :
  (0 < p)%nat -> 0 < per_page c ->
  page_rows t now (at_page c (Z.of_nat p))
  = slice (Z.to_nat (per_page c))
      (Engine.order_by_created_at_desc (per_page c)
         ((Z.of_nat p - 1) * per_page c) (filter (satisfies now c) t)) p.
Proof.
  intros Hp Hpp. unfold page_rows, slice. cbn [page per_page at_page].
  do 2 f_equal.
  rewrite Z2Nat.inj_mul by lia. f_equal. lia.
Qed.

Lemma pages_cover (n size : Z) :
  0 <= n -> 0 < size ->
  (Z.to_nat n <= Z.to_nat ((n + size - 1) / size) * Z.to_nat size)%nat.
Proof.
  intros Hn Hs.
  pose proof (Z.div_mod (n + size - 1) size ltac:(lia)) as Hd.
  pose proof (Z.mod_pos_bound (n + size - 1) size Hs) as Hm.
  assert (0 <= (n + size - 1) / size) by (apply Z.div_pos; lia).
  rewrite <- Z2Nat.inj_mul by lia. apply Z2Nat.inj_le; nia.
Qed.

End Pages.

(** ** The search test *)

Lemma is_meta_fold `{Sql.Locale} (c : ascii) :
  Sql.is_meta (Sql.fold_case c) = Sql.is_meta c.
Proof.
  destruct (Sql.is_meta c) eqn:E.
  - now rewrite (Sql.fold_meta c E).
  - now apply Sql.fold_plain.
Qed.

Lemma has_meta_fold `{Sql.Locale} (s : string) :
  Sql.has_meta (Sql.fold_text s) = Sql.has_meta s.
Proof.
  induction s as [|c s IH]; [reflexivity|].
  cbn [Sql.fold_text Sql.has_meta]. now rewrite is_meta_fold, IH.
Qed.

Lemma like_tokens_percent (r : string) :
  Sql.like_tokens (String "%" r) = option_map (cons Sql.AnySeq) (Sql.like_tokens r).
Proof. reflexivity. Qed.

(** A pattern without special characters is read letter by letter. *)
Lemma like_tokens_literal (p rest : string) :
  Sql.has_meta p = false ->
  Sql.like_tokens (p ++ rest)
  = option_map (app (Sql.literals p)) (Sql.like_tokens rest).
Proof.
  induction p as [|c p IH]; intro Hm.
  - cbn. now destruct (Sql.like_tokens rest).
  - cbn [Sql.has_meta] in Hm. apply orb_false_iff in Hm as [Hc Hp].
    unfold Sql.is_meta in Hc.
    apply orb_false_iff in Hc as [Hc Hc3]. apply orb_false_iff in Hc as [Hc1 Hc2].
    cbn [append Sql.like_tokens Sql.literals]. rewrite Hc1, Hc2, Hc3, (IH Hp).
    now destruct (Sql.like_tokens rest).
Qed.

Lemma like_match_any (t : string) : Sql.like_match [Sql.AnySeq] t = true.
Proof. induction t as [|c t IH]; [reflexivity|]. cbn in *. exact IH. Qed.

Lemma like_match_literals (p t : string) :
  Sql.like_match (Sql.literals p ++ [Sql.AnySeq]) t = is_prefix p t.
Proof.
  revert t; induction p as [|a p IH]; intro t.
  - cbn [Sql.literals app is_prefix]. apply like_match_any.
  - destruct t as [|b t]; [reflexivity|].
    cbn [Sql.literals app Sql.like_match is_prefix].
    now rewrite IH, Ascii.eqb_sym.
Qed.

Lemma like_match_star (q : list Sql.like_token) (t : string) :
  Sql.like_match (Sql.AnySeq :: q) t
  = Sql.like_match q t
    || match t with
       | EmptyString => false
       | String _ t' => Sql.like_match (Sql.AnySeq :: q) t'
       end.
Proof. destruct t; reflexivity. Qed.

Lemma like_match_contains (p t : string) :
  Sql.like_match (Sql.AnySeq :: Sql.literals p ++ [Sql.AnySeq]) t = contains p t.
Proof.
  induction t as [|c t IH]; rewrite like_match_star, like_match_literals.
  - reflexivity.
  - cbn [contains]. now rewrite IH.
Qed.

Section Search.

Context `{Sql.Locale}.

(** ILIKE with the search pattern of a plain text is the substring test. *)
Lemma ilike_plain_search (t s : string) :
  Sql.has_meta s = false ->
  Sql.ilike t (search_term s) = Ret (Sql.icontains s t).
Proof.
  intro Hm. unfold Sql.ilike, Sql.like, Sql.icontains.
  rewrite fold_search_term, like_tokens_percent.
  rewrite like_tokens_literal by now rewrite has_meta_fold.
  change (Sql.like_tokens "%") with (Some [Sql.AnySeq]).
  cbn [option_map]. now rewrite like_match_contains.
Qed.

(** C4 (as amended): for a non-empty search text without [%], [_] and
    backslash, the search condition is added with the pattern
    [%text%] bound four times, and a row passes it exactly when one of its
    four fields contains the text, letter case aside: both are compared in
    the lower case of the database's locale, whichever it is. *)
Theorem search_matches_plain_substring (c : FilterCriteria) (u : UserRecord) :
  search c <> EmptyString ->
  Sql.has_meta (search c) = false ->
  add_search c ([], []) =
    ([SearchCondition],
     [PText (search_term (search c)); PText (search_term (search c));
      PText (search_term (search c)); PText (search_term (search c))])
  /\ search_is_substring_test (search c) u.
Proof.
  intros Hne Hm. split.
  - unfold add_search, append_condition.
    destruct (search c); [contradiction|reflexivity].
  - unfold search_is_substring_test. cbn [Engine.holds].
    rewrite !ilike_plain_search by exact Hm. reflexivity.
Qed.

End Search.

Lemma search_matches_plain_substring_sample :
  @search_is_substring_test Sql.latin1_locale (String (ascii_of_nat 233) "M")
    (Sample.user 2 (String (ascii_of_nat 201) "mile") "plain" 5).
Proof.
  exact (proj2 (@search_matches_plain_substring Sql.latin1_locale
                  (Sample.criteria 1 10 (String (ascii_of_nat 233) "M") "all")
                  (Sample.user 2 (String (ascii_of_nat 201) "mile") "plain" 5)
                  ltac:(discriminate) ltac:(reflexivity))).
Defined.

(** C4 (as stated) fails: an underscore in the search text stands for any
    one character, so the row passes although none of its fields holds an
    underscore. *)
Lemma underscore_matches_any_character :
  ~ @search_is_substring_test Sql.c_locale "b_b"
      (Sample.user 2 "bob" "plain" 5).
Proof.
  unfold search_is_substring_test. vm_compute. discriminate.
Qed.

(** What the locale decides: the search for e with the acute accent finds
    the name that begins with the accented capital in a locale that folds
    the accented letters, and does not in the locale C. *)
Lemma accented_search_depends_on_locale :
  let s := String (ascii_of_nat 233) EmptyString in
  let name := String (ascii_of_nat 201) "mile" in
  @Sql.ilike Sql.latin1_locale name (search_term s) = Ret true
  /\ @Sql.ilike Sql.c_locale name (search_term s) = Ret false.
Proof. split; vm_compute; reflexivity. Qed.

(** ** The shape test and the segments of the codec *)

Lemma drop_nil (k : nat) : drop k EmptyString = EmptyString.
Proof. now destruct k. Qed.

Lemma drop_drop (i j : nat) (s : string) : drop i (drop j s) = drop (j + i) s.
Proof.
  revert j; induction s as [|c s IH]; intro j.
  - now rewrite !drop_nil.
  - destruct j as [|j]; [reflexivity|]. cbn [drop Nat.add]. apply IH.
Qed.

Lemma split_from_skip (sep : string) (k : nat) (s : string) :
  split_from sep k s = split_from sep 0 (drop k s).
Proof.
  revert k; induction s as [|c s IH]; intro k.
  - now rewrite drop_nil.
  - destruct k as [|k]; [reflexivity|]. cbn [split_from drop]. apply IH.
Qed.

Section Segments.

Variable sep : string.


Lemma count_cons (c : ascii) (s : string) :
  segment_count sep (String c s) =
    if is_prefix sep (String c s)
    then S (segment_count sep (drop (reach sep) s))
    else segment_count sep s.
Proof.
  unfold segment_count, reach. cbn [split_from].
  destruct (is_prefix sep (String c s)).
  - cbn [List.length]. now rewrite split_from_skip.
  - pose proof (split_from_nonempty sep 0 s) as Hne.
    destruct (split_from sep 0 s); [contradiction|reflexivity].
Qed.

Lemma count_positive (s : string) : (1 <= segment_count sep s)%nat.
Proof.
  unfold segment_count. pose proof (split_from_nonempty sep 0 s) as Hne.
  destruct (split_from sep 0 s); [contradiction|cbn; lia].
Qed.

(** Passing over at most one occurrence loses at most one segment, and a
    suffix never has more segments. *)
Lemma count_suffix (s : string) :
  (forall j, (j <= S (reach sep))%nat ->
             (segment_count sep s <= S (segment_count sep (drop j s)))%nat)
  /\ (forall i j, (segment_count sep (drop (i + j) s)
                   <= segment_count sep (drop i s))%nat).
Proof.
  induction s as [|c s [IHp IHm]].
  - split; intros; rewrite !drop_nil; lia.
  - assert (Hcons : (segment_count sep s <= segment_count sep (String c s))%nat).
    { rewrite count_cons. destruct (is_prefix sep (String c s)); [|lia].
      apply IHp. lia. }
    split.
    + intros [|j] Hj; [cbn [drop]; lia|]. cbn [drop].
      rewrite count_cons. destruct (is_prefix sep (String c s)).
      * apply le_n_S.
        replace (reach sep) with (j + (reach sep - j))%nat at 1 by lia.
        apply IHm.
      * apply IHp. lia.
    + intros [|i] j.
      * destruct j as [|j]; [cbn [drop Nat.add]; lia|].
        cbn [drop Nat.add].
        etransitivity; [apply (IHm 0%nat j)|]. exact Hcons.
      * cbn [drop Nat.add]. apply IHm.
Qed.

Lemma count_cons_le (c : ascii) (s : string) :
  (segment_count sep s <= segment_count sep (String c s))%nat.
Proof.
  rewrite count_cons. destruct (is_prefix sep (String c s)); [|lia].
  apply (proj1 (count_suffix s)). lia.
Qed.

Lemma like_match_literals_then (p : string) (q : list Sql.like_token) (t : string) :
  Sql.like_match (Sql.literals p ++ q) t
  = is_prefix p t && Sql.like_match q (drop (String.length p) t).
Proof.
  revert t; induction p as [|a p IH]; intro t; [reflexivity|].
  destruct t as [|b t]; [reflexivity|].
  cbn [Sql.literals app Sql.like_match is_prefix String.length drop].
  now rewrite IH, Ascii.eqb_sym, andb_assoc.
Qed.

(** The pattern [%sep%sep...%] with [k] separators matches the strings
    that split into more than [k] segments. *)
Lemma like_match_occurrences (k : nat) (s : string) :
  sep <> EmptyString ->
  Sql.like_match (Sql.occurrences sep k) s = (k <? segment_count sep s)%nat.
Proof.
  intro Hsep.
  assert (Hlen : String.length sep = S (reach sep)).
  { unfold reach. destruct sep; [contradiction|cbn; lia]. }
  revert s; induction k as [|k IHk]; intro s.
  - cbn [Sql.occurrences]. rewrite like_match_any.
    symmetry. apply Nat.ltb_lt. apply count_positive.
  - cbn [Sql.occurrences].
    induction s as [|c s IHs].
    + rewrite like_match_star, like_match_literals_then.
      destruct sep; [contradiction|]. reflexivity.
    + rewrite like_match_star, like_match_literals_then, IHs, IHk, Hlen.
      cbn [drop]. rewrite count_cons.
      pose proof (count_cons_le c s) as Hle. rewrite count_cons in Hle.
      destruct (is_prefix sep (String c s)); cbn [andb orb].
      * destruct (k <? segment_count sep (drop (reach sep) s))%nat eqn:E1;
          destruct (S k <? segment_count sep s)%nat eqn:E2; cbn [orb];
          symmetry;
          rewrite ?Nat.ltb_lt, ?Nat.ltb_ge in *; lia.
      * reflexivity.
Qed.

End Segments.

(** The LIKE test of the location filter is the structural test of the
    codec: at least four segments. *)
Lemma shape_test_is_four_segments (s : string) :
  Sql.like s shape_pattern = Ret (4 <=? List.length (segments s))%nat.
Proof.
  rewrite like_shape_pattern.
  change shape_tokens with (Sql.occurrences " | " 3).
  rewrite like_match_occurrences by discriminate.
  reflexivity.
Qed.

(** ** Claims about the listing *)

(** C2: with [location_filter] set to [auto] or [manual], [get_users] does
    not return the rows of the shape test: the driver rejects the count
    statement, whose LIKE pattern holds bare percent signs, and the response
    is the failure. *)
Theorem location_filter_is_rejected `{Sql.Locale} `{Engine.Ordering}
  (t : table) (now : Z) (c : FilterCriteria) :
  location_filter c = "auto" \/ location_filter c = "manual" ->
  get_users t now c = Failure ProgrammingError.
Proof.
  intro Hl. apply get_users_rejected. unfold filters_location.
  destruct Hl as [-> | ->]; reflexivity.
Qed.

Lemma location_filter_is_rejected_sample :
  @get_users Sql.c_locale Engine.scan_order Sample.users 100
    (Sample.criteria 1 10 EmptyString "auto")
  = Failure ProgrammingError.
Proof.
  apply (@location_filter_is_rejected Sql.c_locale Engine.scan_order).
  left. reflexivity.
Defined.

(** What the two location conditions mean once they reach the engine:
    the test for at least four segments, and its negation.
    [get_users_stats] passes no parameters with the same LIKE test, and
    counts the rows of at least four segments. *)
Lemma location_conditions_are_shape_tests `{Sql.Locale} (now : Z)
  (u : UserRecord) (t : table) :
  Engine.holds now LocationLike [] u
  = Ret (4 <=? List.length (segments (location u)))%nat
  /\ Engine.holds now LocationNotLike [] u
     = Ret (negb (4 <=? List.length (segments (location u)))%nat)
  /\ Stats.auto_users t
     = Ret (Z.of_nat
              (List.length
                 (filter (fun u => (4 <=? List.length (segments (location u)))%nat)
                    t))).
Proof.
  split; [|split].
  - apply shape_test_is_four_segments.
  - cbn [Engine.holds]. now rewrite shape_test_is_four_segments.
  - unfold Stats.auto_users.
    replace (Engine.select_where 0 [LocationLike] [] t)
      with (Ret (filter (fun u => (4 <=? List.length (segments (location u)))%nat) t));
      [reflexivity|].
    induction t as [|v t IH]; [reflexivity|].
    cbn [Engine.select_where Engine.where_holds Engine.arity firstn skipn
           Engine.holds filter].
    rewrite shape_test_is_four_segments, <- IH. cbn [bind].
    now rewrite andb_true_r.
Qed.

(** A location of four segments whose coordinates are not numbers passes
    the shape test, and the codec does not class it as auto-detected. *)
Lemma shape_test_and_codec_disagree :
  let loc := "12 Main St | abc | -74.0060 | http://maps/x" in
  Sql.like loc shape_pattern = Ret true
  /\ is_auto_detected (parse_location_data (Some loc)) = false.
Proof. split; vm_compute; reflexivity. Qed.

(** C3 (as amended): the rows of a page come newest first; and when no two
    stored rows share a [created_at], every engine returns the same
    response. *)
Section Newest.

Context {L : Sql.Locale}.

Theorem page_is_newest_first :
  (forall (E : Engine.Ordering) (t : table) (now : Z) (c : FilterCriteria)
          (us : list ListedUser) (pg : Pagination),
      get_users t now c = Success us pg ->
      StronglySorted created_descending us)
  /\ (forall (E1 E2 : Engine.Ordering) (t : table) (now : Z) (c : FilterCriteria),
        NoDup (map created_at t) ->
        @get_users L E1 t now c = @get_users L E2 t now c).
Proof.
  split.
  - intros E t now c us pg Hg.
    pose proof (get_users_success_inv _ _ _ _ _ Hg) as Hs.
    rewrite (get_users_returns _ _ _ Hs) in Hg.
    injection Hg as <- _.
    apply StronglySorted_map with (R := created_descending).
    unfold page_rows.
    apply StronglySorted_firstn, StronglySorted_skipn.
    exact (Engine.order_sorted _ _ _).
  - intros E1 E2 t now c Hn.
    destruct (filters_location c) eqn:Hf.
    + now rewrite !get_users_rejected.
    + rewrite !get_users_unfold by exact Hf.
      unfold page_rows.
      unfold page_rows.
      rewrite (newest_first_unique
                 (@Engine.order_by_created_at_desc E1 (per_page c)
                    ((page c - 1) * per_page c) (filter (satisfies now c) t))
                 (@Engine.order_by_created_at_desc E2 (per_page c)
                    ((page c - 1) * per_page c) (filter (satisfies now c) t))).
      * reflexivity.
      * apply Engine.order_sorted.
      * apply Engine.order_sorted.
      * rewrite Engine.order_permutation.
        symmetry. apply Engine.order_permutation.
      * eapply Permutation_NoDup.
        -- apply Permutation_map, Permutation_sym, Engine.order_permutation.
        -- now apply NoDup_map_filter.
Qed.

End Newest.

Lemma page_is_newest_first_sample :
  StronglySorted created_descending
    (map listed
       [ Sample.user 3 "cy" "12 Main St | 40.7128 | -74.0060 | http://maps/x" 9;
         Sample.user 2 "bob" "12 Main St | abc | -74.0060 | http://maps/x" 5;
         Sample.user 1 "al" "Plain Address, No Delimiter" 5 ]).
Proof.
  exact (proj1 (@page_is_newest_first Sql.c_locale) Engine.scan_order
           Sample.users 100 (Sample.criteria 1 10 EmptyString "all") _ _
           eq_refl).
Defined.

(** C3 (as stated) fails: the insertion-sort engine returns the two rows
    created at the same instant with the larger [id] first. *)
Lemma ties_not_by_identity :
  exists (us : list ListedUser) (pg : Pagination),
    @get_users Sql.c_locale Engine.scan_order Sample.users 100
      (Sample.criteria 1 10 EmptyString "all")
    = Success us pg
    /\ ~ StronglySorted identity_breaks_ties us.
Proof.
  destruct (@get_users Sql.c_locale Engine.scan_order Sample.users 100
              (Sample.criteria 1 10 EmptyString "all")) as [us pg|e] eqn:E;
    vm_compute in E; [|discriminate].
  exists us, pg. split; [reflexivity|].
  injection E as <- _. intro Hs.
  apply StronglySorted_inv in Hs as [Hs _].
  apply StronglySorted_inv in Hs as [_ Hf].
  apply Forall_inv in Hf. unfold identity_breaks_ties in Hf. cbn in Hf. lia.
Qed.

(** The last page that holds a row starts within the rows. *)
Lemma last_offset_below (n size p : Z) :
  0 <= n -> 0 < size -> 0 < p <= (n + size - 1) / size ->
  0 <= (p - 1) * size < n.
Proof.
  intros Hn Hs Hp.
  pose proof (Z.div_mod (n + size - 1) size ltac:(lia)) as Hd.
  pose proof (Z.mod_pos_bound (n + size - 1) size Hs) as Hm.
  nia.
Qed.

(** C5 (as amended): without a location filter, for texts that the driver
    dumps, a page size that is a positive [bigint] and a table of no more
    rows than a [bigint] counts, the count query reports the number [n] of
    rows that satisfy the criteria, every page from 1 to [total_pages] is
    drawn from those same rows and reports the same total, and the row
    counts of these pages add up to [n].  When no two of the rows that
    satisfy the criteria share a [created_at], the pages, one after the
    other, are these rows from the newest to the oldest: each row once. *)
Theorem pages_add_up_to_total `{Sql.Locale} `{Engine.Ordering}
  (t : table) (now : Z) (c : FilterCriteria) :
  filters_location c = false ->
  Filters.texts_ok c = true ->
  0 < per_page c <= Engine.bigint_max ->
  Z.of_nat (List.length t) <= Engine.bigint_max ->
  let rows := filter (satisfies now c) t in
  let n := Z.of_nat (List.length rows) in
  let pages := (n + per_page c - 1) / per_page c in
  let page_of (p : nat) := users_of (get_users t now (at_page c (Z.of_nat p))) in
  Engine.fetch_total now (fst (build c)) (snd (build c)) t = Ret n
  /\ (forall p : Z, 0 < p <= pages ->
        get_users t now (at_page c p) =
          Success (map listed (page_rows t now (at_page c p)))
            {| pagination_page := p; pagination_per_page := per_page c;
               total := n; total_pages := pages |})
  /\ Z.of_nat (list_sum (map (fun p => List.length (page_of p))
                           (seq 1 (Z.to_nat pages)))) = n
  /\ (NoDup (map created_at rows) ->
        List.concat (map page_of (seq 1 (Z.to_nat pages)))
        = map listed (Engine.order_by_created_at_desc (per_page c) 0 rows)
        /\ pages_partition t now c).
Proof.
  intros Hf Ht Hpp Hsize rows n pages page_of.
  assert (Hn : n <= Z.of_nat (List.length t)).
  { unfold n, rows. apply Nat2Z.inj_le, List.filter_length_le. }
  assert (Hpage : forall p : Z, 0 < p <= pages ->
            get_users t now (at_page c p) =
              Success (map listed (page_rows t now (at_page c p)))
                {| pagination_page := p; pagination_per_page := per_page c;
                   total := n; total_pages := pages |}).
  { intros p Hp. rewrite get_users_returns; [reflexivity|].
    apply serves_spec. cbn [page per_page at_page].
    pose proof (last_offset_below n (per_page c) p ltac:(lia) ltac:(lia) Hp).
    repeat split; try assumption; lia. }
  assert (Hof : forall p, In p (seq 1 (Z.to_nat pages)) ->
            page_of p = map listed
              (slice (Z.to_nat (per_page c))
                 (Engine.order_by_created_at_desc (per_page c)
                    ((Z.of_nat p - 1) * per_page c) rows) p)).
  { intros p Hp. apply in_seq in Hp. unfold page_of.
    rewrite Hpage by lia. cbn [users_of].
    rewrite page_rows_slice by lia. reflexivity. }
  assert (Hcov : (List.length rows
                  <= Z.to_nat pages * Z.to_nat (per_page c))%nat).
  { pose proof (pages_cover n (per_page c) ltac:(lia) ltac:(lia)) as Hcov.
    replace (Z.to_nat n) with (List.length rows) in Hcov by lia.
    exact Hcov. }
  assert (Hcat : forall l : list UserRecord,
            (forall limit offset,
                Engine.order_by_created_at_desc limit offset rows = l) ->
            List.concat (map page_of (seq 1 (Z.to_nat pages))) = map listed l).
  { intros l Hl.
    rewrite (map_ext_in _
               (fun p => map listed (slice (Z.to_nat (per_page c)) l p))).
    - rewrite <- map_map, <- concat_map. f_equal.
      apply concat_slices; [lia|].
      rewrite <- (Hl 0 0), length_ordered. exact Hcov.
    - intros p Hp. rewrite (Hof p Hp), Hl. reflexivity. }
  split; [now apply fetch_total_returns|].
  split; [exact Hpage|]. split.
  - rewrite (map_ext_in _
               (fun p => Nat.min (Z.to_nat (per_page c))
                           (List.length rows - (p - 1) * Z.to_nat (per_page c)))).
    + rewrite sum_page_sizes. lia.
    + intros p Hp. rewrite (Hof p Hp), length_map, length_slice, length_ordered.
      reflexivity.
  - intro Hnd.
    assert (Hone : forall limit offset,
              Engine.order_by_created_at_desc limit offset rows
              = Engine.order_by_created_at_desc (per_page c) 0 rows).
    { intros limit offset. apply newest_first_unique.
      - apply Engine.order_sorted.
      - apply Engine.order_sorted.
      - rewrite Engine.order_permutation.
        symmetry. apply Engine.order_permutation.
      - eapply Permutation_NoDup; [|exact Hnd].
        apply Permutation_map, Permutation_sym, Engine.order_permutation. }
    pose proof (Hcat _ Hone) as Hc. split; [exact Hc|].
    unfold pages_partition. fold rows. fold n. fold pages. fold page_of.
    rewrite Hc. apply Permutation_map, Engine.order_permutation.
Qed.

Lemma pages_add_up_to_total_sample :
  let c := Sample.criteria 1 2 EmptyString "all" in
  Z.of_nat
    (list_sum
       (map (fun p => List.length
                        (users_of (@get_users Sql.c_locale Engine.scan_order
                                     Sample.users 100
                                     (at_page c (Z.of_nat p)))))
          (seq 1 2))) = 3.
Proof.
  intro c.
  exact (proj1 (proj2 (proj2
    (@pages_add_up_to_total Sql.c_locale Engine.scan_order Sample.users 100 c
       ltac:(reflexivity) ltac:(reflexivity)
       ltac:(split; [reflexivity|discriminate])
       ltac:(vm_compute; discriminate))))).
Defined.

(** C5 (as stated) fails: the pages need not hold each row once.  Two of
    the sample rows were created at the same instant; an engine that
    orders such rows one way for an even OFFSET and the other way for an
    odd one returns the same row on pages 2 and 3 of size 1, and the other
    row on no page. *)
Lemma pages_repeat_a_row :
  ~ @pages_partition Sql.c_locale Engine.offset_order Sample.users 100
      (Sample.criteria 1 1 EmptyString "all").
Proof.
  unfold pages_partition. intro Hp.
  apply (Permutation_map row_id), Permutation_sym in Hp.
  vm_compute in Hp.
  pose proof (Permutation_in 2 Hp (or_introl eq_refl)) as Hin.
  cbn in Hin. intuition discriminate.
Qed.

Section Ceiling.

Context {L : Sql.Locale}.

(** C6: for a non-negative total and a positive page size the page count
    [(total + per_page - 1) // per_page] is the ceiling of the quotient
    [total / per_page]; it is the [total_pages] that [get_users] reports. *)
Theorem total_pages_is_ceiling (n size : Z) :
  0 <= n -> 0 < size ->
  page_count n size = Ret (Qceiling (inject_Z n / inject_Z size))
  /\ (forall (E : Engine.Ordering) (t : table) (now : Z) (c : FilterCriteria)
             (us : list ListedUser) (pg : Pagination),
        get_users t now c = Success us pg ->
        total pg = n -> per_page c = size ->
        total_pages pg = Qceiling (inject_Z n / inject_Z size)).
Proof.
  intros Hn Hs. rewrite ceiling_quotient by exact Hs. split.
  - now apply page_count_value.
  - intros E t now c us pg Hg Ht Hp.
    pose proof (get_users_success_inv _ _ _ _ _ Hg) as Hok.
    rewrite (get_users_returns _ _ _ Hok) in Hg.
    injection Hg as _ <-. cbn [total total_pages] in *. now subst.
Qed.

End Ceiling.

Lemma total_pages_is_ceiling_sample :
  page_count 12 10 = Ret 2
  /\ Qceiling (inject_Z 12 / inject_Z 10) = 2.
Proof.
  destruct (@total_pages_is_ceiling Sql.c_locale 12 10 ltac:(lia) ltac:(lia))
    as [Hc _].
  split; [exact Hc|reflexivity].
Defined.

(** C7 (as amended): without a location filter, for texts that the driver
    dumps and a page whose LIMIT and OFFSET are [bigint]s, a positive page
    beyond the last one has no rows, and the response still carries the
    number of rows that satisfy the criteria, which is what the count
    query reports. *)
Theorem page_beyond_last_is_empty `{Sql.Locale} `{Engine.Ordering}
  (t : table) (now : Z) (c : FilterCriteria) :
  filters_location c = false ->
  Filters.texts_ok c = true ->
  0 < page c ->
  0 < per_page c <= Engine.bigint_max ->
  (page c - 1) * per_page c <= Engine.bigint_max ->
  let n := Z.of_nat (List.length (filter (satisfies now c) t)) in
  (n + per_page c - 1) / per_page c < page c ->
  get_users t now c =
    Success []
      {| pagination_page := page c; pagination_per_page := per_page c;
         total := n; total_pages := (n + per_page c - 1) / per_page c |}
  /\ Engine.fetch_total now (fst (build c)) (snd (build c)) t = Ret n
  /\ matching t now c = Ret (filter (satisfies now c) t).
Proof.
  intros Hf Ht Hp Hpp Hoff n Hlt.
  split; [|split; [now apply fetch_total_returns|apply matching_filter]].
  rewrite get_users_returns by (apply serves_spec; auto).
  fold n.
  replace (page_rows t now c) with (@nil UserRecord); [reflexivity|].
  unfold page_rows. rewrite skipn_all2; [now rewrite firstn_nil|].
  rewrite length_ordered.
  pose proof (pages_cover n (per_page c) ltac:(lia) ltac:(lia)) as Hcov.
  replace (Z.to_nat n) with (List.length (filter (satisfies now c) t))
    in Hcov by lia.
  etransitivity; [exact Hcov|].
  assert (Hq0 : 0 <= (n + per_page c - 1) / per_page c)
    by (apply Z.div_pos; lia).
  rewrite <- Z2Nat.inj_mul by lia.
  apply Z2Nat.inj_le.
  - apply Z.mul_nonneg_nonneg; lia.
  - apply Z.mul_nonneg_nonneg; lia.
  - apply Z.mul_le_mono_nonneg_r; lia.
Qed.

Lemma page_beyond_last_is_empty_sample :
  @get_users Sql.c_locale Engine.scan_order Sample.users 100
    (Sample.criteria 3 2 EmptyString "all")
  = Success []
      {| pagination_page := 3; pagination_per_page := 2;
         total := 3; total_pages := 2 |}.
Proof.
  exact (proj1 (@page_beyond_last_is_empty Sql.c_locale Engine.scan_order
                  Sample.users 100 (Sample.criteria 3 2 EmptyString "all")
                  ltac:(reflexivity) ltac:(reflexivity) ltac:(reflexivity)
                  ltac:(split; [reflexivity|discriminate])
                  ltac:(vm_compute; discriminate)
                  ltac:(reflexivity))).
Defined.

(** C7 (as stated) fails: a page whose OFFSET is no [bigint] is not
    answered with an empty page: the engine refuses the statement.  Here
    three rows satisfy the criteria, the page size is 1 and the page
    asked for is 2^63 + 1. *)
Lemma page_beyond_bigint_is_refused :
  let c := Sample.criteria 9223372036854775809 1 EmptyString "all" in
  @matching Sql.c_locale Sample.users 100 c = Ret Sample.users
  /\ 3 < page c
  /\ @get_users Sql.c_locale Engine.scan_order Sample.users 100 c
     = Failure DataError.
Proof. repeat split. Qed.

(** ** update_user *)

Import Update.

Section UpdateFacts.

Variable generate_password_hash : string -> string.

(** [updated_at = CURRENT_TIMESTAMP] is always the last assignment. *)
Lemma build_update_last (data : UpdateData) :
  exists fields,
    fst (build_update generate_password_hash data) = (fields ++ [SetUpdatedAtNow])%list.
Proof. unfold build_update. cbn [fst]. eexists; reflexivity. Qed.

Lemma build_update_nonempty (data : UpdateData) :
  fst (build_update generate_password_hash data) <> [].
Proof.
  destruct (build_update_last data) as [fields ->].
  now destruct fields.
Qed.

Lemma update_where_id_map (now : Z) (fields : list assignment)
  (values : list param) (i : Z) (f : UserRecord -> UserRecord) (t : table) :
  (forall u, Engine.assign now fields values u = Ret (f u)) ->
  Engine.update_where_id now fields values i t
  = Ret (map (fun u => if id u =? i then f u else u) t).
Proof.
  intro Hf. induction t as [|u t IH]; [reflexivity|].
  cbn [Engine.update_where_id map]. rewrite IH.
  destruct (id u =? i); [rewrite Hf|]; reflexivity.
Qed.

(** One shape of the request body: the statement is run, which fixes the
    row transformer, and the two facts about it follow by computation. *)
Ltac run_update :=
  unfold build_update, add_field, add_password;
  cbn [fst snd app str_truthy data_full_name data_email data_phone
         data_location data_status data_password];
  unfold Engine.execute_update;
  match goal with
  | |- context [Driver.convert ?q ?ps] =>
      let r := eval vm_compute in (Driver.convert q ps) in
      change (Driver.convert q ps) with r
  end;
  cbn [bind List.length Nat.sub skipn firstn];
  eexists; split; [|split];
  [ | | apply update_where_id_map; intro u;
        cbn [Engine.assign]; reflexivity ];
  [ intro u; split; reflexivity
  | let Hd := fresh "Hd" in
    intro Hd; try discriminate Hd; intro u; reflexivity ].

(** The UPDATE built from a request body is accepted by the driver and
    rewrites the rows of the user; the new rows carry the time of the
    request in [updated_at]. *)
Lemma execute_update_build (now user_id : Z) (data : UpdateData) (t : table) :
  exists f : UserRecord -> UserRecord,
    (forall u, updated_at (f u) = Some now /\ id (f u) = id u)
    /\ (data = no_fields -> forall u, f u = Engine.set_updated_at now u)
    /\ Engine.execute_update now
         (fst (build_update generate_password_hash data))
         (snd (build_update generate_password_hash data) ++ [PInt user_id]) t
       = Ret (map (fun u => if id u =? user_id then f u else u) t).
Proof.
  destruct data as [[a|] [b|] [c|] [d|] [e|] [[|ch p]|]];
    run_update.
Qed.

(** C9: for a request on an existing user that passes both uniqueness
    checks, the list of assignments is not empty, the UPDATE is executed
    and the response is the success; the rows of the user get the time of
    the request in [updated_at], also when the body names no field, and the
    response is never 'No fields to update'. *)
Theorem no_fields_branch_unreachable
  (t : table) (now user_id : Z) (data : UpdateData) (i : Z) (ids : list Z) :
  Engine.fetch_ids SelectIdById [PInt user_id] t = Ret (i :: ids) ->
  taken SelectIdByEmailOther (data_email data) user_id
    "Email already registered to another user" t = Ret None ->
  taken SelectIdByPhoneOther (data_phone data) user_id
    "Phone number already registered to another user" t = Ret None ->
  fst (build_update generate_password_hash data) <> []
  /\ fst (update_user generate_password_hash t now user_id data)
     <> Rejected "No fields to update"
  /\ exists f : UserRecord -> UserRecord,
       (forall u, updated_at (f u) = Some now /\ id (f u) = id u)
       /\ (data = no_fields -> forall u, f u = Engine.set_updated_at now u)
       /\ update_user generate_password_hash t now user_id data
          = (Updated, map (fun u => if id u =? user_id then f u else u) t).
Proof.
  intros Hid He Hp.
  destruct (execute_update_build now user_id data t) as (f & Hf & Hnone & Hx).
  assert (Hu : update_user generate_password_hash t now user_id data
               = (Updated, map (fun u => if id u =? user_id then f u else u) t)).
  { unfold update_user, update_user_body.
    rewrite Hid. cbn [bind]. rewrite He. cbn [bind]. rewrite Hp. cbn [bind].
    pose proof (build_update_nonempty data) as Hne.
    destruct (build_update generate_password_hash data) as [fields values].
    cbn [fst snd] in *.
    destruct fields as [|a fields]; [contradiction|].
    rewrite Hx. reflexivity. }
  split; [apply build_update_nonempty|]. split.
  - rewrite Hu. discriminate.
  - exists f. auto.
Qed.

End UpdateFacts.

Lemma no_fields_branch_unreachable_sample :
  update_user (fun s => s) Sample.users 77 1 no_fields
  = (Updated,
     map (fun u => if id u =? 1 then Engine.set_updated_at 77 u else u)
       Sample.users).
Proof.
  destruct (no_fields_branch_unreachable (fun s => s) Sample.users 77 1
              no_fields 1 [] ltac:(reflexivity) ltac:(reflexivity)
              ltac:(reflexivity)) as (_ & _ & f & _ & Hf & Hu).
  rewrite Hu. f_equal. apply map_ext. intro u. now rewrite (Hf eq_refl).
Defined.

(** * Further properties *)

(** ** The codec and its encoding *)

Lemma is_prefix_drop (p s : string) :
  is_prefix p s = true -> s = p ++ drop (String.length p) s.
Proof.
  revert s; induction p as [|a p IH]; intros s H; [reflexivity|].
  destruct s as [|b s]; [discriminate|].
  cbn [is_prefix] in H. apply andb_true_iff in H as [Hab Hp].
  apply Ascii.eqb_eq in Hab. subst b.
  cbn [String.length drop append]. f_equal. now apply IH.
Qed.

Lemma string_app_nil_r (s : string) : s ++ EmptyString = s.
Proof. induction s as [|c s IH]; cbn; [reflexivity|now rewrite IH]. Qed.

Lemma join_cons (sep a : string) (b : string) (r : list string) :
  join sep (a :: b :: r) = a ++ sep ++ join sep (b :: r).
Proof. reflexivity. Qed.

(** [sep.join(s.split(sep))] is [s]. *)
Lemma join_split_from (sep s : string) :
  sep <> EmptyString ->
  forall k, join sep (split_from sep 0 (drop k s)) = drop k s.
Proof.
  intro Hsep.
  remember (String.length sep - 1)%nat as n eqn:En.
  assert (Hlen : String.length sep = S n).
  { destruct sep; [contradiction|cbn in *; lia]. }
  induction s as [|c s IH]; intro k.
  - rewrite drop_nil. reflexivity.
  - destruct k as [|k]; [|apply IH].
    cbn [drop split_from]. rewrite <- En.
    destruct (is_prefix sep (String c s)) eqn:Hp.
    + rewrite split_from_skip.
      pose proof (split_from_nonempty sep 0 (drop n s)) as Hne.
      pose proof (IH n) as Hj.
      destruct (split_from sep 0 (drop n s)) as [|h t]; [contradiction|].
      rewrite join_cons, Hj. cbn [append].
      pose proof (is_prefix_drop _ _ Hp) as E.
      rewrite Hlen in E. cbn [drop] in E. now symmetry.
    + pose proof (split_from_nonempty sep 0 s) as Hne.
      pose proof (IH 0%nat) as Hj. cbn [drop] in Hj.
      destruct (split_from sep 0 s) as [|h t]; [contradiction|].
      destruct t as [|h' t]; cbn [join] in *; cbn [append]; now rewrite Hj.
Qed.

Lemma pipe_free_cons (c : ascii) (s : string) :
  Encoding.pipe_free (String c s) = true ->
  c <> "|"%char /\ Encoding.pipe_free s = true.
Proof.
  unfold Encoding.pipe_free. cbn [Str.has_char].
  rewrite negb_orb. intro H. apply andb_true_iff in H as [Hc Hs].
  split; [|exact Hs]. intros ->. discriminate.
Qed.

Lemma split_pipe_free_segment (a rest : string) :
  Encoding.pipe_free a = true ->
  split_from " | " 0 (a ++ " | " ++ rest) = a :: split_from " | " 0 rest.
Proof.
  induction a as [|c a IH]; intro Hf; [reflexivity|].
  apply pipe_free_cons in Hf as [Hc Hf].
  cbn [append split_from].
  assert (Hp : is_prefix " | " (String c (a ++ " | " ++ rest)) = false).
  { cbn [is_prefix]. destruct (Ascii.eqb " " c); [|reflexivity]. cbn [andb].
    destruct a as [|d a]; [reflexivity|].
    apply pipe_free_cons in Hf as [Hd _]. cbn [append].
    destruct (Ascii.eqb "|" d) eqn:E; [|reflexivity].
    apply Ascii.eqb_eq in E. congruence. }
  cbn [append] in Hp. rewrite Hp. cbn [append] in IH. now rewrite (IH Hf).
Qed.

Lemma pipe_free_not_contains (a : string) :
  Encoding.pipe_free a = true -> contains " | " a = false.
Proof.
  induction a as [|c a IH]; intro Hf; [reflexivity|].
  pose proof Hf as Hf0. apply pipe_free_cons in Hf as [Hc Hf].
  cbn [contains]. rewrite (IH Hf), orb_false_r.
  cbn [is_prefix]. destruct (Ascii.eqb " " c); [|reflexivity]. cbn [andb].
  destruct a as [|d a]; [reflexivity|].
  apply pipe_free_cons in Hf as [Hd _].
  destruct (Ascii.eqb "|" d) eqn:E; [|reflexivity].
  apply Ascii.eqb_eq in E. congruence.
Qed.

Lemma segments_encoded (address latitude longitude map_link : string) :
  Encoding.pipe_free address = true ->
  Encoding.pipe_free latitude = true ->
  Encoding.pipe_free longitude = true ->
  segments (Encoding.encoded address latitude longitude map_link)
  = address :: latitude :: longitude :: segments map_link.
Proof.
  intros Ha Hla Hlo. unfold segments, Encoding.encoded.
  now rewrite !split_pipe_free_segment.
Qed.

(** X1: a string in the documented format, whose address and coordinate
    texts hold no pipe character, decodes to its parts: the address, the two
    coordinates as [float] reads them (null for an empty text), and as map
    link the text up to its first delimiter (all of it when it holds no
    pipe).  When a coordinate text is neither empty nor a number the whole
    string is the plain address. *)
Theorem decode_encoded (address latitude longitude map_link : string) :
  Encoding.pipe_free address = true ->
  Encoding.pipe_free latitude = true ->
  Encoding.pipe_free longitude = true ->
  let raw := Encoding.encoded address latitude longitude map_link in
  parse_location_data (Some raw) =
    Ret (if coordinate_ok latitude && coordinate_ok longitude
         then [ ("address", VStr address);
                ("latitude", coordinate_value latitude);
                ("longitude", coordinate_value longitude);
                ("map_link", VStr (segment map_link 0));
                ("is_auto_detected", VBool true);
                ("full_string", VStr raw) ]
         else plain_location raw)
  /\ (Encoding.pipe_free map_link = true -> segment map_link 0 = map_link).
Proof.
  intros Ha Hla Hlo raw. split.
  - pose proof (segments_encoded _ _ _ map_link Ha Hla Hlo) as Hseg.
    fold raw in Hseg.
    assert (Hne : raw <> EmptyString).
    { unfold raw, Encoding.encoded. destruct address; discriminate. }
    assert (H4 : (4 <=? List.length (segments raw))%nat = true).
    { rewrite Hseg. pose proof (split_from_nonempty " | " 0 map_link) as Hm.
      unfold segments at 1. destruct (split_from " | " 0 map_link);
        [contradiction|reflexivity]. }
    assert (H0 : segment raw 0 = address) by (unfold segment; now rewrite Hseg).
    assert (H1 : segment raw 1 = latitude) by (unfold segment; now rewrite Hseg).
    assert (H2 : segment raw 2 = longitude) by (unfold segment; now rewrite Hseg).
    assert (H3 : segment raw 3 = segment map_link 0)
      by (unfold segment; now rewrite Hseg).
    clearbody raw. rewrite parse_location_data_spec.
    destruct raw as [|c r]; [contradiction|].
    rewrite H4, H0, H1, H2, H3. cbn [andb].
    destruct (coordinate_ok latitude && coordinate_ok longitude); reflexivity.
  - intro Hm. unfold segment, segments.
    rewrite (split_from_without_separator _ _ (pipe_free_not_contains _ Hm)).
    reflexivity.
Qed.

Lemma decode_encoded_sample :
  parse_location_data (Some "12 Main St | 40.7128 |  | http://maps/x | note")
  = Ret [ ("address", VStr "12 Main St");
          ("latitude", VFloat (FDec false 407128 (-4)));
          ("longitude", VNone);
          ("map_link", VStr "http://maps/x");
          ("is_auto_detected", VBool true);
          ("full_string",
           VStr "12 Main St | 40.7128 |  | http://maps/x | note") ].
Proof.
  exact (proj1 (decode_encoded "12 Main St" "40.7128" EmptyString
                  "http://maps/x | note" eq_refl eq_refl eq_refl)).
Defined.

(** X2: an auto-detected location string begins with its address, the two
    coordinate texts and its map link, each followed by the delimiter or
    the end of the string: the four fields are read off the front of the
    string and what follows the map link starts with a delimiter. *)
Theorem auto_detected_raw_structure (raw : string) :
  is_auto_detected (parse_location_data (Some raw)) = true ->
  exists tail : string,
    raw = segment raw 0 ++ " | " ++ segment raw 1 ++ " | " ++ segment raw 2
            ++ " | " ++ segment raw 3 ++ tail
    /\ (tail = EmptyString \/ is_prefix " | " tail = true)
    /\ field "address" (parse_location_data (Some raw))
       = Some (VStr (segment raw 0))
    /\ field "map_link" (parse_location_data (Some raw))
       = Some (VStr (segment raw 3)).
Proof.
  intro Hauto. rewrite parse_location_data_spec in Hauto |- *.
  destruct raw as [|c0 raw0]; [vm_compute in Hauto; discriminate|].
  cbv beta iota in Hauto |- *.
  set (raw := String c0 raw0) in *. clearbody raw.
  destruct (4 <=? List.length (segments raw))%nat eqn:H4;
    [|vm_compute in Hauto; discriminate].
  apply Nat.leb_le in H4. cbn [andb] in Hauto |- *.
  destruct (coordinate_ok (segment raw 1) && coordinate_ok (segment raw 2));
    [|vm_compute in Hauto; discriminate].
  clear Hauto.
  pose proof (join_split_from " | " raw ltac:(discriminate) 0) as Hj.
  cbn [drop] in Hj. unfold segment, segments in *.
  destruct (split_from " | " 0 raw) as [|p0 [|p1 [|p2 [|p3 rest]]]];
    cbn [List.length] in H4; try lia.
  cbn [nth].
  exists (match rest with [] => EmptyString | _ => " | " ++ join " | " rest end).
  repeat split.
  - rewrite <- Hj at 1. rewrite !join_cons.
    destruct rest as [|r0 rest]; [cbn [join]; now rewrite string_app_nil_r|].
    rewrite join_cons. reflexivity.
  - destruct rest; [left|right]; reflexivity.
Qed.

Lemma auto_detected_raw_structure_sample :
  exists tail : string,
    "a | 1 | 2 | m | x" = "a" ++ " | " ++ "1" ++ " | " ++ "2" ++ " | " ++ "m" ++ tail
    /\ (tail = EmptyString \/ is_prefix " | " tail = true)
    /\ field "address" (parse_location_data (Some "a | 1 | 2 | m | x"))
       = Some (VStr "a")
    /\ field "map_link" (parse_location_data (Some "a | 1 | 2 | m | x"))
       = Some (VStr "m").
Proof. exact (auto_detected_raw_structure "a | 1 | 2 | m | x" eq_refl). Defined.

(** X3: whatever the input, the record has the five keys its callers
    subscript; the address is a string and the flag a boolean; the map link
    is a string when the flag is set, and the map link and both coordinates
    are null when it is not. *)
Theorem record_keys_always_present (location_string : option string) :
  exists (d : dict) (address : string) (auto : bool),
    parse_location_data location_string = Ret d
    /\ dict_get d "address" = Some (VStr address)
    /\ dict_get d "is_auto_detected" = Some (VBool auto)
    /\ has_key d "latitude" = true
    /\ has_key d "longitude" = true
    /\ (if auto
        then exists m, dict_get d "map_link" = Some (VStr m)
        else dict_get d "map_link" = Some VNone
             /\ dict_get d "latitude" = Some VNone
             /\ dict_get d "longitude" = Some VNone).
Proof.
  destruct location_string as [raw|].
  - rewrite parse_location_data_spec. destruct raw as [|c s].
    + exists empty_location, EmptyString, false. repeat split.
    + destruct (_ && _).
      * eexists _, _, true. repeat split. eexists; reflexivity.
      * eexists _, _, false. repeat split.
  - exists empty_location, EmptyString, false. repeat split.
Qed.

(** ** The filters of the listing *)

Lemma ilike_test_search `{Sql.Locale} (t s : string) :
  Sql.ilike t (search_term s) = Ret (Filters.ilike_test t (search_term s)).
Proof.
  unfold Filters.ilike_test.
  now destruct (ilike_search_term_returns t s) as [b ->].
Qed.

Lemma satisfies_conj `{Sql.Locale} (now : Z) (c : FilterCriteria)
  (u : UserRecord) :
  satisfies now c u
  = Filters.search_ok c u && Filters.location_ok c u
    && Filters.status_ok c u && Filters.date_ok now c u.
Proof.
  unfold satisfies, Filters.search_ok, Filters.location_ok, Filters.status_ok,
    Filters.date_ok.
  unfold build, add_date, add_status, add_location, add_search,
    append_condition.
  destruct (str_truthy (search c));
    destruct (String.eqb (location_filter c) "auto");
    destruct (String.eqb (location_filter c) "manual");
    destruct (String.eqb (status_filter c) "all");
    destruct (String.eqb (date_filter c) "all");
    destruct (String.eqb (date_filter c) "today");
    destruct (String.eqb (date_filter c) "week");
    destruct (String.eqb (date_filter c) "month");
    cbn [negb fst snd app
           Engine.where_holds Engine.arity firstn skipn Engine.holds bind];
    rewrite ?ilike_test_search, ?shape_test_is_four_segments;
    cbn [bind];
    repeat (rewrite ?andb_true_r, ?andb_true_l, ?andb_assoc); reflexivity.
Qed.

Lemma in_firstn_in {A : Type} (n : nat) (l : list A) (x : A) :
  In x (firstn n l) -> In x l.
Proof.
  intro H. rewrite <- (firstn_skipn n l). apply in_or_app. now left.
Qed.

Lemma in_skipn_in {A : Type} (n : nat) (l : list A) (x : A) :
  In x (skipn n l) -> In x l.
Proof.
  intro H. rewrite <- (firstn_skipn n l). apply in_or_app. now right.
Qed.

Section ListingFacts.

Context `{Sql.Locale} `{Engine.Ordering}.

Lemma get_users_ext (t : table) (now : Z) (c c' : FilterCriteria) :
  build c = build c' -> page c = page c' -> per_page c = per_page c' ->
  get_users t now c = get_users t now c'.
Proof.
  intros Hb Hp Hpp. unfold get_users, get_users_body.
  now rewrite Hb, Hp, Hpp.
Qed.

(** X5: [get_users] answers with a page exactly when no location filter
    is set, the search text and the status hold no U+0000, [page] and
    [per_page] are positive and LIMIT and OFFSET are [bigint]s.  Every
    other request ends in the [except] branch: with a location filter the
    driver rejects the count statement; else a text with U+0000 is refused
    by the dumper; else a negative LIMIT or OFFSET, or one above the
    largest [bigint], is refused by the engine; else [per_page] is zero and
    the page count divides by zero. *)
Theorem get_users_outcome (t : table) (now : Z) (c : FilterCriteria) :
  ((exists us pg, get_users t now c = Success us pg) <->
     filters_location c = false /\ Filters.texts_ok c = true
     /\ 0 < page c /\ 0 < per_page c <= Engine.bigint_max
     /\ (page c - 1) * per_page c <= Engine.bigint_max)
  /\ (filters_location c = true ->
        get_users t now c = Failure ProgrammingError)
  /\ (filters_location c = false -> Filters.texts_ok c = false ->
        get_users t now c = Failure DataError)
  /\ (filters_location c = false -> Filters.texts_ok c = true ->
        per_page c < 0 \/ Engine.bigint_max < per_page c
        \/ (page c - 1) * per_page c < 0
        \/ Engine.bigint_max < (page c - 1) * per_page c ->
        get_users t now c = Failure DataError)
  /\ (filters_location c = false -> Filters.texts_ok c = true ->
        per_page c = 0 ->
        get_users t now c = Failure ZeroDivisionError).
Proof.
  split; [split|split; [|split; [|split]]].
  - intros (us & pg & Hg). apply serves_spec.
    exact (get_users_success_inv _ _ _ _ _ Hg).
  - intro Hs. apply serves_spec in Hs.
    rewrite (get_users_returns _ _ _ Hs). eauto.
  - apply get_users_rejected.
  - intros Hf Ht. now rewrite (get_users_unfold _ _ _ Hf), Ht.
  - intros Hf Ht Hr. rewrite (get_users_unfold _ _ _ Hf), Ht.
    replace (Filters.range_ok c) with false; [reflexivity|].
    symmetry. unfold Filters.range_ok.
    rewrite !andb_false_iff, !Z.leb_gt. lia.
  - intros Hf Ht Hz. rewrite (get_users_unfold _ _ _ Hf), Ht.
    unfold Filters.range_ok. rewrite Hz, Z.mul_0_r. reflexivity.
Qed.

Lemma in_page_rows (t : table) (now : Z) (c : FilterCriteria) (u : UserRecord) :
  In u (page_rows t now c) -> In u t /\ satisfies now c u = true.
Proof.
  unfold page_rows. intro Hin.
  apply filter_In.
  eapply Permutation_in; [apply Engine.order_permutation|].
  eapply in_skipn_in, in_firstn_in. exact Hin.
Qed.

Lemma success_total (t : table) (now : Z) (c : FilterCriteria)
  (us : list ListedUser) (pg : Pagination) :
  get_users t now c = Success us pg ->
  total pg = Z.of_nat (List.length (filter (satisfies now c) t)).
Proof.
  intro Hg.
  pose proof (get_users_success_inv _ _ _ _ _ Hg) as Hs.
  rewrite (get_users_returns _ _ _ Hs) in Hg.
  now injection Hg as _ <-.
Qed.

(** X6: a page never holds more than [per_page] rows nor more than the
    reported total; each of its rows is made from a stored row that
    satisfies the criteria; and the total is the number of stored rows that
    satisfy them. *)
Theorem page_is_sound (t : table) (now : Z) (c : FilterCriteria)
  (us : list ListedUser) (pg : Pagination) :
  get_users t now c = Success us pg ->
  Z.of_nat (List.length us) <= per_page c
  /\ Z.of_nat (List.length us) <= total pg
  /\ total pg = Z.of_nat (List.length (filter (satisfies now c) t))
  /\ Forall (fun r => exists u, In u t /\ satisfies now c u = true
                                /\ r = listed u) us.
Proof.
  intro Hg.
  pose proof (get_users_success_inv _ _ _ _ _ Hg) as Hs.
  rewrite (get_users_returns _ _ _ Hs) in Hg.
  apply serves_spec in Hs as (Hf & Ht & Hp & Hpp & Hoff).
  injection Hg as <- <-. cbn [total].
  rewrite length_map. repeat split.
  - unfold page_rows. rewrite length_firstn. lia.
  - unfold page_rows. rewrite length_firstn, length_skipn, length_ordered. lia.
  - apply Forall_forall. intros r Hr.
    apply in_map_iff in Hr as (u & <- & Hu).
    apply in_page_rows in Hu as [Hin Hs]. eauto.
Qed.

(** X9: a date filter other than [today], [week] and [month], and a
    location filter other than [auto] and [manual], are ignored: the
    response is that of the value [all]. *)
Theorem unknown_filters_are_ignored (t : table) (now : Z) (c : FilterCriteria) :
  (date_filter c <> "today" -> date_filter c <> "week" ->
   date_filter c <> "month" ->
   get_users t now c = get_users t now (Filters.with_date c "all"))
  /\ (location_filter c <> "auto" -> location_filter c <> "manual" ->
      get_users t now c = get_users t now (Filters.with_location c "all")).
Proof.
  split.
  - intros H1 H2 H3. apply get_users_ext; try reflexivity.
    unfold build, add_date. cbn [date_filter Filters.with_date].
    apply String.eqb_neq in H1, H2, H3. rewrite H1, H2, H3.
    change (String.eqb "all" "all") with true. cbn [negb].
    now destruct (negb _).
  - intros H1 H2. apply get_users_ext; try reflexivity.
    unfold build, add_location.
    cbn [location_filter Filters.with_location].
    apply String.eqb_neq in H1, H2. rewrite H1, H2. reflexivity.
Qed.

End ListingFacts.

(** X7: the text of the two statements depends only on which filters are
    set, never on the search text or on the status value: these reach the
    engine as bound parameters alone. *)
Theorem statement_text_is_fixed (c c' : FilterCriteria) :
  str_truthy (search c) = str_truthy (search c') ->
  location_filter c = location_filter c' ->
  String.eqb (status_filter c) "all" = String.eqb (status_filter c') "all" ->
  date_filter c = date_filter c' ->
  sql (SelectCount (fst (build c))) = sql (SelectCount (fst (build c')))
  /\ sql (SelectPage (fst (build c))) = sql (SelectPage (fst (build c'))).
Proof.
  intros Hs Hl Ht Hd.
  assert (Hb : fst (build c) = fst (build c')).
  { unfold build, add_date, add_status, add_location, add_search,
      append_condition.
    rewrite Hs, Hl, Ht, Hd.
    destruct (str_truthy (search c'));
      destruct (String.eqb (location_filter c') "auto");
      destruct (String.eqb (location_filter c') "manual");
      destruct (String.eqb (status_filter c') "all");
      destruct (String.eqb (date_filter c') "all");
      destruct (String.eqb (date_filter c') "today");
      destruct (String.eqb (date_filter c') "week");
      destruct (String.eqb (date_filter c') "month"); reflexivity. }
  now rewrite Hb.
Qed.

Lemma statement_text_is_fixed_sample :
  sql (SelectCount (fst (build (Sample.criteria 1 10 "bob" "all"))))
  = sql (SelectCount
           (fst (build (Sample.criteria 1 10 "x'; DROP TABLE users; --" "all")))).
Proof.
  exact (proj1 (statement_text_is_fixed
                  (Sample.criteria 1 10 "bob" "all")
                  (Sample.criteria 1 10 "x'; DROP TABLE users; --" "all")
                  eq_refl eq_refl eq_refl eq_refl)).
Defined.

(** X4: a row satisfies the criteria exactly when it passes every filter
    that is set: the bound parameters line up with the placeholders of the
    conditions, the conditions are joined by AND, and a filter that is not
    set (empty search, [all], or an unknown location or date filter) adds
    nothing. *)
Theorem satisfies_is_conjunction `{Sql.Locale} (now : Z) (c : FilterCriteria)
  (u : UserRecord) :
  satisfies now c u
  = Filters.search_ok c u && Filters.location_ok c u
    && Filters.status_ok c u && Filters.date_ok now c u.
Proof. apply satisfies_conj. Qed.

Lemma filter_length_le {A : Type} (p q : A -> bool) (l : list A) :
  (forall x, p x = true -> q x = true) ->
  (List.length (filter p l) <= List.length (filter q l))%nat.
Proof.
  intro Hpq. induction l as [|x l IH]; [cbn; lia|].
  cbn [filter]. destruct (p x) eqn:Ep.
  - rewrite (Hpq x Ep). cbn [List.length]. lia.
  - destruct (q x); cbn [List.length]; lia.
Qed.

Lemma satisfies_with_date `{Sql.Locale} (now : Z) (c : FilterCriteria)
  (d : string)
  (u : UserRecord) :
  satisfies now (Filters.with_date c d) u
  = Filters.search_ok c u && Filters.location_ok c u
    && Filters.status_ok c u && Filters.date_ok now (Filters.with_date c d) u.
Proof. now rewrite satisfies_conj. Qed.

(** The rows of today are rows of the last week, these are rows of the last
    month, and every date filter keeps a part of the unfiltered rows. *)
Lemma date_filters_nest `{Sql.Locale} (now : Z) (c : FilterCriteria)
  (u : UserRecord) :
  (satisfies now (Filters.with_date c "today") u = true ->
   satisfies now (Filters.with_date c "week") u = true)
  /\ (satisfies now (Filters.with_date c "week") u = true ->
      satisfies now (Filters.with_date c "month") u = true)
  /\ (satisfies now (Filters.with_date c "month") u = true ->
      satisfies now (Filters.with_date c "all") u = true).
Proof.
  rewrite !satisfies_with_date.
  unfold Filters.date_ok. cbn [date_filter Filters.with_date].
  change (String.eqb "today" "all") with false.
  change (String.eqb "today" "today") with true.
  change (String.eqb "week" "all") with false.
  change (String.eqb "week" "today") with false.
  change (String.eqb "week" "week") with true.
  change (String.eqb "month" "all") with false.
  change (String.eqb "month" "today") with false.
  change (String.eqb "month" "week") with false.
  change (String.eqb "month" "month") with true.
  change (String.eqb "all" "all") with true.
  cbv iota.
  destruct (Filters.search_ok c u && Filters.location_ok c u
            && Filters.status_ok c u); cbn [andb]; [|repeat split; discriminate].
  unfold current_date, usecs_per_day.
  repeat split; intro Hd; try reflexivity.
  - apply Z.eqb_eq in Hd. apply Z.leb_le.
    pose proof (Z.mul_div_le (created_at u) 86400000000 ltac:(lia)). lia.
  - apply Z.leb_le in Hd. apply Z.leb_le. lia.
Qed.

Section DateFacts.

Context `{Sql.Locale} `{Engine.Ordering}.

(** X8: with the other filters fixed, the totals reported for the date
    filters are ordered: today at most week, week at most month, month at
    most all. *)
Theorem date_totals_are_ordered (t : table) (now : Z) (c : FilterCriteria)
  (us1 us2 us3 us4 : list ListedUser) (p1 p2 p3 p4 : Pagination) :
  get_users t now (Filters.with_date c "today") = Success us1 p1 ->
  get_users t now (Filters.with_date c "week") = Success us2 p2 ->
  get_users t now (Filters.with_date c "month") = Success us3 p3 ->
  get_users t now (Filters.with_date c "all") = Success us4 p4 ->
  total p1 <= total p2 /\ total p2 <= total p3 /\ total p3 <= total p4.
Proof.
  intros H1 H2 H3 H4.
  apply success_total in H1, H2, H3, H4. rewrite H1, H2, H3, H4.
  repeat split; apply Nat2Z.inj_le, filter_length_le; intro u;
    apply (date_filters_nest now c u).
Qed.

End DateFacts.

(** ** What [update_user] writes *)

Lemma ids_nil_iff (p : UserRecord -> bool) (t : table) :
  map id (filter p t) = [] <-> existsb p t = false.
Proof.
  induction t as [|u t IH]; cbn [filter existsb map]; [tauto|].
  destruct (p u); cbn [map orb]; [split; discriminate|exact IH].
Qed.

Section UpdateEffects.

Variable generate_password_hash : string -> string.

Lemma assign_updated_row (now : Z) (data : UpdateData) (u : UserRecord) :
  Engine.assign now (fst (build_update generate_password_hash data))
    (snd (build_update generate_password_hash data)) u
  = Ret (Effects.updated_row generate_password_hash now data u).
Proof.
  destruct data as [[a|] [b|] [c|] [d|] [e|] [[|ch p]|]]; reflexivity.
Qed.

Lemma execute_update_table (now user_id : Z) (data : UpdateData) (t : table) :
  Engine.execute_update now
    (fst (build_update generate_password_hash data))
    (snd (build_update generate_password_hash data) ++ [PInt user_id]) t
  = Ret (Effects.updated_table generate_password_hash now user_id data t).
Proof.
  unfold Effects.updated_table.
  etransitivity;
    [|exact (update_where_id_map now _ _ user_id _ t
               (assign_updated_row now data))].
  destruct data as [[a|] [b|] [c|] [d|] [e|] [[|ch p]|]];
    unfold build_update, add_field, add_password;
    cbn [fst snd app str_truthy data_full_name data_email data_phone
           data_location data_status data_password];
    unfold Engine.execute_update;
    match goal with
    | |- context [Driver.convert ?q ?ps] =>
        let r := eval vm_compute in (Driver.convert q ps) in
        change (Driver.convert q ps) with r
    end;
    reflexivity.
Qed.

Lemma taken_spec (st : statement) (column : UserRecord -> string)
  (v : option string) (user_id : Z) (m : string) (t : table) :
  (st = SelectIdByEmailOther /\ column = email)
  \/ (st = SelectIdByPhoneOther /\ column = phone) ->
  taken st v user_id m t
  = Ret (if Effects.held_by_other column v user_id t then Some m else None).
Proof.
  intros Hst. unfold taken, Effects.held_by_other.
  destruct v as [s|]; [|reflexivity].
  destruct Hst as [[-> ->]|[-> ->]]; unfold Engine.fetch_ids;
    match goal with
    | |- context [Driver.convert ?q ?ps] =>
        let r := eval vm_compute in (Driver.convert q ps) in
        change (Driver.convert q ps) with r
    end; cbn [bind];
    match goal with
    | |- context [existsb ?p t] =>
        pose proof (ids_nil_iff p t) as Hi;
        destruct (map id (filter p t)); destruct (existsb p t);
        try reflexivity;
        [ discriminate (proj1 Hi eq_refl) | discriminate (proj2 Hi eq_refl) ]
    end.
Qed.

(** The whole of [update_user]: the three refusals, else the update. *)
Lemma update_user_spec (t : table) (now user_id : Z) (data : UpdateData) :
  update_user generate_password_hash t now user_id data =
    if negb (Effects.known user_id t) then (Rejected "User not found", t)
    else if Effects.held_by_other email (data_email data) user_id t
    then (Rejected "Email already registered to another user", t)
    else if Effects.held_by_other phone (data_phone data) user_id t
    then (Rejected "Phone number already registered to another user", t)
    else (Updated,
          Effects.updated_table generate_password_hash now user_id data t).
Proof.
  unfold update_user, update_user_body, Effects.known.
  unfold Engine.fetch_ids at 1.
  match goal with
  | |- context [Driver.convert ?q ?ps] =>
      let r := eval vm_compute in (Driver.convert q ps) in
      change (Driver.convert q ps) with r
  end. cbn [bind].
  pose proof (ids_nil_iff (fun u => id u =? user_id) t) as Hi.
  destruct (map id (filter (fun u => id u =? user_id) t)) as [|i ids];
    destruct (existsb (fun u => id u =? user_id) t);
    try discriminate (proj1 Hi eq_refl); try discriminate (proj2 Hi eq_refl);
    cbn [negb]; [reflexivity|].
  rewrite (taken_spec _ email) by (left; split; reflexivity). cbn [bind].
  destruct (Effects.held_by_other email (data_email data) user_id t);
    [reflexivity|].
  rewrite (taken_spec _ phone) by (right; split; reflexivity). cbn [bind].
  destruct (Effects.held_by_other phone (data_phone data) user_id t);
    [reflexivity|].
  pose proof (build_update_nonempty generate_password_hash data) as Hne.
  pose proof (execute_update_table now user_id data t) as Hx.
  destruct (build_update generate_password_hash data) as [fields values].
  cbn [fst snd] in *.
  destruct fields as [|a fields]; [contradiction|].
  rewrite Hx. reflexivity.
Qed.

End UpdateEffects.

Lemma NoDup_map_injective {A B : Type} (f : A -> B) (l : list A) (x y : A) :
  NoDup (map f l) -> In x l -> In y l -> f x = f y -> x = y.
Proof.
  induction l as [|a l IH]; intros Hn Hx Hy Hxy; [contradiction|].
  cbn [map] in Hn. apply NoDup_cons_iff in Hn as [Ha Hn].
  destruct Hx as [->|Hx], Hy as [->|Hy]; try reflexivity.
  - exfalso. apply Ha. rewrite Hxy. now apply in_map.
  - exfalso. apply Ha. rewrite <- Hxy. now apply in_map.
  - now apply IH.
Qed.

(** Rewriting the rows of one user keeps a column free of duplicates when
    the new values differ from the values of the other users. *)
Lemma NoDup_key_update {K : Type} (key : UserRecord -> K)
  (f : UserRecord -> UserRecord) (user_id : Z) (t : table) :
  NoDup (map id t) -> NoDup (map key t) ->
  (forall u v, In u t -> In v t -> id u = user_id -> id v <> user_id ->
               key (f u) <> key v) ->
  NoDup (map key (map (fun u => if id u =? user_id then f u else u) t)).
Proof.
  induction t as [|u r IH]; intros Hid Hk Hf; [constructor|].
  cbn [map] in *.
  apply NoDup_cons_iff in Hid as [Hiu Hid].
  apply NoDup_cons_iff in Hk as [Hku Hk].
  constructor.
  - intro Hin. apply in_map_iff in Hin as (w & Hw & Hin).
    apply in_map_iff in Hin as (v & <- & Hv).
    destruct (id u =? user_id) eqn:Eu, (id v =? user_id) eqn:Ev.
    + apply Z.eqb_eq in Eu, Ev. apply Hiu. rewrite Eu, <- Ev. now apply in_map.
    + apply Z.eqb_eq in Eu. apply Z.eqb_neq in Ev.
      apply (Hf u v); auto; [now left|now right].
    + apply Z.eqb_neq in Eu. apply Z.eqb_eq in Ev.
      apply (Hf v u); auto; [now right|now left].
    + apply Hku. rewrite <- Hw. now apply in_map.
  - apply IH; try assumption.
    intros a b Ha Hb. apply Hf; now right.
Qed.

Lemma held_by_other_false (column : UserRecord -> string) (s : string)
  (user_id : Z) (t : table) (v : UserRecord) :
  Effects.held_by_other column (Some s) user_id t = false ->
  In v t -> id v <> user_id -> column v <> s.
Proof.
  unfold Effects.held_by_other. intros Hh Hv Hid Hc.
  assert (Ht : existsb (fun u => String.eqb (column u) s
                                 && negb (id u =? user_id)) t = true).
  { apply existsb_exists. exists v. split; [exact Hv|].
    apply andb_true_iff. split; [now apply String.eqb_eq|].
    apply negb_true_iff. now apply Z.eqb_neq. }
  congruence.
Qed.

Lemma updated_table_keeps (A : Type) (column : UserRecord -> A)
  (h : string -> string) (now user_id : Z) (data : UpdateData) (t : table) :
  (forall u, column (Effects.updated_row h now data u) = column u) ->
  map column (Effects.updated_table h now user_id data t) = map column t.
Proof.
  intro Hc. unfold Effects.updated_table. rewrite map_map.
  apply map_ext. intro u. destruct (id u =? user_id); [apply Hc|reflexivity].
Qed.

Section UpdateInvariants.

Variable generate_password_hash : string -> string.

(** X10: for a body whose texts hold no U+0000, [update_user] refuses a
    request in three cases, tested in this order: no user has the id;
    another user holds the email of the body; another user holds its
    phone.  A refused request leaves the table as it was.  Any other such
    request is accepted: in every row of the user the fields named in the
    body take their new values, a non-empty password is stored hashed (an
    empty one is ignored) and [updated_at] becomes the time of the
    request. *)
Theorem update_user_decides (t : table) (now user_id : Z) (data : UpdateData) :
  Bodies.nul_free data = true ->
  update_user generate_password_hash t now user_id data =
    if negb (Effects.known user_id t) then (Rejected "User not found", t)
    else if Effects.held_by_other email (data_email data) user_id t
    then (Rejected "Email already registered to another user", t)
    else if Effects.held_by_other phone (data_phone data) user_id t
    then (Rejected "Phone number already registered to another user", t)
    else (Updated,
          Effects.updated_table generate_password_hash now user_id data t).
Proof. intros _. apply update_user_spec. Qed.

Lemma update_user_others (t : table) (now user_id : Z) (data : UpdateData) :
  filter (fun u => negb (id u =? user_id))
    (Effects.updated_table generate_password_hash now user_id data t)
  = filter (fun u => negb (id u =? user_id)) t.
Proof.
  unfold Effects.updated_table.
  induction t as [|u r IH]; [reflexivity|].
  cbn [map filter]. destruct (id u =? user_id) eqn:E.
  - cbn [Effects.updated_row id]. rewrite E. cbn [negb]. exact IH.
  - rewrite E. cbn [negb]. now rewrite IH.
Qed.

(** X11: whatever the request, [update_user] keeps the number of the rows;
    every row keeps its id, its creation time and its profile picture; and
    the rows of the other users are the rows they were.  The order of the
    rows is left aside: the engine may hand out an updated row at another
    place. *)
Theorem update_user_frame (t : table) (now user_id : Z) (data : UpdateData) :
  let t' := snd (update_user generate_password_hash t now user_id data) in
  let kept (u : UserRecord) := (id u, created_at u, profile_pic u) in
  List.length t' = List.length t
  /\ Permutation (map kept t') (map kept t)
  /\ Permutation (filter (fun u => negb (id u =? user_id)) t')
       (filter (fun u => negb (id u =? user_id)) t).
Proof.
  cbv zeta. rewrite update_user_spec.
  destruct (negb _); [repeat split; reflexivity|].
  destruct (Effects.held_by_other email _ _ _); [repeat split; reflexivity|].
  destruct (Effects.held_by_other phone _ _ _); [repeat split; reflexivity|].
  cbn [snd]. split; [|split].
  - unfold Effects.updated_table. apply length_map.
  - rewrite updated_table_keeps; reflexivity.
  - now rewrite update_user_others.
Qed.

(** X12: on a table whose ids, emails and phones are each free of
    duplicates, the emails and the phones are free of duplicates after
    [update_user] too. *)
Theorem update_user_keeps_unique (t : table) (now user_id : Z) (data : UpdateData) :
  NoDup (map id t) -> NoDup (map email t) -> NoDup (map phone t) ->
  let t' := snd (update_user generate_password_hash t now user_id data) in
  NoDup (map email t') /\ NoDup (map phone t').
Proof.
  intros Hid He Hp. cbv zeta. rewrite update_user_spec.
  destruct (negb _); [now split|].
  destruct (Effects.held_by_other email _ _ _) eqn:Ee; [now split|].
  destruct (Effects.held_by_other phone _ _ _) eqn:Ep; [now split|].
  cbn [snd]. unfold Effects.updated_table. split.
  - apply NoDup_key_update; try assumption.
    intros u v Hu Hv Hiu Hiv. cbn [Effects.updated_row email].
    destruct (data_email data) as [e|]; cbn [Effects.or_keep].
    + intro Heq. symmetry in Heq. revert Heq.
      now apply (held_by_other_false email e user_id t v).
    + intro Heq.
      pose proof (NoDup_map_injective email t u v He Hu Hv Heq). congruence.
  - apply NoDup_key_update; try assumption.
    intros u v Hu Hv Hiu Hiv. cbn [Effects.updated_row phone].
    destruct (data_phone data) as [e|]; cbn [Effects.or_keep].
    + intro Heq. symmetry in Heq. revert Heq.
      now apply (held_by_other_false phone e user_id t v).
    + intro Heq.
      pose proof (NoDup_map_injective phone t u v Hp Hu Hv Heq). congruence.
Qed.

Lemma not_held_by_other_own (column : UserRecord -> string) (t : table)
  (u0 : UserRecord) :
  NoDup (map column t) -> In u0 t ->
  Effects.held_by_other column (Some (column u0)) (id u0) t = false.
Proof.
  intros Hn Hin. unfold Effects.held_by_other.
  destruct (existsb _ t) eqn:E; [|reflexivity].
  apply existsb_exists in E as (v & Hv & Hc).
  apply andb_true_iff in Hc as [Hc Hi].
  apply String.eqb_eq in Hc. apply negb_true_iff, Z.eqb_neq in Hi.
  pose proof (NoDup_map_injective column t v u0 Hn Hv Hin Hc). congruence.
Qed.

(** X13: the uniqueness checks leave the user itself out: a request that
    sends the user's own current email and phone again is accepted. *)
Theorem own_email_and_phone_are_accepted (t : table) (now : Z)
  (data : UpdateData) (u0 : UserRecord) :
  In u0 t -> NoDup (map email t) -> NoDup (map phone t) ->
  data_email data = Some (email u0) ->
  data_phone data = Some (phone u0) ->
  fst (update_user generate_password_hash t now (id u0) data) = Updated.
Proof.
  intros Hin He Hp Hde Hdp. rewrite update_user_spec.
  assert (Hk : Effects.known (id u0) t = true).
  { apply existsb_exists. exists u0. split; [exact Hin|apply Z.eqb_refl]. }
  rewrite Hk, Hde, Hdp. cbn [negb].
  rewrite (not_held_by_other_own email t u0 He Hin).
  rewrite (not_held_by_other_own phone t u0 Hp Hin). reflexivity.
Qed.

End UpdateInvariants.

(** ** The endpoints on one user *)

Lemma fetch_by_id_find (q : string) (user_id : Z) (t : table) :
  Driver.placeholders q = Ret 1%nat ->
  Accounts.fetch_by_id q user_id t = Ret (find (fun u => id u =? user_id) t).
Proof.
  intro Hq. unfold Accounts.fetch_by_id, Driver.convert. now rewrite Hq.
Qed.

Lemma find_known (user_id : Z) (t : table) :
  match find (fun u => id u =? user_id) t with
  | Some u => In u t /\ id u = user_id /\ Effects.known user_id t = true
  | None => Effects.known user_id t = false
  end.
Proof.
  unfold Effects.known.
  destruct (find _ t) as [u|] eqn:E.
  - apply find_some in E as [Hin Hid]. apply Z.eqb_eq in Hid.
    repeat split; try assumption.
    apply existsb_exists. exists u. split; [exact Hin|now apply Z.eqb_eq].
  - destruct (existsb _ t) eqn:Ex; [|reflexivity].
    apply existsb_exists in Ex as (u & Hin & Hid).
    now rewrite (find_none _ _ E u Hin) in Hid.
Qed.

Lemma filter_length_known (user_id : Z) (t : table) :
  Nat.eqb (List.length (filter (fun u => id u =? user_id) t)) 0
  = negb (Effects.known user_id t).
Proof.
  unfold Effects.known. induction t as [|u t IH]; [reflexivity|].
  cbn [filter existsb]. destruct (id u =? user_id); [reflexivity|exact IH].
Qed.

Lemma update_user_status_spec (t : table) (now user_id : Z)
  (new_status : option string) :
  Accounts.update_user_status t now user_id new_status =
    match new_status with
    | Some s =>
        if negb (Accounts.valid_status new_status)
        then (Accounts.Error "Invalid status", t)
        else if negb (Effects.known user_id t)
        then (Accounts.Error "User not found", t)
        else (Accounts.Ok ("User "
                           ++ (if String.eqb s "active" then "activated"
                               else "blocked")
                           ++ " successfully"),
              Bodies.with_status now user_id s t)
    | None => (Accounts.Error "Invalid status", t)
    end.
Proof.
  unfold Accounts.update_user_status, Accounts.update_user_status_body.
  destruct new_status as [s|]; [|reflexivity].
  destruct (negb _); [reflexivity|].
  change (Driver.convert Accounts.status_sql [PText s; PInt user_id])
    with (@Ret unit tt).
  cbn [bind]. rewrite filter_length_known.
  destruct (negb (Effects.known user_id t)); reflexivity.
Qed.

Lemma with_status_unknown (now user_id : Z) (s : string) (t : table) :
  Effects.known user_id t = false -> Bodies.with_status now user_id s t = t.
Proof.
  unfold Effects.known, Bodies.with_status. intro Hk.
  induction t as [|u t IH]; [reflexivity|].
  cbn [existsb] in Hk. apply orb_false_iff in Hk as [Hu Hk].
  cbn [map]. now rewrite Hu, (IH Hk).
Qed.

(** X14: [update_user_status] accepts the statuses [active] and [blocked]
    only: any other or a missing status is refused with 'Invalid status'
    and the table is left as it was.  So a table whose statuses are all
    [active] or [blocked] stays such a table, and no request changes an id,
    name, email, phone, location, password or creation time. *)
Theorem update_user_status_keeps_enum (t : table) (now user_id : Z)
  (new_status : option string) :
  let r := Accounts.update_user_status t now user_id new_status in
  (Accounts.valid_status new_status = false ->
   r = (Accounts.Error "Invalid status", t))
  /\ (Forall Bodies.status_in_enum t -> Forall Bodies.status_in_enum (snd r))
  /\ map id (snd r) = map id t
  /\ map full_name (snd r) = map full_name t
  /\ map email (snd r) = map email t
  /\ map phone (snd r) = map phone t
  /\ map location (snd r) = map location t
  /\ map password (snd r) = map password t
  /\ map created_at (snd r) = map created_at t.
Proof.
  cbv zeta. rewrite update_user_status_spec.
  destruct new_status as [s|]; [|repeat split; auto].
  destruct (Accounts.valid_status (Some s)) eqn:Hv; cbn [negb];
    [|repeat split; auto].
  destruct (negb (Effects.known user_id t)); [repeat split; auto; discriminate|].
  cbn [snd]. split; [discriminate|]. split.
  - intro Hall. unfold Bodies.with_status. apply Forall_map.
    eapply Forall_impl; [|exact Hall]. intros u Hu.
    destruct (id u =? user_id); [|exact Hu].
    unfold Bodies.status_in_enum. cbn [status Engine.set_updated_at Engine.set_status].
    cbn [Accounts.valid_status] in Hv. apply orb_true_iff in Hv as [Hv|Hv];
      apply String.eqb_eq in Hv; auto.
  - unfold Bodies.with_status. rewrite !map_map.
    repeat split; apply map_ext; intro u; now destruct (id u =? user_id).
Qed.

Section StatusAgreement.

Variable generate_password_hash : string -> string.

(** X15: [update_user] does not check the status it is given: a body that
    names the status only writes that text, whatever it is, into the rows
    of the user.  For [active] and [blocked] the table it leaves is the one
    [update_user_status] leaves. *)
Theorem update_user_writes_any_status (t : table) (now user_id : Z) (s : string) :
  snd (update_user generate_password_hash t now user_id (Bodies.status_only s))
  = Bodies.with_status now user_id s t
  /\ (Accounts.valid_status (Some s) = true ->
      snd (Accounts.update_user_status t now user_id (Some s))
      = Bodies.with_status now user_id s t).
Proof.
  split.
  - rewrite update_user_spec. cbn [Effects.held_by_other Bodies.status_only
                                     data_email data_phone].
    destruct (Effects.known user_id t) eqn:Hk; cbn [negb snd].
    + reflexivity.
    + now rewrite with_status_unknown.
  - intro Hv. rewrite update_user_status_spec, Hv. cbn [negb].
    destruct (Effects.known user_id t) eqn:Hk; cbn [negb snd]; [reflexivity|].
    now rewrite with_status_unknown.
Qed.

End StatusAgreement.

Lemma delete_user_spec (t : table) (user_id : Z) :
  Accounts.delete_user t user_id =
    match find (fun u => id u =? user_id) t with
    | Some u => (Accounts.Ok ("User " ++ full_name u ++ " deleted successfully"),
                 filter (fun v => negb (id v =? user_id)) t)
    | None => (Accounts.Error "User not found", t)
    end.
Proof.
  unfold Accounts.delete_user, Accounts.delete_user_body.
  rewrite fetch_by_id_find by reflexivity. cbn [bind].
  destruct (find _ t); reflexivity.
Qed.

Lemma get_user_details_spec (t : table) (user_id : Z) :
  Accounts.get_user_details t user_id =
    match find (fun u => id u =? user_id) t with
    | Some u => Accounts.Ok (u, parsed_location (listed u))
    | None => Accounts.Error "User not found"
    end.
Proof.
  unfold Accounts.get_user_details, Accounts.get_user_details_body.
  rewrite fetch_by_id_find by reflexivity. cbn [bind].
  destruct (find _ t) as [u|]; [|reflexivity].
  cbn [listed parsed_location]. rewrite parse_location_data_spec.
  destruct (location u) as [|a s]; [reflexivity|].
  destruct (_ && _); reflexivity.
Qed.

Lemma find_after_delete (user_id : Z) (t : table) :
  find (fun u => id u =? user_id) (filter (fun v => negb (id v =? user_id)) t)
  = None.
Proof.
  induction t as [|u t IH]; [reflexivity|].
  cbn [filter]. destruct (id u =? user_id) eqn:E; cbn [negb]; [exact IH|].
  cbn [find]. now rewrite E.
Qed.

Lemma filter_unknown (user_id : Z) (t : table) :
  find (fun u => id u =? user_id) t = None ->
  filter (fun v => negb (id v =? user_id)) t = t.
Proof.
  induction t as [|u t IH]; [reflexivity|].
  cbn [find filter]. destruct (id u =? user_id); [discriminate|].
  intro Hf. cbn [negb]. now rewrite (IH Hf).
Qed.

(** X16: [delete_user] removes every row with the id and nothing else: the
    other rows stay, in their order.  It answers 'User not found' exactly
    when no row has the id, and then changes nothing.  After it, whatever
    its answer, the id is unknown: [get_user_details] and a second
    [delete_user] both answer 'User not found'. *)
Theorem delete_user_removes (t : table) (user_id : Z) :
  let t' := snd (Accounts.delete_user t user_id) in
  t' = filter (fun v => negb (id v =? user_id)) t
  /\ (fst (Accounts.delete_user t user_id) = Accounts.Error "User not found"
      <-> Effects.known user_id t = false)
  /\ Accounts.get_user_details t' user_id = Accounts.Error "User not found"
  /\ Accounts.delete_user t' user_id = (Accounts.Error "User not found", t').
Proof.
  cbv zeta.
  assert (Ht : snd (Accounts.delete_user t user_id)
               = filter (fun v => negb (id v =? user_id)) t).
  { rewrite delete_user_spec.
    destruct (find _ t) eqn:E; [reflexivity|]. cbn [snd].
    now rewrite filter_unknown. }
  rewrite Ht. split; [reflexivity|]. split; [|split].
  - rewrite delete_user_spec. pose proof (find_known user_id t) as Hk.
    destruct (find _ t); cbn [fst].
    + destruct Hk as (_ & _ & Hk). rewrite Hk. split; discriminate.
    + rewrite Hk. split; reflexivity.
  - now rewrite get_user_details_spec, find_after_delete.
  - now rewrite delete_user_spec, find_after_delete.
Qed.

(** X17: [get_user_details] answers 'User not found' exactly when no row
    has the id; otherwise it hands out a stored row with that id, all its
    columns as stored (the password column included), together with the
    record [parse_location_data] gives for its location, the same record
    the listing attaches to that row. *)
Theorem get_user_details_returns_row (t : table) (user_id : Z) :
  (Effects.known user_id t = false /\
   Accounts.get_user_details t user_id = Accounts.Error "User not found")
  \/ (exists (u : UserRecord) (d : dict),
        Accounts.get_user_details t user_id = Accounts.Ok (u, d)
        /\ In u t /\ id u = user_id
        /\ parse_location_data (Some (location u)) = Ret d
        /\ d = parsed_location (listed u)).
Proof.
  rewrite get_user_details_spec. pose proof (find_known user_id t) as Hk.
  destruct (find _ t) as [u|]; [right|left; now split].
  destruct Hk as (Hin & Hid & _).
  exists u, (parsed_location (listed u)). repeat split; try assumption.
  cbn [listed parsed_location]. rewrite parse_location_data_spec.
  destruct (location u) as [|a s]; [reflexivity|].
  destruct (_ && _); reflexivity.
Qed.

Lemma find_updated_table (h : string -> string) (now user_id : Z)
  (data : UpdateData) (t : table) :
  find (fun u => id u =? user_id) (Effects.updated_table h now user_id data t)
  = option_map (Effects.updated_row h now data)
      (find (fun u => id u =? user_id) t).
Proof.
  unfold Effects.updated_table. induction t as [|u t IH]; [reflexivity|].
  cbn [map find]. destruct (id u =? user_id) eqn:E.
  - cbn [Effects.updated_row id]. now rewrite E.
  - now rewrite E.
Qed.

Section UpdateThenRead.

Variable generate_password_hash : string -> string.

(** X18: after an accepted [update_user] whose body names a location,
    [get_user_details] of that user shows the new location, the record
    [parse_location_data] gives for it, and the time of the request as
    [updated_at]. *)
Theorem details_after_update (t t' : table) (now user_id : Z)
  (data : UpdateData) (l : string) :
  update_user generate_password_hash t now user_id data = (Updated, t') ->
  data_location data = Some l ->
  exists (u : UserRecord) (d : dict),
    Accounts.get_user_details t' user_id = Accounts.Ok (u, d)
    /\ location u = l
    /\ updated_at u = Some now
    /\ parse_location_data (Some l) = Ret d.
Proof.
  intros Hu Hl. rewrite update_user_spec in Hu.
  destruct (Effects.known user_id t) eqn:Hk; cbn [negb] in Hu;
    [|discriminate].
  destruct (Effects.held_by_other email _ _ _); [discriminate|].
  destruct (Effects.held_by_other phone _ _ _); [discriminate|].
  injection Hu as <-.
  rewrite get_user_details_spec, find_updated_table.
  pose proof (find_known user_id t) as Hf.
  destruct (find _ t) as [u|]; [|congruence].
  cbn [option_map].
  assert (Hloc : location (Effects.updated_row generate_password_hash now data u)
                 = l)
    by (cbn [Effects.updated_row location]; now rewrite Hl).
  eexists _, _. split; [reflexivity|].
  split; [exact Hloc|]. split; [reflexivity|].
  cbn [listed parsed_location]. rewrite Hloc, parse_location_data_spec.
  destruct l as [|a s]; [reflexivity|].
  destruct (_ && _); reflexivity.
Qed.

End UpdateThenRead.

(** ** The photo endpoints *)

Lemma has_char_app (c : ascii) (a b : string) :
  Str.has_char c (a ++ b) = Str.has_char c a || Str.has_char c b.
Proof.
  induction a as [|x a IH]; [reflexivity|].
  cbn [append Str.has_char]. now rewrite IH, orb_assoc.
Qed.

Lemma replace_space_free (s : string) :
  Str.has_char " " (Str.replace " " "_" s) = false.
Proof.
  unfold Str.replace. induction s as [|c s IH]; [reflexivity|].
  cbn [Str.replace_from is_prefix String.length Nat.sub].
  destruct (Ascii.eqb " " c) eqn:E; cbn [andb].
  - cbn [append Str.has_char]. exact IH.
  - cbn [Str.has_char]. rewrite IH, orb_false_r.
    rewrite Ascii.eqb_sym. exact E.
Qed.

(** X19: [download_user_photo] answers with a photo only for a known user
    whose [profile_pic] is not empty and holds the word cloudinary in any
    letter case; then [get_user_photo] answers with the same address, and
    the proposed file name holds no space. *)
Theorem photo_download_is_stricter (t : table) (user_id : Z)
  (info : Accounts.PhotoInfo) :
  Accounts.download_user_photo t user_id = Accounts.Ok info ->
  Accounts.get_user_photo t user_id = Accounts.Ok (Accounts.photo_url info)
  /\ contains "cloudinary" (Str.py_lower (Accounts.photo_url info)) = true
  /\ Str.has_char " " (Accounts.file_name info) = false
  /\ exists u, In u t /\ id u = user_id
               /\ profile_pic u = Some (Accounts.photo_url info)
               /\ Accounts.user_name info = full_name u.
Proof.
  unfold Accounts.download_user_photo, Accounts.download_user_photo_body,
    Accounts.get_user_photo, Accounts.get_user_photo_body.
  rewrite !fetch_by_id_find by reflexivity. cbn [bind].
  pose proof (find_known user_id t) as Hk.
  destruct (find _ t) as [u|]; [|discriminate].
  destruct Hk as (Hin & Hid & _).
  destruct (profile_pic u) as [url|] eqn:Ep; [|discriminate].
  destruct (str_truthy url) eqn:Et; cbn [negb orb]; [|discriminate].
  destruct (contains "cloudinary" (Str.py_lower url)) eqn:Ec; cbn [negb];
    [|discriminate].
  intro Hi. injection Hi as <-. cbn [Accounts.photo_url Accounts.file_name
                                       Accounts.user_name].
  repeat split; try assumption.
  - rewrite has_char_app.
    change (Str.replace_from " " "_" 0 (full_name u))
      with (Str.replace " " "_" (full_name u)).
    rewrite replace_space_free. reflexivity.
  - exists u. auto.
Qed.

(** ** get_users_stats *)

Lemma auto_users_value `{Sql.Locale} (t : table) :
  Stats.auto_users t
  = Ret (Statistics.count
           (fun u => (4 <=? List.length (segments (location u)))%nat) t).
Proof.
  unfold Stats.auto_users, Statistics.count.
  replace (Engine.select_where 0 [LocationLike] [] t)
    with (Ret (filter (fun u => (4 <=? List.length (segments (location u)))%nat) t));
    [reflexivity|].
  induction t as [|v t IH]; [reflexivity|].
  cbn [Engine.select_where Engine.where_holds Engine.arity firstn skipn
         Engine.holds filter].
  rewrite shape_test_is_four_segments, <- IH. cbn [bind].
  now rewrite andb_true_r.
Qed.

Lemma get_users_stats_value `{Sql.Locale} (t : table) (now : Z) :
  Statistics.get_users_stats t now =
    Accounts.Ok
      {| Statistics.total_users := Z.of_nat (List.length t);
         Statistics.auto_users :=
           Statistics.count
             (fun u => (4 <=? List.length (segments (location u)))%nat) t;
         Statistics.today_users :=
           Statistics.count
             (fun u => created_at u / usecs_per_day =? current_date now) t;
         Statistics.week_users :=
           Statistics.count
             (fun u => current_date now - 7 <=? created_at u / usecs_per_day) t;
         Statistics.active_users :=
           Statistics.count (fun u => String.eqb (status u) "active") t;
         Statistics.blocked_users :=
           Statistics.count (fun u => String.eqb (status u) "blocked") t |}.
Proof.
  unfold Statistics.get_users_stats, Statistics.get_users_stats_body.
  rewrite auto_users_value.
  change (Statistics.with_date_bound Statistics.today_sql) with (@Ret unit tt).
  change (Statistics.with_date_bound Statistics.week_sql) with (@Ret unit tt).
  cbn [bind]. unfold Statistics.or_zero.
  do 2 f_equal.
  - destruct (Statistics.count _ t =? 0) eqn:E; [|reflexivity].
    apply Z.eqb_eq in E. now rewrite E.
  - destruct (Statistics.count (fun u => String.eqb (status u) "blocked") t =? 0)
      eqn:E; [|reflexivity].
    apply Z.eqb_eq in E. now rewrite E.
Qed.

Lemma count_le (p q : UserRecord -> bool) (t : table) :
  (forall u, p u = true -> q u = true) ->
  Statistics.count p t <= Statistics.count q t.
Proof.
  intro H. unfold Statistics.count. apply Nat2Z.inj_le.
  now apply filter_length_le.
Qed.

Lemma count_le_length (p : UserRecord -> bool) (t : table) :
  0 <= Statistics.count p t <= Z.of_nat (List.length t).
Proof.
  unfold Statistics.count. split; [lia|].
  apply Nat2Z.inj_le, List.filter_length_le.
Qed.

Lemma count_active_blocked (t : table) :
  Statistics.count (fun u => String.eqb (status u) "active") t
  + Statistics.count (fun u => String.eqb (status u) "blocked") t
  <= Z.of_nat (List.length t)
  /\ (Forall Bodies.status_in_enum t ->
      Statistics.count (fun u => String.eqb (status u) "active") t
      + Statistics.count (fun u => String.eqb (status u) "blocked") t
      = Z.of_nat (List.length t)).
Proof.
  unfold Statistics.count. induction t as [|u t [IHle IHeq]].
  - cbn. split; [lia|reflexivity].
  - cbn [filter List.length].
    destruct (String.eqb (status u) "active") eqn:Ea;
      destruct (String.eqb (status u) "blocked") eqn:Eb.
    + apply String.eqb_eq in Ea, Eb. congruence.
    + cbn [List.length]. split; [lia|].
      intro Hall. apply Forall_inv_tail in Hall. specialize (IHeq Hall). lia.
    + cbn [List.length]. split; [lia|].
      intro Hall. apply Forall_inv_tail in Hall. specialize (IHeq Hall). lia.
    + split; [lia|]. intro Hall. apply Forall_inv in Hall.
      apply String.eqb_neq in Ea, Eb. destruct Hall; contradiction.
Qed.

(** X20: [get_users_stats] always answers.  Its counts are consistent: the
    total is the number of rows; the users of today are among those of the
    last week; the auto-detected, the week's, the active and the blocked
    are each at most the total; active and blocked together are at most the
    total, and make up the total when every status is [active] or
    [blocked]. *)
Theorem stats_are_consistent `{Sql.Locale} (t : table) (now : Z) :
  exists s : Statistics.StatsRecord,
    Statistics.get_users_stats t now = Accounts.Ok s
    /\ Statistics.total_users s = Z.of_nat (List.length t)
    /\ 0 <= Statistics.auto_users s <= Statistics.total_users s
    /\ 0 <= Statistics.today_users s <= Statistics.week_users s
    /\ Statistics.week_users s <= Statistics.total_users s
    /\ 0 <= Statistics.active_users s
    /\ 0 <= Statistics.blocked_users s
    /\ Statistics.active_users s + Statistics.blocked_users s
       <= Statistics.total_users s
    /\ (Forall Bodies.status_in_enum t ->
        Statistics.active_users s + Statistics.blocked_users s
        = Statistics.total_users s).
Proof.
  rewrite get_users_stats_value. eexists. split; [reflexivity|].
  cbn [Statistics.total_users Statistics.auto_users Statistics.today_users
         Statistics.week_users Statistics.active_users
         Statistics.blocked_users].
  pose proof (count_active_blocked t) as [Hle Heq].
  repeat split; try apply count_le_length; try assumption.
  apply count_le. intros u Hu. apply Z.eqb_eq in Hu. apply Z.leb_le. lia.
Qed.

Lemma satisfies_listing `{Sql.Locale} (now : Z) (status date : string)
  (u : UserRecord) :
  satisfies now (Statistics.listing status date) u
  = Filters.status_ok (Statistics.listing status date) u
    && Filters.date_ok now (Statistics.listing status date) u.
Proof. rewrite satisfies_conj. reflexivity. Qed.

Lemma count_ext (p q : UserRecord -> bool) (t : table) :
  (forall u, p u = q u) -> Statistics.count p t = Statistics.count q t.
Proof.
  intro H. unfold Statistics.count. now rewrite (filter_ext _ _ H).
Qed.

Section StatsAndListing.

Context `{Sql.Locale} `{Engine.Ordering}.

Lemma listing_total (t : table) (now : Z) (status date : string) :
  Driver.has_nul status = false ->
  Statistics.reported_total (get_users t now (Statistics.listing status date))
  = Some (Statistics.count (satisfies now (Statistics.listing status date)) t).
Proof.
  intro Hs. rewrite get_users_returns; [reflexivity|].
  unfold Filters.serves, Filters.texts_ok.
  cbn [Statistics.listing filters_location location_filter search
         status_filter page per_page].
  rewrite Hs. cbn [negb]. rewrite orb_true_r. reflexivity.
Qed.

(** X21: the counts of [get_users_stats] are the totals [get_users]
    reports for the matching filter with the default arguments: all users,
    the users of today, of the last week (the two spell the bound
    differently), the active and the blocked users. *)
Theorem stats_agree_with_listing (t : table) (now : Z)
  (s : Statistics.StatsRecord) :
  Statistics.get_users_stats t now = Accounts.Ok s ->
  Statistics.reported_total (get_users t now (Statistics.listing "all" "all"))
  = Some (Statistics.total_users s)
  /\ Statistics.reported_total
       (get_users t now (Statistics.listing "all" "today"))
     = Some (Statistics.today_users s)
  /\ Statistics.reported_total
       (get_users t now (Statistics.listing "all" "week"))
     = Some (Statistics.week_users s)
  /\ Statistics.reported_total
       (get_users t now (Statistics.listing "active" "all"))
     = Some (Statistics.active_users s)
  /\ Statistics.reported_total
       (get_users t now (Statistics.listing "blocked" "all"))
     = Some (Statistics.blocked_users s).
Proof.
  rewrite get_users_stats_value. intro Hs. injection Hs as <-.
  cbn [Statistics.total_users Statistics.today_users Statistics.week_users
         Statistics.active_users Statistics.blocked_users].
  rewrite !listing_total by reflexivity. repeat split; f_equal.
  - unfold Statistics.count. f_equal.
    rewrite (filter_ext _ (fun _ => true)) by (intro; now rewrite satisfies_listing).
    induction t as [|u t IH]; [reflexivity|]. cbn [filter List.length]. now rewrite IH.
  - apply count_ext. intro u. now rewrite satisfies_listing.
  - apply count_ext. intro u. rewrite satisfies_listing.
    cbn. unfold current_date, usecs_per_day.
    destruct (now / 86400000000 - 7 <=? created_at u / 86400000000) eqn:E.
    + apply Z.leb_le in E. apply Z.leb_le.
      pose proof (Z.mul_div_le (created_at u) 86400000000 ltac:(lia)). nia.
    + apply Z.leb_gt in E. apply Z.leb_gt.
      pose proof (Z.mod_pos_bound (created_at u) 86400000000 ltac:(lia)).
      pose proof (Z.div_mod (created_at u) 86400000000 ltac:(lia)). nia.
  - apply count_ext. intro u. rewrite satisfies_listing.
    apply andb_true_r.
  - apply count_ext. intro u. rewrite satisfies_listing.
    apply andb_true_r.
Qed.

End StatsAndListing.

(** ** The session: admin_login, admin_logout, admin_login_required *)

Lemma equals_spec (v : option string) (text : string) :
  Session.equals v text = true <-> v = Some text.
Proof.
  destruct v as [s|]; cbn.
  - rewrite String.eqb_eq. split; congruence.
  - split; discriminate.
Qed.

Lemma admin_login_accepts (creds : Session.credentials) (post : bool)
  (fu fp : option string) :
  (if post
   then Session.equals fu (Session.username creds)
        && Session.equals fp (Session.password creds)
   else false) = true
  <-> post = true /\ fu = Some (Session.username creds)
      /\ fp = Some (Session.password creds).
Proof.
  destruct post.
  - rewrite andb_true_iff, !equals_spec. tauto.
  - split; [discriminate|]. now intros [? _].
Qed.

(** X22: [admin_login] opens the session exactly for a POST whose two
    fields are both present and equal to the credentials; it then redirects
    to the dashboard and records the user name.  A GET, a missing field or
    a wrong value renders the login page, and leaves a session that was
    open as open as it was. *)
Theorem login_needs_both_credentials (creds : Session.credentials)
  (post : bool) (form_username form_password : option string)
  (s : Session.session) :
  let accepted :=
    post = true /\ form_username = Some (Session.username creds)
    /\ form_password = Some (Session.password creds) in
  let r := Session.admin_login creds post form_username form_password s in
  (fst r = Session.Redirect "admin_dashboard" <-> accepted)
  /\ (~ accepted -> fst r = Session.Render "login.html"
                    /\ Session.logged_in (snd r) = Session.logged_in s
                    /\ Session.admin_username (snd r)
                       = Session.admin_username s)
  /\ (accepted -> Session.logged_in (snd r) = true
                  /\ Session.admin_username (snd r)
                     = Some (Session.username creds)).
Proof.
  intros accepted r.
  pose proof (admin_login_accepts creds post form_username form_password)
    as Hacc.
  fold accepted in Hacc. subst r. unfold Session.admin_login.
  destruct (if post then _ else false) eqn:E.
  - assert (Ha : accepted) by now apply Hacc.
    destruct post; [|discriminate]. rewrite E. cbn [fst snd].
    split; [tauto|]. split; [tauto|]. intros _. split; [reflexivity|].
    cbn. now destruct Ha as (_ & -> & _).
  - assert (Ha : ~ accepted) by (intro Ha; apply Hacc in Ha; discriminate).
    assert (Hr : (if post
                  then if Session.equals form_username (Session.username creds)
                          && Session.equals form_password
                               (Session.password creds)
                       then (Session.Redirect "admin_dashboard",
                             Session.flash "Login successful!" "success"
                               {| Session.admin_logged_in := Some true;
                                  Session.admin_username := form_username;
                                  Session.flashes := Session.flashes s |})
                       else (Session.Render "login.html",
                             Session.flash "Invalid username or password"
                               "error" s)
                  else (Session.Render "login.html", s))
                 = (Session.Render "login.html",
                    if post
                    then Session.flash "Invalid username or password"
                           "error" s
                    else s)).
    { destruct post; [now rewrite E|reflexivity]. }
    rewrite Hr. cbn [fst snd].
    split; [split; [discriminate|tauto]|]. split; [|tauto].
    intros _. split; [reflexivity|]. now destruct post.
Qed.

(** X23: after [admin_logout] every endpoint behind [admin_login_required]
    is refused, whatever the session held; after a login attempt that
    follows, it is served exactly when the attempt was a POST with both
    credentials. *)
Theorem logout_closes_every_endpoint (A : Type) (f : A)
  (creds : Session.credentials) (post : bool)
  (form_username form_password : option string) (s : Session.session) :
  let out := snd (Session.admin_logout s) in
  fst (Session.admin_login_required f out) = Session.Denied
  /\ (fst (Session.admin_login_required f
             (snd (Session.admin_login creds post form_username
                     form_password out)))
      = Session.Served f
      <-> post = true /\ form_username = Some (Session.username creds)
          /\ form_password = Some (Session.password creds)).
Proof.
  intro out. split; [reflexivity|].
  rewrite <- admin_login_accepts. subst out.
  unfold Session.admin_login, Session.admin_logout.
  destruct post; [|cbn; split; discriminate].
  destruct (Session.equals form_username _ && Session.equals form_password _);
    cbn; split; (reflexivity || discriminate).
Qed.

(** ** get_db_connection *)

Lemma replace_first_prefix (old new s : string) :
  is_prefix old s = true ->
  Str.replace_first old new s = (new ++ drop (String.length old) s)%string.
Proof. intro H. destruct s; cbn [Str.replace_first]; now rewrite H. Qed.

Lemma is_prefix_app (p s : string) : is_prefix p (p ++ s) = true.
Proof.
  induction p as [|a p IH]; [reflexivity|].
  cbn [append is_prefix]. now rewrite Ascii.eqb_refl, IH.
Qed.

Lemma drop_app_length (p s : string) : drop (String.length p) (p ++ s) = s.
Proof. induction p as [|a p IH]; [now destruct s|exact IH]. Qed.

Section ConnectionFacts.

Variable connection : Type.
Variable connect : string -> outcome connection.

(** X24: [get_db_connection] raises [ValueError], without connecting, when
    [DATABASE_URL] is unset or empty.  Otherwise it connects with one URL,
    which never starts with [postgres://]: a URL [postgres://rest] is
    turned into [postgresql://rest] (a later [postgres://] in it is kept),
    any other URL is passed as it is. *)
Theorem connection_url_is_normalised (env : option string) :
  match env with
  | None | Some EmptyString =>
      Connection.get_db_connection connection connect env = Raise ValueError
  | Some url =>
      exists url' : string,
        Connection.get_db_connection connection connect env = connect url'
        /\ is_prefix "postgres://" url' = false
        /\ (forall rest : string,
              url = ("postgres://" ++ rest)%string ->
              url' = ("postgresql://" ++ rest)%string)
        /\ (is_prefix "postgres://" url = false -> url' = url)
  end.
Proof.
  destruct env as [[|c url]|]; [reflexivity| |reflexivity].
  set (u := String c url).
  unfold Connection.get_db_connection.
  change (negb (str_truthy u)) with false. cbv iota.
  destruct (is_prefix "postgres://" u) eqn:E.
  - rewrite (replace_first_prefix _ _ _ E).
    eexists. split; [reflexivity|]. split; [reflexivity|]. split.
    + intros rest ->. now rewrite drop_app_length.
    + discriminate.
  - exists u. split; [reflexivity|]. split; [exact E|]. split.
    + intros rest Hu. rewrite Hu, is_prefix_app in E. discriminate.
    + reflexivity.
Qed.

End ConnectionFacts.

(** ** The location table of generate_user_pdf *)

Section ReportFacts.

Variable str_float : pyfloat -> string.
Variable float_is_zero : pyfloat -> bool.

(** X25: the location table that [generate_user_pdf] builds from the record
    of [parse_location_data] never fails.  For an auto-detected location it
    has five rows: the address, the type, the two coordinates as [str]
    writes them (the text [None] for an empty coordinate segment) and the
    map link, replaced by [Not available] when its segment is empty.
    Otherwise it has the two rows of the address (the whole string) and the
    type [Manual Entry]. *)
Theorem report_location_rows (location : option string) :
  let parsed := parse_location_data location in
  let raw := match location with Some s => s | None => EmptyString end in
  let cell seg := Report.str str_float (coordinate_value seg) in
  (parsed_loc <- parsed ;;
   Report.location_data str_float float_is_zero parsed_loc)
  = Ret (if is_auto_detected parsed
         then [ ("Address", VStr (segment raw 0));
                ("Location Type", VStr "Auto-detected");
                ("Latitude", VStr (cell (segment raw 1)));
                ("Longitude", VStr (cell (segment raw 2)));
                ("Google Maps Link",
                 VStr (if str_truthy (segment raw 3) then segment raw 3
                       else "Not available")) ]
         else [ ("Address", VStr raw);
                ("Location Type", VStr "Manual Entry") ])
  /\ cell EmptyString = "None".
Proof.
  intros parsed raw cell. split; [|reflexivity].
  subst parsed cell. destruct location as [s|]; [|reflexivity].
  subst raw. cbv beta iota. rewrite parse_location_data_spec.
  destruct s as [|c s]; [reflexivity|].
  cbv beta iota. set (raw := String c s).
  destruct (_ && _); [|reflexivity].
  generalize (segment raw 0) (coordinate_value (segment raw 1))
    (coordinate_value (segment raw 2)) (segment raw 3).
  clearbody raw. intros a la lo m. destruct m; reflexivity.
Qed.

End ReportFacts.

(** ** Letter case in the search text *)

Lemma lower_truthy (s1 s2 : string) :
  lower s1 = lower s2 -> str_truthy s1 = str_truthy s2.
Proof. destruct s1, s2; cbn; intro H; (reflexivity || discriminate). Qed.

Section SearchFacts.

Context `{Sql.Locale} `{Engine.Ordering}.

(** Texts that agree in the lower case of A to Z agree in the lower case
    of the locale. *)
Lemma fold_text_letter_case (s1 s2 : string) :
  lower s1 = lower s2 -> Sql.fold_text s1 = Sql.fold_text s2.
Proof.
  intro Hl. now rewrite <- (fold_text_lower s1), Hl, fold_text_lower.
Qed.

Lemma satisfies_letter_case (now : Z) (c : FilterCriteria) (s1 s2 : string)
  (u : UserRecord) :
  lower s1 = lower s2 ->
  satisfies now (Filters.with_search c s1) u
  = satisfies now (Filters.with_search c s2) u.
Proof.
  intro Hl. rewrite !satisfies_conj. f_equal. f_equal. f_equal.
  unfold Filters.search_ok. cbn [search Filters.with_search].
  rewrite (lower_truthy _ _ Hl). destruct (str_truthy s2); [|reflexivity].
  cbv zeta. unfold Filters.ilike_test, Sql.ilike.
  now rewrite !fold_search_term, (fold_text_letter_case _ _ Hl).
Qed.

Lemma texts_ok_letter_case (c : FilterCriteria) (s1 s2 : string) :
  lower s1 = lower s2 ->
  Filters.texts_ok (Filters.with_search c s1)
  = Filters.texts_ok (Filters.with_search c s2).
Proof.
  intro Hl. unfold Filters.texts_ok.
  cbn [search status_filter Filters.with_search].
  now rewrite <- (has_nul_lower s1), Hl, has_nul_lower.
Qed.

(** X26: the search ignores the case of the letters A to Z: two search
    texts that differ in letter case only get the same answer from
    [get_users], rows, order and pagination alike. *)
Theorem search_ignores_letter_case (t : table) (now : Z) (c : FilterCriteria)
  (s1 s2 : string) :
  lower s1 = lower s2 ->
  get_users t now (Filters.with_search c s1)
  = get_users t now (Filters.with_search c s2).
Proof.
  intro Hl.
  destruct (filters_location (Filters.with_search c s1)) eqn:Hf.
  - rewrite (get_users_rejected _ _ _ Hf).
    change (filters_location (Filters.with_search c s1))
      with (filters_location (Filters.with_search c s2)) in Hf.
    now rewrite (get_users_rejected _ _ _ Hf).
  - rewrite (get_users_unfold _ _ _ Hf).
    change (filters_location (Filters.with_search c s1))
      with (filters_location (Filters.with_search c s2)) in Hf.
    rewrite (get_users_unfold _ _ _ Hf).
    rewrite (texts_ok_letter_case c s1 s2 Hl).
    unfold page_rows. cbn [page per_page Filters.with_search].
    now rewrite (filter_ext _ _ (fun u => satisfies_letter_case now c s1 s2 u Hl)).
Qed.

End SearchFacts.

(** ** Samples *)

Lemma search_ignores_letter_case_sample :
  @get_users Sql.c_locale Engine.scan_order Sample.users 100
    (Filters.with_search (Sample.criteria 1 10 EmptyString "all") "BoB")
  = @get_users Sql.c_locale Engine.scan_order Sample.users 100
      (Filters.with_search (Sample.criteria 1 10 EmptyString "all") "bOb").
Proof.
  exact (@search_ignores_letter_case Sql.c_locale Engine.scan_order Sample.users 100
           (Sample.criteria 1 10 EmptyString "all") "BoB" "bOb" eq_refl).
Defined.

Lemma page_is_sound_sample :
  exists (us : list ListedUser) (pg : Pagination),
    @get_users Sql.c_locale Engine.scan_order Sample.users 100
      (Sample.criteria 1 2 EmptyString "all") = Success us pg
    /\ List.length us = 2%nat /\ total pg = 3
    /\ Forall (fun r => exists u, In u Sample.users /\ r = listed u) us.
Proof.
  destruct (@get_users Sql.c_locale Engine.scan_order Sample.users 100
              (Sample.criteria 1 2 EmptyString "all")) as [us pg|e] eqn:E;
    [|vm_compute in E; discriminate].
  exists us, pg. split; [reflexivity|].
  destruct (@page_is_sound Sql.c_locale Engine.scan_order Sample.users 100
              (Sample.criteria 1 2 EmptyString "all") us pg E)
    as (_ & _ & Ht & Hall).
  vm_compute in E. injection E as <- <-.
  split; [reflexivity|]. split; [reflexivity|].
  eapply Forall_impl; [|exact Hall].
  intros r (u & Hu & _ & Hr). exists u. now split.
Defined.

Lemma date_totals_are_ordered_sample :
  exists p1 p2 p3 p4 : Pagination,
    (total p1, total p2, total p3, total p4) = (0, 0, 3, 3)
    /\ total p1 <= total p2 /\ total p2 <= total p3 /\ total p3 <= total p4.
Proof.
  pose (c := Sample.criteria 1 10 EmptyString "all").
  pose (now := 10 * usecs_per_day).
  destruct (@get_users Sql.c_locale Engine.scan_order Sample.users now
              (Filters.with_date c "today")) as [us1 p1|e] eqn:E1;
    [|vm_compute in E1; discriminate].
  destruct (@get_users Sql.c_locale Engine.scan_order Sample.users now
              (Filters.with_date c "week")) as [us2 p2|e] eqn:E2;
    [|vm_compute in E2; discriminate].
  destruct (@get_users Sql.c_locale Engine.scan_order Sample.users now
              (Filters.with_date c "month")) as [us3 p3|e] eqn:E3;
    [|vm_compute in E3; discriminate].
  destruct (@get_users Sql.c_locale Engine.scan_order Sample.users now
              (Filters.with_date c "all")) as [us4 p4|e] eqn:E4;
    [|vm_compute in E4; discriminate].
  exists p1, p2, p3, p4. split.
  - vm_compute in E1, E2, E3, E4.
    injection E1 as _ <-. injection E2 as _ <-.
    injection E3 as _ <-. injection E4 as _ <-. reflexivity.
  - exact (@date_totals_are_ordered Sql.c_locale Engine.scan_order Sample.users now c
             us1 us2 us3 us4 p1 p2 p3 p4 E1 E2 E3 E4).
Defined.

Lemma gallery_ids : NoDup (map id Gallery.users).
Proof. repeat constructor; cbn; intuition discriminate. Defined.

Lemma gallery_emails : NoDup (map email Gallery.users).
Proof. repeat constructor; cbn; intuition discriminate. Defined.

Lemma gallery_phones : NoDup (map phone Gallery.users).
Proof. repeat constructor; cbn; intuition discriminate. Defined.

Lemma update_user_keeps_unique_sample :
  NoDup (map email
           (snd (update_user Gallery.hash Gallery.users 100 4
                   Gallery.resubmission)))
  /\ NoDup (map phone
              (snd (update_user Gallery.hash Gallery.users 100 4
                      Gallery.resubmission))).
Proof.
  exact (update_user_keeps_unique Gallery.hash Gallery.users 100 4
           Gallery.resubmission gallery_ids gallery_emails gallery_phones).
Defined.

Lemma own_email_and_phone_are_accepted_sample :
  fst (update_user Gallery.hash Gallery.users 100 4 Gallery.resubmission)
  = Updated.
Proof.
  apply (own_email_and_phone_are_accepted Gallery.hash Gallery.users 100
           Gallery.resubmission Gallery.dee).
  - cbn. tauto.
  - exact gallery_emails.
  - exact gallery_phones.
  - reflexivity.
  - reflexivity.
Defined.

Lemma details_after_update_sample :
  exists (u : UserRecord) (d : dict),
    Accounts.get_user_details
      (snd (update_user Gallery.hash Gallery.users 100 4 Gallery.resubmission))
      4 = Accounts.Ok (u, d)
    /\ location u = "5 High St | 51.5 | -0.12 | http://maps/d"
    /\ updated_at u = Some 100
    /\ parse_location_data (Some "5 High St | 51.5 | -0.12 | http://maps/d")
       = Ret d.
Proof.
  apply (details_after_update Gallery.hash Gallery.users _ 100 4
           Gallery.resubmission).
  - vm_compute. reflexivity.
  - reflexivity.
Defined.

Lemma photo_download_is_stricter_sample :
  Accounts.get_user_photo Gallery.users 4
  = Accounts.Ok "https://res.Cloudinary.com/demo/dee.jpg"
  /\ Str.has_char " " "Dee_Dee_Lane_profile.jpg" = false.
Proof.
  destruct (photo_download_is_stricter Gallery.users 4
              {| Accounts.photo_url := "https://res.Cloudinary.com/demo/dee.jpg";
                 Accounts.user_name := "Dee Dee Lane";
                 Accounts.file_name := "Dee_Dee_Lane_profile.jpg" |}
              eq_refl) as (Hp & _ & Hn & _).
  split; [exact Hp|exact Hn].
Defined.

Lemma stats_agree_with_listing_sample :
  Statistics.reported_total
    (@get_users Sql.c_locale Engine.scan_order Sample.users 100
       (Statistics.listing "active" "all")) = Some 3.
Proof.
  destruct (@stats_agree_with_listing Sql.c_locale Engine.scan_order Sample.users 100
              {| Statistics.total_users := 3; Statistics.auto_users := 2;
                 Statistics.today_users := 3; Statistics.week_users := 3;
                 Statistics.active_users := 3; Statistics.blocked_users := 0 |}
              eq_refl) as (_ & _ & _ & Ha & _).
  exact Ha.
Defined.

Lemma update_user_decides_sample :
  update_user Gallery.hash Gallery.users 100 4 Gallery.resubmission
  = (Updated,
     Effects.updated_table Gallery.hash 100 4 Gallery.resubmission
       Gallery.users).
Proof.
  exact (update_user_decides Gallery.hash Gallery.users 100 4
           Gallery.resubmission eq_refl).
Defined.
